(** * Real-time collaborative drawing canvas: ledger, registry and router

    A shallow embedding of the server side of the repository
    ([backend/src/drawingState.js], [backend/src/roomManager.js] and the
    socket handlers of [backend/src/server.js]) together with the
    statements of the specification that concern them.

    Conventions of the embedding:
    - a JavaScript object that is mutated in place is modelled by a value
      that is written back to the container holding it.  In
      [DrawingState] an operation object is referenced from exactly one
      place at any time (the pending [Map] until [endOperation] pushes it
      onto the array and deletes the [Map] entry), so no aliasing is lost;
    - every call of [Date.now()] is an explicit argument (a non-negative
      integer number of milliseconds);
    - an error raised by the code (a [TypeError] or a [RangeError]) is a
      [Throw] completion, paired with the state as it is at the moment of
      the throw; the [try]/[catch] of a handler is the [Throw] branch of
      its [match];
    - a call of the logger prints and returns.  What can matter is its
      argument: a template literal converts the values it inserts to
      strings before the logger is entered, and that conversion raises a
      [TypeError] for some objects.  A log call whose template inserts
      values of a payload is therefore kept, as [template]; one whose
      message is a literal, or inserts only strings the server made, is
      left out;
    - the transport library is not part of the repository: its calls
      ([socket.join], [socket.leave], the [emit]s) are recorded, in order,
      as what a handler does, and are taken to return;
    - the payload of an event is [None] when it is [undefined] or [null],
      of which no field can be read; any other payload is the record of
      the fields the handler reads, a field the payload does not have
      (every field of a number, a boolean or a string) being [JUndef]. *)

From Stdlib Require Import Ascii String DecimalString DecimalN.
From stdpp Require Import gmap strings list fin_maps.

Local Open Scope string_scope.
Local Open Scope list_scope.
Local Open Scope Z_scope.

(** ** JavaScript values carried by client payloads *)

(** The values a client can put in a payload field.  The server never
    computes with payload numbers, so an integer stands for them.  Nor
    does it read inside an object or an array that sits in a field: it
    tests it for truth, compares it by identity (as a [Map] key and with
    [===]), hands it on in the events it emits and converts it to a string
    in the template of a log message.  [JObj ref prints] is such a value:
    [ref] stands for its identity and [prints] tells whether its
    conversion to a string completes.  The conversion raises a [TypeError]
    for an object with a property named [toString] of its own (a payload
    carries no function, so the property cannot be called, and [valueOf]
    does not yield a primitive value), and for an array with such an
    object among its elements. *)
Inductive jsval : Type :=
  | JUndef
  | JNull
  | JBool (b : bool)
  | JNum (n : Z)
  | JStr (s : string)
  | JObj (ref : N) (prints : bool).

#[global] Instance jsval_eq_dec : EqDecision jsval.
Proof. solve_decision. Defined.

Definition jsval_encode (v : jsval)
  : unit + (unit + (bool + (Z + (string + N * bool)))) :=
  match v with
  | JUndef => inl tt
  | JNull => inr (inl tt)
  | JBool b => inr (inr (inl b))
  | JNum n => inr (inr (inr (inl n)))
  | JStr s => inr (inr (inr (inr (inl s))))
  | JObj ref prints => inr (inr (inr (inr (inr (ref, prints)))))
  end.

Definition jsval_decode (c : unit + (unit + (bool + (Z + (string + N * bool)))))
  : jsval :=
  match c with
  | inl _ => JUndef
  | inr (inl _) => JNull
  | inr (inr (inl b)) => JBool b
  | inr (inr (inr (inl n))) => JNum n
  | inr (inr (inr (inr (inl s)))) => JStr s
  | inr (inr (inr (inr (inr (ref, prints))))) => JObj ref prints
  end.

#[global] Instance jsval_countable : Countable jsval.
Proof.
  apply (inj_countable' jsval_encode jsval_decode).
  intros []; reflexivity.
Defined.

(** [ToBoolean]: what [if (v)], [!v] and [v || w] test. *)
Definition truthy (v : jsval) : bool :=
  match v with
  | JUndef | JNull => false
  | JBool b => b
  | JNum n => negb (Z.eqb n 0)
  | JStr s => negb (String.eqb s "")
  | JObj _ _ => true
  end.

(** [v || w] *)
Definition js_or (v w : jsval) : jsval := if truthy v then v else w.

(** The default of a destructuring pattern [{ f = d }]: it applies only
    when the field is [undefined]. *)
Definition js_default (v d : jsval) : jsval :=
  match v with JUndef => d | _ => v end.

(** Normal and abrupt completion of a call. *)
Inductive completion (A : Type) : Type :=
  | Normal (a : A)
  | Throw.
Arguments Normal {A} a.
Arguments Throw {A}.

(** [c; return a]: what a function returns once the statement [c] has
    completed. *)
Definition returning {A} (c : completion unit) (a : A) : completion A :=
  match c with
  | Normal _ => Normal a
  | Throw => Throw
  end.

(** [ToString(v)] completes. *)
Definition printable (v : jsval) : bool :=
  match v with
  | JObj _ prints => prints
  | _ => true
  end.

(** The evaluation of a template literal that inserts the values [vs]:
    each of them is converted to a string. *)
Definition template (vs : list jsval) : completion unit :=
  if forallb printable vs then Normal () else Throw.

(** [Date.now()] printed in a template literal: decimal digits. *)
Definition decimal (n : N) : string := NilEmpty.string_of_uint (N.to_uint n).

(** [arr.slice(0, e)] for an integer [e]: a negative end counts from the
    end of the array. *)
Definition js_slice0 {A} (l : list A) (e : Z) : list A :=
  if e <? 0 then take (Z.to_nat (Z.of_nat (length l) + e)) l
  else take (Z.to_nat e) l.

(** [arr[i]] for an integer [i]: [undefined] (here [None]) out of range. *)
Definition js_index {A} (l : list A) (i : Z) : option A :=
  if i <? 0 then None else l !! Z.to_nat i.

(** ** Operations ([drawingState.js]) *)

Inductive op_status : Type := in_progress | active | undone.

#[global] Instance op_status_eq_dec : EqDecision op_status.
Proof. solve_decision. Defined.

Record point : Type := Point { px : jsval; py : jsval }.

(** The [points] field of a payload, by what spreading it into a call
    ([push(...points)]) does.  A value that is not iterable raises a
    [TypeError]; an array of more elements than the engine passes as
    arguments raises a [RangeError]; any other array supplies its
    elements.  Where the limit lies is the engine's business (it depends
    on the stack that is left at the call), so whether an array is over
    it comes with the value instead of being computed from a length. *)
Inductive points_arg : Type :=
  | NotIterable
  | Overlong (ps : list point)
  | Elements (ps : list point).

(** The arguments [...points] supplies. *)
Definition spread (pts : points_arg) : completion (list point) :=
  match pts with
  | NotIterable => Throw
  | Overlong _ => Throw
  | Elements ps => Normal ps
  end.

Record operation : Type := Operation {
  id : string;
  userId : string;
  username : jsval;
  type : jsval;
  color : jsval;
  width : jsval;
  points : list point;
  timestamp : N;
  status : op_status
}.

Definition set_status (st : op_status) (o : operation) : operation :=
  {| id := id o; userId := userId o; username := username o; type := type o;
     color := color o; width := width o; points := points o;
     timestamp := timestamp o; status := st |}.

Definition push_points (pts : list point) (o : operation) : operation :=
  {| id := id o; userId := userId o; username := username o; type := type o;
     color := color o; width := width o; points := points o ++ pts;
     timestamp := timestamp o; status := status o |}.

(** The argument of [startOperation]. *)
Record start_data : Type := StartData {
  sd_userId : string;
  sd_username : jsval;
  sd_x : jsval;
  sd_y : jsval;
  sd_color : jsval;
  sd_width : jsval;
  sd_tool : jsval
}.

(** What [startOperation] returns. *)
Record started : Type := Started {
  operationId : string;
  st_x : jsval;
  st_y : jsval;
  st_color : jsval;
  st_width : jsval;
  st_tool : jsval
}.

(** What [getActiveOperations] returns for one entry: every field but the
    status. *)
Record op_view : Type := OpView {
  v_id : string;
  v_userId : string;
  v_username : jsval;
  v_type : jsval;
  v_color : jsval;
  v_width : jsval;
  v_points : list point;
  v_timestamp : N
}.

Definition view_of (o : operation) : op_view :=
  {| v_id := id o; v_userId := userId o; v_username := username o;
     v_type := type o; v_color := color o; v_width := width o;
     v_points := points o; v_timestamp := timestamp o |}.

(** ** The ledger: class [DrawingState] *)

Module DrawingState.

Record t : Type := Make {
  operations : list operation;
  currentIndex : Z;
  activeOperations : gmap string operation
}.

(** [constructor()] *)
Definition new : t :=
  {| operations := []; currentIndex := -1; activeOperations := ∅ |}.

(** [`op-${data.userId}-${Date.now()}`] *)
Definition make_id (uid : string) (now : N) : string :=
  "op-" +:+ (uid +:+ ("-" +:+ decimal now)).

(** The object built by [startOperation]; [now_id] and [now_ts] are its two
    readings of the clock. *)
Definition fresh_operation (d : start_data) (now_id now_ts : N) : operation :=
  {| id := make_id (sd_userId d) now_id;
     userId := sd_userId d;
     username := sd_username d;
     type := sd_tool d;
     color := sd_color d;
     width := sd_width d;
     points := [Point (sd_x d) (sd_y d)];
     timestamp := now_ts;
     status := in_progress |}.

Definition startOperation (s : t) (d : start_data) (now_id now_ts : N)
  : t * started :=
  let o := fresh_operation d now_id now_ts in
  ({| operations := operations s;
      currentIndex := currentIndex s;
      activeOperations := <[id o := o]> (activeOperations s) |},
   {| operationId := id o; st_x := sd_x d; st_y := sd_y d;
      st_color := sd_color d; st_width := sd_width d; st_tool := sd_tool d |}).

(** [this.operations.find(op => op.id === operationId)], with the position
    of the entry found. *)
Definition find_op (oid : string) (l : list operation)
  : option (nat * operation) :=
  list_find (λ o, id o = oid) l.

(** [addPoints(operationId, points)] for an id that is a string (for any
    other value see [RoomOps.addPoints]).  [push(...points)] raises before
    anything is pushed when [points] cannot be spread.  The templates of
    the two log calls insert the id only, here a string. *)
Definition addPoints (s : t) (oid : string) (pts : points_arg)
  : t * completion unit :=
  match activeOperations s !! oid with
  | None =>
      match find_op oid (operations s) with
      | Some (i, o) =>
          if decide (status o = active) then
            match spread pts with
            | Normal ps =>
                ({| operations := <[i := push_points ps o]> (operations s);
                    currentIndex := currentIndex s;
                    activeOperations := activeOperations s |}, Normal ())
            | Throw => (s, Throw)
            end
          else (s, Normal ())
      | None => (s, Normal ())
      end
  | Some o =>
      match spread pts with
      | Normal ps =>
          ({| operations := operations s;
              currentIndex := currentIndex s;
              activeOperations := <[oid := push_points ps o]> (activeOperations s) |},
           Normal ())
      | Throw => (s, Throw)
      end
  end.

(** [endOperation(operationId)] for an id that is a string (for any other
    value see [RoomOps.endOperation]). *)
Definition endOperation (s : t) (oid : string) : t :=
  match activeOperations s !! oid with
  | None =>
      match find_op oid (operations s) with
      | Some _ => s
      | None => s
      end
  | Some o =>
      {| operations :=
           js_slice0 (operations s) (currentIndex s + 1) ++ [set_status active o];
         currentIndex := currentIndex s + 1;
         activeOperations := delete oid (activeOperations s) |}
  end.

(** The [while] loop of [undo], entered with [currentIndex = k - 1]: it
    runs at most [k] times. *)
Fixpoint undo_loop (k : nat) (ops : list operation)
    (pend : gmap string operation) : t * completion (option operation) :=
  match k with
  | O => (Make ops (-1) pend, Normal None)
  | S k' =>
      match ops !! k' with
      | None => (Make ops (Z.of_nat k') pend, Throw)
      | Some o =>
          if decide (status o = active) then
            (Make (<[k' := set_status undone o]> ops) (Z.of_nat k' - 1) pend,
             Normal (Some (set_status undone o)))
          else undo_loop k' ops pend
      end
  end.

(** [undo()] *)
Definition undo (s : t) : t * completion (option operation) :=
  if currentIndex s <? 0 then (s, Normal None)
  else undo_loop (Z.to_nat (currentIndex s + 1)) (operations s)
         (activeOperations s).

(** The [for] loop of [redo] with [k] indices left to visit, the next one
    being [length - k]. *)
Fixpoint redo_loop (k : nat) (s : t) : t * completion (option operation) :=
  match k with
  | O => (s, Normal None)
  | S k' =>
      let i := Z.of_nat (length (operations s)) - Z.of_nat k in
      match js_index (operations s) i with
      | None => (s, Throw)
      | Some o =>
          if decide (status o = undone) then
            (Make (<[Z.to_nat i := set_status active o]> (operations s)) i
                  (activeOperations s),
             Normal (Some (set_status active o)))
          else redo_loop k' s
      end
  end.

(** [redo()] *)
Definition redo (s : t) : t * completion (option operation) :=
  if currentIndex s >=? Z.of_nat (length (operations s)) - 1
  then (s, Normal None)
  else redo_loop
         (Z.to_nat (Z.of_nat (length (operations s)) - (currentIndex s + 1))) s.

(** [getActiveOperations()] *)
Definition getActiveOperations (s : t) : list op_view :=
  view_of <$> filter (λ o, status o = active) (operations s).

(** [clear()] *)
Definition clear (s : t) : t := new.

Definition getOperationCount (s : t) : nat := length (operations s).

Definition getActiveOperationCount (s : t) : nat :=
  length (filter (λ o, status o = active) (operations s)).

End DrawingState.

(** ** A JavaScript [Map] whose iteration order is observed

    [room.users] is iterated by [Array.from(room.users.values())], so it is
    kept as an association list in insertion order: [set] on a key already
    present updates the value in place, on a new key it appends. *)

Module JsMap.
Section JsMap.
Context {K V : Type} `{EqDecision K}.

Fixpoint get (k : K) (m : list (K * V)) : option V :=
  match m with
  | [] => None
  | (k', v) :: m' => if decide (k' = k) then Some v else get k m'
  end.

Fixpoint set (k : K) (v : V) (m : list (K * V)) : list (K * V) :=
  match m with
  | [] => [(k, v)]
  | (k', v') :: m' =>
      if decide (k' = k) then (k, v) :: m' else (k', v') :: set k v m'
  end.

Fixpoint delete (k : K) (m : list (K * V)) : list (K * V) :=
  match m with
  | [] => []
  | (k', v') :: m' =>
      if decide (k' = k) then m' else (k', v') :: delete k m'
  end.

Definition size (m : list (K * V)) : nat := length m.

Definition values (m : list (K * V)) : list V := m.*2.
End JsMap.
End JsMap.

(** ** The session registry: class [RoomManager] *)

Module RoomManager.

Record user : Type := User {
  u_id : string;
  u_username : jsval;
  u_color : jsval;
  joinedAt : N
}.

Record room : Type := Room {
  drawingState : DrawingState.t;
  users : list (string * user);
  colorIndex : nat
}.

(** [this.rooms]; [this.userColors] is never assigned after the
    constructor and is the constant below. *)
Record t : Type := Make { rooms : gmap jsval room }.

Definition userColors : list string :=
  ["#3b82f6"; "#ef4444"; "#10b981"; "#f59e0b";
   "#8b5cf6"; "#ec4899"; "#14b8a6"; "#f97316"].

Definition new : t := {| rooms := ∅ |}.

Definition new_room : room :=
  {| drawingState := DrawingState.new; users := []; colorIndex := 0 |}.

(** [getRoom(roomId)]: a room that is missing is stored first and logged
    next, [`Created new room: ${roomId}`]. *)
Definition getRoom (rm : t) (roomId : jsval) : t * completion room :=
  match rooms rm !! roomId with
  | Some r => (rm, Normal r)
  | None =>
      ({| rooms := <[roomId := new_room]> (rooms rm) |},
       returning (template [roomId]) new_room)
  end.

(** The room [getRoom] finds under [roomId], or the one it stores. *)
Definition found_or_new (rm : t) (roomId : jsval) : room :=
  default new_room (rooms rm !! roomId).

(** [this.userColors[room.colorIndex % this.userColors.length]] *)
Definition palette_color (i : nat) : jsval :=
  match userColors !! (i mod length userColors)%nat with
  | Some c => JStr c
  | None => JUndef
  end.

(** [addUser(roomId, userId, username)]; [now] is the clock reading of
    [joinedAt].  The record is on the roster when the log call
    [`User ${username} (${userId}) added to room ${roomId}`] is reached. *)
Definition addUser (rm : t) (roomId : jsval) (userId : string)
    (username : jsval) (now : N) : t * completion user :=
  match getRoom rm roomId with
  | (rm1, Throw) => (rm1, Throw)
  | (rm1, Normal r) =>
      let u := {| u_id := userId; u_username := username;
                  u_color := palette_color (colorIndex r); joinedAt := now |} in
      ({| rooms :=
            <[roomId := {| drawingState := drawingState r;
                           users := JsMap.set userId u (users r);
                           colorIndex := S (colorIndex r) |}]> (rooms rm1) |},
       returning (template [username; JStr userId; roomId]) u)
  end.

(** [removeUser(roomId, userId)]: an empty room is deleted first and logged
    next, [`Room ${roomId} deleted (no users)`]. *)
Definition removeUser (rm : t) (roomId : jsval) (userId : string)
  : t * completion unit :=
  match rooms rm !! roomId with
  | None => (rm, Normal ())
  | Some r =>
      let us := JsMap.delete userId (users r) in
      if decide (JsMap.size us = 0%nat) then
        ({| rooms := delete roomId (rooms rm) |}, template [roomId])
      else
        ({| rooms :=
              <[roomId := {| drawingState := drawingState r; users := us;
                             colorIndex := colorIndex r |}]> (rooms rm) |},
         Normal ())
  end.

Record room_state : Type := RoomState {
  rs_operations : list op_view;
  rs_users : list user
}.

(** What [getRoomState] reports of a room. *)
Definition state_of (r : room) : room_state :=
  {| rs_operations := DrawingState.getActiveOperations (drawingState r);
     rs_users := JsMap.values (users r) |}.

(** [getRoomState(roomId)] *)
Definition getRoomState (rm : t) (roomId : jsval) : t * completion room_state :=
  match getRoom rm roomId with
  | (rm1, Throw) => (rm1, Throw)
  | (rm1, Normal r) => (rm1, Normal (state_of r))
  end.

(** The payload of a [draw-start] event. *)
Record draw_start_data : Type := DrawStartData {
  ds_x : jsval;
  ds_y : jsval;
  ds_color : jsval;
  ds_width : jsval;
  ds_tool : jsval
}.

(** [startOperation(roomId, userId, data)].  Reading [user.username] of a
    participant missing from the roster, or a field of a payload that is
    [undefined] or [null] ([None]), raises a [TypeError]. *)
Definition startOperation (rm : t) (roomId : jsval) (userId : string)
    (data : option draw_start_data) (now_id now_ts : N)
  : t * completion started :=
  match getRoom rm roomId with
  | (rm1, Throw) => (rm1, Throw)
  | (rm1, Normal r) =>
      match JsMap.get userId (users r), data with
      | Some u, Some d =>
          let '(ds', res) :=
            DrawingState.startOperation (drawingState r)
              {| sd_userId := userId; sd_username := u_username u;
                 sd_x := ds_x d; sd_y := ds_y d; sd_color := ds_color d;
                 sd_width := ds_width d; sd_tool := ds_tool d |} now_id now_ts in
          ({| rooms := <[roomId := {| drawingState := ds'; users := users r;
                                      colorIndex := colorIndex r |}]> (rooms rm1) |},
           Normal res)
      | _, _ => (rm1, Throw)
      end
  end.

End RoomManager.

(** ** The synchronization router: the socket handlers of [server.js] *)

Module Server.
Import RoomManager.

(** The variables closed over by the handlers of one connection. *)
Record conn : Type := Conn {
  socket_id : string;
  currentRoom : jsval;
  currentUser : option user
}.

(** [io.on('connection', ...)]: [currentRoom] and [currentUser] start as
    [null]. *)
Definition connect (sid : string) : conn :=
  {| socket_id := sid; currentRoom := JNull; currentUser := None |}.

Inductive target : Type :=
  | ToSender                    (* socket.emit *)
  | ToOthers (room : jsval)     (* socket.to(room).emit *)
  | ToAll (room : jsval).       (* io.to(room).emit *)

Inductive event : Type :=
  | room_state_ev (u : user) (operations : list op_view) (us : list user)
  | user_joined (u : user)
  | error_ev (message : string)
  | operation_started (operationId : string)
  | remote_draw_start (userId : string) (username color width tool : jsval)
      (operationId : string) (x y : jsval)
  | remote_cursor (userId : string) (username color x y : jsval).

Inductive action : Type :=
  | SocketLeave (room : jsval)
  | SocketJoin (room : jsval)
  | Emit (tg : target) (e : event).

(** The payload of a [join-room] event. *)
Record join_data : Type := JoinData {
  jd_username : jsval;
  jd_room : jsval
}.

(** [`User${socket.id.slice(0, 4)}`] *)
Definition default_username (sid : string) : jsval :=
  JStr ("User" +:+ String.substring 0 4 sid).

(** The first statement of the body of [join-room]:
    [if (currentRoom) { removeUser(...); socket.leave(...) }]. *)
Definition leave_previous (rm : RoomManager.t) (c : conn)
  : RoomManager.t * completion (list action) :=
  if truthy (currentRoom c) then
    match removeUser rm (currentRoom c) (socket_id c) with
    | (rm1, Normal _) => (rm1, Normal [SocketLeave (currentRoom c)])
    | (rm1, Throw) => (rm1, Throw)
    end
  else (rm, Normal []).

(** What the [catch] of [join-room] emits. *)
Definition join_failed : action :=
  Emit ToSender (error_ev "Failed to join room").

(** [socket.on('join-room', ...)].  Destructuring a payload that is
    [undefined] or [null] ([None]) throws; so can [removeUser], [addUser]
    and [getRoomState], in their log calls, and the log call that ends the
    handler, [`User ${currentUser.username} joined room ${room}`].
    [currentRoom] is assigned before [addUser] is called and [currentUser]
    once it has returned. *)
Definition on_join_room (rm : RoomManager.t) (c : conn)
    (data : option join_data) (now : N)
  : RoomManager.t * conn * list action :=
  match data with
  | None => (rm, c, [join_failed])
  | Some d =>
      let username := jd_username d in
      let room := js_default (jd_room d) (JStr "default") in
      match leave_previous rm c with
      | (rm1, Throw) => (rm1, c, [join_failed])
      | (rm1, Normal leave_acts) =>
          match addUser rm1 room (socket_id c)
                  (js_or username (default_username (socket_id c))) now with
          | (rm2, Throw) =>
              (rm2,
               {| socket_id := socket_id c; currentRoom := room;
                  currentUser := currentUser c |},
               leave_acts ++ [SocketJoin room; join_failed])
          | (rm2, Normal u) =>
              let c2 := {| socket_id := socket_id c; currentRoom := room;
                           currentUser := Some u |} in
              match getRoomState rm2 room with
              | (rm3, Throw) =>
                  (rm3, c2, leave_acts ++ [SocketJoin room; join_failed])
              | (rm3, Normal rs) =>
                  (rm3, c2,
                   leave_acts ++
                   [SocketJoin room;
                    Emit ToSender
                      (room_state_ev u (rs_operations rs) (rs_users rs));
                    Emit (ToOthers room) (user_joined u)] ++
                   match template [u_username u; room] with
                   | Normal _ => []
                   | Throw => [join_failed]
                   end)
              end
          end
      end
  end.

(** [socket.on('draw-start', ...)] *)
Definition on_draw_start (rm : RoomManager.t) (c : conn)
    (data : option draw_start_data) (now_id now_ts : N)
  : RoomManager.t * list action :=
  if negb (truthy (currentRoom c)) then (rm, [])
  else
    match startOperation rm (currentRoom c) (socket_id c) data now_id now_ts with
    | (rm1, Throw) => (rm1, [])
    | (rm1, Normal op) =>
        let started := Emit ToSender (operation_started (operationId op)) in
        match currentUser c, data with
        | Some u, Some d =>
            (rm1,
             [started;
              Emit (ToOthers (currentRoom c))
                (remote_draw_start (socket_id c) (u_username u) (ds_color d)
                   (ds_width d) (ds_tool d) (operationId op) (ds_x d) (ds_y d))])
        | _, _ => (rm1, [started])
        end
    end.

(** The payload of a [cursor-move] event. *)
Record cursor_data : Type := CursorData {
  cd_x : jsval;
  cd_y : jsval
}.

(** [socket.on('cursor-move', ...)] *)
Definition on_cursor_move (c : conn) (data : option cursor_data)
  : list action :=
  match currentUser c with
  | Some u =>
      if negb (truthy (currentRoom c)) then []
      else
        match data with
        | Some d =>
            [Emit (ToOthers (currentRoom c))
               (remote_cursor (socket_id c) (u_username u) (u_color u)
                  (cd_x d) (cd_y d))]
        | None => []
        end
  | None => []
  end.

(** The registry as [join-room] finds it once the previous room, if any, is
    left, and the call of [addUser] it then makes. *)
Definition after_leave (rm : RoomManager.t) (c : conn) : RoomManager.t :=
  (leave_previous rm c).1.

Definition joining (rm : RoomManager.t) (c : conn) (d : join_data) (now : N)
  : RoomManager.t * completion user :=
  addUser (after_leave rm c) (js_default (jd_room d) (JStr "default"))
    (socket_id c) (js_or (jd_username d) (default_username (socket_id c))) now.

(** A connection that has joined: its room variable is truthy and the
    roster of that room holds, under the connection's id, the participant
    record the connection keeps in [currentUser]. *)
Definition joined (rm : RoomManager.t) (c : conn) (u : user) : Prop :=
  truthy (currentRoom c) = true ∧
  currentUser c = Some u ∧
  ∃ r, rooms rm !! currentRoom c = Some r ∧
       JsMap.get (socket_id c) (users r) = Some u.

End Server.

(** ** Histories of calls on one ledger *)

Module Ledger.
Import DrawingState.

(** The public operations of the ledger, with their arguments. *)
Inductive command : Type :=
  | Open (d : start_data) (now_id now_ts : N)
  | Extend (oid : string) (pts : points_arg)
  | Finalize (oid : string)
  | Undo
  | Redo
  | Clear.

(** The state a call leaves behind (for a call that throws: the state at
    the throw, the server's handlers catch the error and go on). *)
Definition exec (s : t) (c : command) : t :=
  match c with
  | Open d now_id now_ts => (startOperation s d now_id now_ts).1
  | Extend oid pts => (addPoints s oid pts).1
  | Finalize oid => endOperation s oid
  | Undo => (undo s).1
  | Redo => (redo s).1
  | Clear => clear s
  end.

Definition run (cs : list command) (s : t) : t := foldl exec s cs.

Definition reachable (s : t) : Prop := ∃ cs, s = run cs new.

(** An entry of the history as the specification's render list holds it:
    its id, its author's id and name, its kind, its style, its points and
    its creation time, that is every field but the status.  It is written
    out here a second time, for the statements; [view_of] is what the code
    does. *)
Definition rendered (o : operation) : op_view :=
  {| v_id := id o;
     v_userId := userId o;
     v_username := username o;
     v_type := type o;
     v_color := color o;
     v_width := width o;
     v_points := points o;
     v_timestamp := timestamp o |}.

(** The statuses around the cursor. *)
Definition cursor_invariant (s : t) : Prop :=
  ∀ (i : nat) (o : operation), operations s !! i = Some o →
    (Z.of_nat i ≤ currentIndex s → status o = active) ∧
    (currentIndex s < Z.of_nat i → status o = undone).

(** The cursor stays between [-1] and the last index. *)
Definition cursor_in_range (s : t) : Prop :=
  -1 ≤ currentIndex s < Z.of_nat (length (operations s)).

Definition ledger_inv (s : t) : Prop :=
  cursor_in_range s ∧ cursor_invariant s.

(** *** Open/Finalize histories *)

Inductive of_event : Type :=
  | OpenEv (d : start_data) (now_id now_ts : N)
  | FinalizeEv (oid : string).

Definition to_command (e : of_event) : command :=
  match e with
  | OpenEv d now_id now_ts => Open d now_id now_ts
  | FinalizeEv oid => Finalize oid
  end.

(** The id an Open call returns to its caller; it does not depend on the
    ledger the call is made on. *)
Definition returned_id (d : start_data) (now_id now_ts : N) : string :=
  operationId (startOperation new d now_id now_ts).2.

(** Every Open returns an id that no earlier Open returned, every Finalize
    names an id that was opened and is not finalized yet, and at the end
    every opened id is finalized.  [opened] and [pend] are the ids opened,
    and opened but not finalized, so far. *)
Fixpoint well_paired (opened pend : gset string) (evs : list of_event) : Prop :=
  match evs with
  | [] => pend = ∅
  | OpenEv d now_id now_ts :: evs' =>
      (returned_id d now_id now_ts ∉ opened) ∧
      well_paired ({[returned_id d now_id now_ts]} ∪ opened)
                  ({[returned_id d now_id now_ts]} ∪ pend) evs'
  | FinalizeEv oid :: evs' =>
      (oid ∈ pend) ∧ well_paired opened (pend ∖ {[oid]}) evs'
  end.

(** The Open call of a history that returned [oid]: its arguments. *)
Fixpoint opened_as (oid : string) (evs : list of_event)
  : option (start_data * N) :=
  match evs with
  | [] => None
  | OpenEv d now_id now_ts :: evs' =>
      if decide (returned_id d now_id now_ts = oid)
      then Some (d, now_ts)
      else opened_as oid evs'
  | FinalizeEv _ :: evs' => opened_as oid evs'
  end.

(** The operation the specification expects in the render list for an
    operation opened with the arguments [d] at the clock reading [now_ts]
    and known to the caller as [oid]: that id, the author's id and name,
    the kind, the style, the origin as the only point, and the creation
    time.  It is written out field by field, not taken from the ledger. *)
Definition expected_view (oid : string) (d : start_data) (now_ts : N) : op_view :=
  {| v_id := oid;
     v_userId := sd_userId d;
     v_username := sd_username d;
     v_type := sd_tool d;
     v_color := sd_color d;
     v_width := sd_width d;
     v_points := [Point (sd_x d) (sd_y d)];
     v_timestamp := now_ts |}.

Definition finalized_view (all : list of_event) (e : of_event) : option op_view :=
  match e with
  | OpenEv _ _ _ => None
  | FinalizeEv oid =>
      match opened_as oid all with
      | Some (d, now_ts) => Some (expected_view oid d now_ts)
      | None => None
      end
  end.

(** The operations of a history as the specification expects them, in the
    order of its Finalize calls. *)
Definition finalized_in_order (evs : list of_event) : list op_view :=
  omap (finalized_view evs) evs.

(** The pending operation of an id that is opened and not finalized is
    the one Open created for it. *)
Definition pending_as_opened (s : t) (pre : list of_event) (oid : string) : Prop :=
  ∃ d a b, opened_as oid pre = Some (d, b) ∧ returned_id d a b = oid ∧
           activeOperations s !! oid = Some (fresh_operation d a b).

(** The ids of the Finalize calls of a history, in order. *)
Definition finalize_ids (evs : list of_event) : list string :=
  omap (λ e, match e with FinalizeEv oid => Some oid | OpenEv _ _ _ => None end)
       evs.

(** The ids returned by the Open calls of a history. *)
Fixpoint open_ids (cs : list command) : list string :=
  match cs with
  | [] => []
  | Open d now_id _ :: cs' => make_id (sd_userId d) now_id :: open_ids cs'
  | _ :: cs' => open_ids cs'
  end.

(** Pending and finalized operations bear different ids, all of them among
    the ids [seen] so far, and the pending map is keyed by the ids. *)
Definition ids_separate (seen : gset string) (s : t) : Prop :=
  Forall (λ k, k ∈ seen ∧ activeOperations s !! k = None) (id <$> operations s) ∧
  map_Forall (λ k o, k ∈ seen ∧ id o = k) (activeOperations s).

(** The ledger while only Open and Finalize are called: nothing is undone
    and the cursor is the last index. *)
Definition append_only (s : t) : Prop :=
  Forall (λ o, status o = active) (operations s) ∧
  currentIndex s = Z.of_nat (length (operations s)) - 1.

(** A string without the separator of the id format. *)
Fixpoint no_dash (s : string) : Prop :=
  match s with
  | EmptyString => True
  | String c s' => c ≠ "-"%char ∧ no_dash s'
  end.

End Ledger.

(** ** Sample payloads and histories *)

Module Scenario.
Import DrawingState Ledger.

(** Two [draw-start] payloads of the connection ["sock1"], named Ann. *)
Definition ann_brush : start_data :=
  {| sd_userId := "sock1"; sd_username := JStr "Ann";
     sd_x := JNum 0; sd_y := JNum 0;
     sd_color := JStr "#000000"; sd_width := JNum 2; sd_tool := JStr "brush" |}.

Definition ann_line : start_data :=
  {| sd_userId := "sock1"; sd_username := JStr "Ann";
     sd_x := JNum 7; sd_y := JNum 9;
     sd_color := JStr "#ff0000"; sd_width := JNum 4; sd_tool := JStr "line" |}.

(** One from the connection ["sock2"], named Bob. *)
Definition bob_rect : start_data :=
  {| sd_userId := "sock2"; sd_username := JStr "Bob";
     sd_x := JNum 3; sd_y := JNum 4;
     sd_color := JStr "#00ff00"; sd_width := JNum 1; sd_tool := JStr "rectangle" |}.

(** Two strokes drawn one after the other. *)
Definition two_strokes : t :=
  run [Open ann_brush 100 100; Finalize "op-sock1-100";
       Open bob_rect 105 105; Finalize "op-sock2-105"] new.

(** Ann and Bob draw at the same time; Bob finishes first. *)
Definition interleaved : list of_event :=
  [OpenEv ann_brush 100 100; OpenEv bob_rect 101 101;
   FinalizeEv "op-sock2-101"; FinalizeEv "op-sock1-100";
   OpenEv ann_line 102 103; FinalizeEv "op-sock1-102"].

(** Ann finishes one stroke and opens the next within the same
    millisecond (or after the wall clock stepped back to it). *)
Definition same_tick : t :=
  run [Open ann_brush 100 100; Finalize "op-sock1-100";
       Open ann_line 100 100] new.

(** The ledger of [two_strokes] once Bob's rectangle is undone, and the
    entry Undo returned. *)
Definition bob_undone : operation :=
  set_status undone (fresh_operation bob_rect 105 105).

Definition one_undone : t := (undo two_strokes).1.

(** A join intent with an empty room name and a name of 25 characters. *)
Definition blank_room_long_name : Server.join_data :=
  {| Server.jd_username := JStr "aaaaaaaaaaaaaaaaaaaaaaaaa";
     Server.jd_room := JStr "" |}.

(** A join intent that carries neither a name nor a room. *)
Definition empty_join : Server.join_data :=
  {| Server.jd_username := JUndef; Server.jd_room := JUndef |}.

(** Ann joins the room ["studio"] on the connection ["sock1"] of a server
    without rooms. *)
Definition ann_joins : RoomManager.t * Server.conn * list Server.action :=
  Server.on_join_room RoomManager.new (Server.connect "sock1")
    (Some {| Server.jd_username := JStr "Ann";
             Server.jd_room := JStr "studio" |}) 50.

Definition ann_user : RoomManager.user :=
  {| RoomManager.u_id := "sock1"; RoomManager.u_username := JStr "Ann";
     RoomManager.u_color := JStr "#3b82f6"; RoomManager.joinedAt := 50 |}.

(** A black brush stroke starting at (10, 20) and a cursor position. *)
Definition black_brush : RoomManager.draw_start_data :=
  {| RoomManager.ds_x := JNum 10; RoomManager.ds_y := JNum 20;
     RoomManager.ds_color := JStr "#000000";
     RoomManager.ds_width := JNum 3; RoomManager.ds_tool := JStr "brush" |}.


(** Three objects with a property [toString] of their own, such as
    [{"toString": null}], sent as a name, as a room and as an operation
    id: none of them converts to a string. *)
Definition odd_name : jsval := JObj 1 false.
Definition odd_room : jsval := JObj 2 false.
Definition odd_id : jsval := JObj 3 false.

End Scenario.

(** ** The rest of [RoomManager]: the calls forwarded to a room's ledger *)

Module RoomOps.
Import RoomManager.

(** The room object is shared with the registry: a call that changes its
    ledger is seen through [this.rooms]. *)
Definition with_ledger (rm : t) (roomId : jsval) (r : room)
    (ds : DrawingState.t) : t :=
  {| rooms := <[roomId := {| drawingState := ds; users := users r;
                             colorIndex := colorIndex r |}]> (rooms rm) |}.

(** [addPoints(roomId, operationId, points)].  The operation id comes
    straight from a payload; every id the ledger stores is a string, so
    for any other value neither [Map.get] nor [find] with [===] finds an
    entry: the ledger goes to its log call
    [`Operation ${operationId} not found in active operations`] and
    returns without touching [points]. *)
Definition addPoints (rm : t) (roomId : jsval) (operationId : jsval)
    (pts : points_arg) : t * completion unit :=
  match rooms rm !! roomId with
  | None => (rm, Normal ())
  | Some r =>
      match operationId with
      | JStr oid =>
          let '(ds, c) := DrawingState.addPoints (drawingState r) oid pts in
          (with_ledger rm roomId r ds, c)
      | _ => (rm, template [operationId])
      end
  end.

(** [endOperation(roomId, operationId)]; for an id that is no string the
    ledger goes to its log call [`Operation ${operationId} not found`]. *)
Definition endOperation (rm : t) (roomId : jsval) (operationId : jsval)
  : t * completion unit :=
  match rooms rm !! roomId with
  | None => (rm, Normal ())
  | Some r =>
      match operationId with
      | JStr oid =>
          (with_ledger rm roomId r
             (DrawingState.endOperation (drawingState r) oid), Normal ())
      | _ => (rm, template [operationId])
      end
  end.

(** [undo(roomId)] *)
Definition undo (rm : t) (roomId : jsval)
  : t * completion (option operation) :=
  match rooms rm !! roomId with
  | None => (rm, Normal None)
  | Some r =>
      let '(ds, c) := DrawingState.undo (drawingState r) in
      (with_ledger rm roomId r ds, c)
  end.

(** [redo(roomId)] *)
Definition redo (rm : t) (roomId : jsval)
  : t * completion (option operation) :=
  match rooms rm !! roomId with
  | None => (rm, Normal None)
  | Some r =>
      let '(ds, c) := DrawingState.redo (drawingState r) in
      (with_ledger rm roomId r ds, c)
  end.

(** [clearCanvas(roomId)] *)
Definition clearCanvas (rm : t) (roomId : jsval) : t :=
  match rooms rm !! roomId with
  | None => rm
  | Some r => with_ledger rm roomId r (DrawingState.clear (drawingState r))
  end.

(** [getRoomCount()] *)
Definition getRoomCount (rm : t) : nat := size (rooms rm).

(** [getUserCount(roomId)] *)
Definition getUserCount (rm : t) (roomId : jsval) : nat :=
  match rooms rm !! roomId with
  | Some r => JsMap.size (users r)
  | None => 0%nat
  end.

(** [addUser] called for each of a list of joiners, in order; what the
    calls returned, in the same order. *)
Fixpoint addUsers (rm : t) (roomId : jsval)
    (joiners : list (string * jsval * N)) : t * list (completion user) :=
  match joiners with
  | [] => (rm, [])
  | (uid, name, now) :: rest =>
      let '(rm1, u) := addUser rm roomId uid name now in
      let '(rm2, us) := addUsers rm1 roomId rest in
      (rm2, u :: us)
  end.

End RoomOps.

(** ** The rest of the router: the other socket handlers of [server.js] *)

Module Router.
Import RoomManager Server.

(** The payloads of [draw-move] and [draw-end]. *)
Record draw_move_data : Type := DrawMoveData {
  dm_operationId : jsval;
  dm_points : points_arg
}.

Record draw_end_data : Type := DrawEndData {
  de_operationId : jsval
}.

(** The events these handlers emit. *)
Inductive message : Type :=
  | remote_draw_move (userId : string) (operationId : jsval)
      (points : points_arg)
  | remote_draw_end (userId : string) (operationId : jsval)
  | operations_updated (operations : list op_view)
  | canvas_cleared (userId : string)
  | user_left (userId : string) (username : jsval).

(** What a handler does on the transport: an action of the handlers above
    or the emission of one of these events. *)
Inductive output : Type :=
  | Act (a : action)
  | Send (tg : target) (m : message).

(** [socket.on('draw-move', ...)] *)
Definition on_draw_move (rm : RoomManager.t) (c : conn)
    (data : option draw_move_data) : RoomManager.t * list output :=
  if negb (truthy (currentRoom c)) then (rm, [])
  else
    match data with
    | None => (rm, [])
    | Some d =>
        match RoomOps.addPoints rm (currentRoom c) (dm_operationId d)
                (dm_points d) with
        | (rm1, Throw) => (rm1, [])
        | (rm1, Normal _) =>
            (rm1, [Send (ToOthers (currentRoom c))
                     (remote_draw_move (socket_id c) (dm_operationId d)
                        (dm_points d))])
        end
    end.

(** [socket.on('draw-end', ...)] *)
Definition on_draw_end (rm : RoomManager.t) (c : conn)
    (data : option draw_end_data) : RoomManager.t * list output :=
  if negb (truthy (currentRoom c)) then (rm, [])
  else
    match data with
    | None => (rm, [])
    | Some d =>
        match RoomOps.endOperation rm (currentRoom c) (de_operationId d) with
        | (rm1, Throw) => (rm1, [])
        | (rm1, Normal _) =>
            let relay := Send (ToOthers (currentRoom c))
                           (remote_draw_end (socket_id c) (de_operationId d)) in
            match getRoomState rm1 (currentRoom c) with
            | (rm2, Throw) => (rm2, [relay])
            | (rm2, Normal rs) =>
                (rm2,
                 [relay;
                  Send (ToAll (currentRoom c))
                    (operations_updated (rs_operations rs))])
            end
        end
    end.

(** The common shape of the [undo] and [redo] handlers: a full resync
    when the ledger returned an operation. *)
Definition resync_if_changed (c : conn)
    (res : RoomManager.t * completion (option operation))
  : RoomManager.t * list output :=
  match res with
  | (rm1, Normal (Some _)) =>
      match getRoomState rm1 (currentRoom c) with
      | (rm2, Throw) => (rm2, [])
      | (rm2, Normal rs) =>
          (rm2, [Send (ToAll (currentRoom c))
                   (operations_updated (rs_operations rs))])
      end
  | (rm1, _) => (rm1, [])
  end.

(** [socket.on('undo', ...)] *)
Definition on_undo (rm : RoomManager.t) (c : conn)
  : RoomManager.t * list output :=
  if negb (truthy (currentRoom c)) then (rm, [])
  else resync_if_changed c (RoomOps.undo rm (currentRoom c)).

(** [socket.on('redo', ...)] *)
Definition on_redo (rm : RoomManager.t) (c : conn)
  : RoomManager.t * list output :=
  if negb (truthy (currentRoom c)) then (rm, [])
  else resync_if_changed c (RoomOps.redo rm (currentRoom c)).

(** [socket.on('clear-canvas', ...)] *)
Definition on_clear_canvas (rm : RoomManager.t) (c : conn)
  : RoomManager.t * list output :=
  if negb (truthy (currentRoom c)) then (rm, [])
  else
    (RoomOps.clearCanvas rm (currentRoom c),
     [Send (ToAll (currentRoom c)) (canvas_cleared (socket_id c));
      Send (ToAll (currentRoom c)) (operations_updated [])]).

(** [socket.on('disconnect', ...)].  The log call that ends the handler,
    [`User ${currentUser.username} left room ${currentRoom}`], comes after
    the emission: whether its template throws changes nothing, the [catch]
    only logs. *)
Definition on_disconnect (rm : RoomManager.t) (c : conn)
  : RoomManager.t * list output :=
  match currentUser c with
  | Some u =>
      if truthy (currentRoom c) then
        match removeUser rm (currentRoom c) (socket_id c) with
        | (rm1, Throw) => (rm1, [])
        | (rm1, Normal _) =>
            (rm1, [Send (ToOthers (currentRoom c))
                     (user_left (socket_id c) (u_username u))])
        end
      else (rm, [])
  | None => (rm, [])
  end.

(** *** The server as a whole: the registry and the live connections *)

Record world : Type := World {
  registry : RoomManager.t;
  conns : gmap string conn
}.

(** A server that has just started. *)
Definition boot : world := {| registry := RoomManager.new; conns := ∅ |}.

(** What reaches the server: a new connection, or an event on the socket
    [sid].  The transport gives every live connection an id of its own, so
    a [Connected] for an id that is live is not delivered, and an event for
    an id that is not live has no handler to run. *)
Inductive input : Type :=
  | Connected (sid : string)
  | JoinRoom (sid : string) (data : option join_data) (now : N)
  | DrawStart (sid : string) (data : option draw_start_data) (now_id now_ts : N)
  | DrawMove (sid : string) (data : option draw_move_data)
  | DrawEnd (sid : string) (data : option draw_end_data)
  | UndoReq (sid : string)
  | RedoReq (sid : string)
  | CursorMove (sid : string) (data : option cursor_data)
  | ClearCanvas (sid : string)
  | Disconnected (sid : string).

Definition sender (i : input) : string :=
  match i with
  | Connected sid | JoinRoom sid _ _ | DrawStart sid _ _ _ | DrawMove sid _
  | DrawEnd sid _ | UndoReq sid | RedoReq sid | CursorMove sid _
  | ClearCanvas sid | Disconnected sid => sid
  end.

(** The handler of [i] run on the connection [c]: the registry and the
    connection it leaves (none once disconnected) and what it emits. *)
Definition handle (rm : RoomManager.t) (c : conn) (i : input)
  : RoomManager.t * option conn * list output :=
  match i with
  | Connected _ => (rm, Some c, [])
  | JoinRoom _ data now =>
      let '(rm1, c1, acts) := on_join_room rm c data now in
      (rm1, Some c1, Act <$> acts)
  | DrawStart _ data now_id now_ts =>
      let '(rm1, acts) := on_draw_start rm c data now_id now_ts in
      (rm1, Some c, Act <$> acts)
  | DrawMove _ data =>
      let '(rm1, out) := on_draw_move rm c data in (rm1, Some c, out)
  | DrawEnd _ data =>
      let '(rm1, out) := on_draw_end rm c data in (rm1, Some c, out)
  | UndoReq _ => let '(rm1, out) := on_undo rm c in (rm1, Some c, out)
  | RedoReq _ => let '(rm1, out) := on_redo rm c in (rm1, Some c, out)
  | CursorMove _ data => (rm, Some c, Act <$> on_cursor_move c data)
  | ClearCanvas _ =>
      let '(rm1, out) := on_clear_canvas rm c in (rm1, Some c, out)
  | Disconnected _ =>
      let '(rm1, out) := on_disconnect rm c in (rm1, None, out)
  end.

Definition step (w : world) (i : input) : world * list output :=
  match conns w !! sender i, i with
  | None, Connected sid =>
      ({| registry := registry w;
          conns := <[sid := connect sid]> (conns w) |}, [])
  | None, _ => (w, [])
  | Some c, Connected _ => (w, [])
  | Some c, _ =>
      let '(rm1, oc, out) := handle (registry w) c i in
      ({| registry := rm1;
          conns := match oc with
                   | Some c1 => <[sender i := c1]> (conns w)
                   | None => delete (sender i) (conns w)
                   end |}, out)
  end.

Definition serve (ins : list input) (w : world) : world :=
  foldl (λ w i, (step w i).1) w ins.

Definition reachable (w : world) : Prop := ∃ ins, w = serve ins boot.

(** An input whose join intent, if it is one, carries a name and a room
    that convert to strings. *)
Definition join_prints (i : input) : Prop :=
  match i with
  | JoinRoom _ (Some jd) _ =>
      printable (jd_username jd) = true ∧ printable (jd_room jd) = true
  | _ => True
  end.

(** The states the server reaches when every join intent is such. *)
Definition reachable_legibly (w : world) : Prop :=
  ∃ ins, Forall join_prints ins ∧ w = serve ins boot.

(** *** Predicates on the server state *)

(** Every resync a handler emits goes to everyone in the sender's room and
    carries what [getRoomState] reports for that room in the registry the
    handler leaves: the active operations of the room's ledger (of an
    empty ledger when the room is missing). *)
Definition resync_agrees (c : conn) (res : RoomManager.t * list output) : Prop :=
  ∀ tg ops, Send tg (operations_updated ops) ∈ res.2 →
    tg = ToAll (currentRoom c) ∧
    ops = rs_operations (state_of (found_or_new res.1 (currentRoom c))).

(** Every room has a participant, no participant id twice on its roster,
    and a ledger that satisfies the cursor invariant. *)
Definition rooms_wf (rm : RoomManager.t) : Prop :=
  ∀ room r, rooms rm !! room = Some r →
    users r ≠ [] ∧ NoDup (users r).*1 ∧ Ledger.ledger_inv (drawingState r).

(** What holds of a room whatever the server is sent: no participant id
    twice on its roster, and a ledger that satisfies the cursor
    invariant. *)
Definition registry_ok (rm : RoomManager.t) : Prop :=
  ∀ room r, rooms rm !! room = Some r →
    NoDup (users r).*1 ∧ Ledger.ledger_inv (drawingState r).

(** The connections and the rosters agree: a connection is filed under its
    socket id; a connection whose room variable is truthy has joined; and
    whoever is on the roster of a room with a truthy name is a live
    connection whose room variable is that room. *)
Definition attached (w : world) : Prop :=
  (∀ sid c, conns w !! sid = Some c → socket_id c = sid) ∧
  (∀ sid c, conns w !! sid = Some c → truthy (currentRoom c) = true →
     ∃ u, joined (registry w) c u) ∧
  (∀ room r sid u, rooms (registry w) !! room = Some r →
     truthy room = true → JsMap.get sid (users r) = Some u →
     ∃ c, conns w !! sid = Some c ∧ currentRoom c = room).

(** No connection keeps a room variable whose conversion to a string
    throws. *)
Definition legible (w : world) : Prop :=
  ∀ sid c, conns w !! sid = Some c → printable (currentRoom c) = true.

Definition world_inv (w : world) : Prop :=
  rooms_wf (registry w) ∧ attached w ∧ legible w.

(** The participants other than [sid] are on the same rosters, with the
    same records, in both registries. *)
Definition others_kept (sid : string) (rm rm' : RoomManager.t) : Prop :=
  ∀ sid' room u, sid' ≠ sid →
    (∃ r, rooms rm !! room = Some r ∧ JsMap.get sid' (users r) = Some u) ↔
    (∃ r', rooms rm' !! room = Some r' ∧ JsMap.get sid' (users r') = Some u).

End Router.

(** ** The client side of the join and presence intents

    [frontend/js/ui.js] ([setupWelcomeModal], the [handleJoin] closure) and
    the socket manager ([sendCursorMove]).  A string of the browser is the
    list of its UTF-16 code units: [trim], [substring] and a regular
    expression without the [u] flag all work on code units. *)

Module Client.

(** The code units [String.prototype.trim] strips: ECMAScript's WhiteSpace
    (tab, VT, FF, the BOM and the space separators) and LineTerminator. *)
Definition is_whitespace (u : N) : bool :=
  match u with
  | 9 | 10 | 11 | 12 | 13 | 32 | 160 | 5760
  | 8232 | 8233 | 8239 | 8287 | 12288 | 65279 => true
  | _ => (8192 <=? u) && (u <=? 8202)
  end%N.

Fixpoint trim_start (s : list N) : list N :=
  match s with
  | [] => []
  | u :: s' => if is_whitespace u then trim_start s' else s
  end.

(** [s.trim()] *)
Definition trim (s : list N) : list N :=
  rev (trim_start (rev (trim_start s))).

(** The code units the class [[^a-zA-Z0-9-_]] does not match. *)
Definition room_char (u : N) : bool :=
  ((97 <=? u) && (u <=? 122) || (65 <=? u) && (u <=? 90)
   || (48 <=? u) && (u <=? 57) || (u =? 45) || (u =? 95))%N.

(** [s.replace(/[^a-zA-Z0-9-_]/g, '')] *)
Definition strip_room (s : list N) : list N :=
  filter (λ u, room_char u = true) s.

(** ['default'] *)
Definition default_room : list N := [100; 101; 102; 97; 117; 108; 116]%N.

(** [handleJoin]: what it passes to [onJoin], or nothing when it alerts
    that the name is missing.  The arguments are the values of the two
    input fields. *)
Definition handleJoin (usernameInput roomInput : list N)
  : option (list N * list N) :=
  let username := trim usernameInput in
  let room := if decide (trim roomInput = []) then default_room
              else trim roomInput in
  if decide (username = []) then None
  else Some (take 20 username, strip_room (take 30 room)).

(** The fields of the socket manager that [sendCursorMove] reads and
    writes. *)
Record cursor_state : Type := CursorState {
  isConnected : bool;
  lastCursorSend : Z
}.

(** [this.cursorThrottle] *)
Definition cursorThrottle : Z := 33.

(** The constructor's values. *)
Definition cursor_start : cursor_state :=
  {| isConnected := false; lastCursorSend := 0 |}.

(** [sendCursorMove(x, y)], [now] being its reading of the clock: the
    new state and the payload emitted, if any. *)
Definition sendCursorMove (st : cursor_state) (x y : jsval) (now : Z)
  : cursor_state * option Server.cursor_data :=
  if negb (isConnected st) then (st, None)
  else if now - lastCursorSend st >=? cursorThrottle then
    ({| isConnected := isConnected st; lastCursorSend := now |},
     Some {| Server.cd_x := x; Server.cd_y := y |})
  else (st, None).

(** What happens to the manager between two repaints: the pointer moves,
    or the connection comes up or goes down ([isConnected] is set by the
    [connect] and [disconnect] handlers). *)
Inductive cursor_input : Type :=
  | PointerAt (x y : jsval) (now : Z)
  | Online (up : bool).

(** The clock readings at which a cursor event was emitted, in order. *)
Fixpoint sent_at (st : cursor_state) (ins : list cursor_input) : list Z :=
  match ins with
  | [] => []
  | PointerAt x y now :: ins' =>
      match sendCursorMove st x y now with
      | (st', Some _) => now :: sent_at st' ins'
      | (st', None) => sent_at st' ins'
      end
  | Online up :: ins' =>
      sent_at {| isConnected := up; lastCursorSend := lastCursorSend st |} ins'
  end.

(** Readings that are each at least 33 ms after the one before, starting
    after [last]. *)
Fixpoint spaced (last : Z) (ts : list Z) : Prop :=
  match ts with
  | [] => True
  | t :: ts' => last + 33 ≤ t ∧ spaced t ts'
  end.

End Client.

(** ** A sample session *)

Module Play.
Import Router.

(** Ann connects, joins the room ["studio"], draws one stroke and ends
    it. *)
Definition ann_session : list input :=
  [Connected "sock1";
   JoinRoom "sock1" (Some {| Server.jd_username := JStr "Ann";
                             Server.jd_room := JStr "studio" |}) 50;
   DrawStart "sock1" (Some Scenario.black_brush) 70 70;
   DrawEnd "sock1" (Some {| de_operationId := JStr "op-sock1-70" |})].

Definition studio : world := serve ann_session boot.

Definition ann_conn : Server.conn :=
  {| Server.socket_id := "sock1"; Server.currentRoom := JStr "studio";
     Server.currentUser := Some Scenario.ann_user |}.

(** The studio after a visitor whose name is an object that does not
    convert to a string has come and gone, and the visitor's join
    intent. *)
Definition odd_visit : Server.join_data :=
  {| Server.jd_username := Scenario.odd_name; Server.jd_room := JStr "studio" |}.

Definition haunted : world :=
  serve [Connected "sock9"; JoinRoom "sock9" (Some odd_visit) 95;
         Disconnected "sock9"] studio.

(** Nine participants for one room. *)
Definition nine_joiners : list (string * jsval * N) :=
  [("s0", JStr "a", 0%N); ("s1", JStr "b", 1%N); ("s2", JStr "c", 2%N);
   ("s3", JStr "d", 3%N); ("s4", JStr "e", 4%N); ("s5", JStr "f", 5%N);
   ("s6", JStr "g", 6%N); ("s7", JStr "h", 7%N); ("s8", JStr "i", 8%N)].

End Play.

(** * Properties of the ledger *)

Module LedgerFacts.
Import DrawingState Ledger.

Lemma status_set_status st o : status (set_status st o) = st.
Proof. reflexivity. Qed.

Lemma status_push_points ps o : status (push_points ps o) = status o.
Proof. reflexivity. Qed.

Lemma id_set_status st o : id (set_status st o) = id o.
Proof. reflexivity. Qed.

Lemma set_status_same o : set_status (status o) o = o.
Proof. by destruct o. Qed.

Lemma set_status_twice a b o : set_status a (set_status b o) = set_status a o.
Proof. reflexivity. Qed.

Lemma js_slice0_nonneg {A} (l : list A) (e : Z) :
  0 ≤ e → js_slice0 l e = take (Z.to_nat e) l.
Proof. intros He. unfold js_slice0. by rewrite (proj2 (Z.ltb_ge e 0) He). Qed.

Lemma js_index_nat {A} (l : list A) (i : nat) :
  js_index l (Z.of_nat i) = l !! i.
Proof.
  unfold js_index. rewrite (proj2 (Z.ltb_ge (Z.of_nat i) 0)) by lia.
  by rewrite Nat2Z.id.
Qed.

(** *** What each call does in a state that satisfies the invariant *)

Lemma undo_nothing s :
  currentIndex s < 0 → undo s = (s, Normal None).
Proof. intros Hc. unfold undo. by rewrite (proj2 (Z.ltb_lt _ _) Hc). Qed.

Lemma undo_at_cursor s :
  ledger_inv s → 0 ≤ currentIndex s →
  ∃ o, operations s !! Z.to_nat (currentIndex s) = Some o ∧
       status o = active ∧
       undo s =
         (Make (<[Z.to_nat (currentIndex s) := set_status undone o]> (operations s))
               (currentIndex s - 1) (activeOperations s),
          Normal (Some (set_status undone o))).
Proof.
  intros [[Hlo Hhi] Hst] Hc.
  destruct (lookup_lt_is_Some_2 (operations s) (Z.to_nat (currentIndex s)))
    as [o Ho]; [lia|].
  exists o. split; [done|].
  assert (Hact : status o = active) by (apply (Hst _ _ Ho); lia).
  split; [done|].
  unfold undo. rewrite (proj2 (Z.ltb_ge _ _) Hc).
  replace (Z.to_nat (currentIndex s + 1)) with (S (Z.to_nat (currentIndex s)))
    by lia.
  simpl. rewrite Ho. rewrite decide_True by done.
  do 3 f_equal. lia.
Qed.

Lemma redo_nothing s :
  Z.of_nat (length (operations s)) - 1 ≤ currentIndex s →
  redo s = (s, Normal None).
Proof.
  intros Hc. unfold redo.
  by rewrite (proj2 (Z.geb_le _ _) Hc).
Qed.

Lemma redo_after_cursor s :
  ledger_inv s → currentIndex s < Z.of_nat (length (operations s)) - 1 →
  ∃ o, operations s !! Z.to_nat (currentIndex s + 1) = Some o ∧
       status o = undone ∧
       redo s =
         (Make (<[Z.to_nat (currentIndex s + 1) := set_status active o]> (operations s))
               (currentIndex s + 1) (activeOperations s),
          Normal (Some (set_status active o))).
Proof.
  intros [[Hlo Hhi] Hst] Hc.
  destruct (lookup_lt_is_Some_2 (operations s) (Z.to_nat (currentIndex s + 1)))
    as [o Ho]; [lia|].
  exists o. split; [done|].
  assert (Hund : status o = undone) by (apply (Hst _ _ Ho); lia).
  split; [done|].
  unfold redo.
  destruct (currentIndex s >=? Z.of_nat (length (operations s)) - 1) eqn:Hge.
  { apply Z.geb_le in Hge. lia. }
  set (k := Z.to_nat (Z.of_nat (length (operations s)) - (currentIndex s + 1))).
  assert (Hk : ∃ k', k = S k') by (exists (pred k); lia).
  destruct Hk as [k' Hk]. rewrite Hk. simpl redo_loop.
  replace (Z.of_nat (length (operations s)) - Z.of_nat (S k'))
    with (Z.of_nat (Z.to_nat (currentIndex s + 1))) by lia.
  rewrite js_index_nat, Ho, decide_True by done.
  rewrite Nat2Z.id. do 3 f_equal. lia.
Qed.

Lemma endOperation_pending s oid o :
  activeOperations s !! oid = Some o → -1 ≤ currentIndex s →
  endOperation s oid =
    Make (take (Z.to_nat (currentIndex s + 1)) (operations s) ++ [set_status active o])
         (currentIndex s + 1) (delete oid (activeOperations s)).
Proof.
  intros Ho Hc. unfold endOperation. rewrite Ho.
  by rewrite js_slice0_nonneg by lia.
Qed.

Lemma endOperation_not_pending s oid :
  activeOperations s !! oid = None → endOperation s oid = s.
Proof.
  intros Ho. unfold endOperation. rewrite Ho. by destruct (find_op _ _).
Qed.

(** *** Preservation of the invariant *)

Lemma inv_new : ledger_inv new.
Proof.
  split; [unfold cursor_in_range; simpl; lia|].
  intros i o Hi. simpl in Hi. by rewrite lookup_nil in Hi.
Qed.

Lemma inv_startOperation s d a b :
  ledger_inv s → ledger_inv (startOperation s d a b).1.
Proof. by intros [? ?]. Qed.

(** Rewriting one entry without touching its status. *)
Lemma inv_same_status s i o o' :
  ledger_inv s → operations s !! i = Some o → status o' = status o →
  ledger_inv (Make (<[i := o']> (operations s)) (currentIndex s)
                   (activeOperations s)).
Proof.
  intros [Hr Hst] Hi Heq. split.
  - unfold cursor_in_range in *. simpl. by rewrite length_insert.
  - intros j oj Hj. simpl in *.
    destruct (decide (i = j)) as [->|Hne].
    + rewrite list_lookup_insert_eq in Hj by (by eapply lookup_lt_Some).
      injection Hj as <-. rewrite Heq. by apply Hst.
    + rewrite list_lookup_insert_ne in Hj by done. by apply Hst.
Qed.

Lemma inv_addPoints s oid pts :
  ledger_inv s → ledger_inv (addPoints s oid pts).1.
Proof.
  intros Hinv. unfold addPoints.
  destruct (activeOperations s !! oid) as [o|].
  { destruct (spread pts); [|done]. by destruct Hinv. }
  destruct (find_op oid (operations s)) as [[i o]|] eqn:Hf; [|done].
  destruct (decide (status o = active)); [|done].
  destruct (spread pts) as [ps|]; [|done]. simpl.
  apply list_find_Some in Hf as (Hi & _ & _).
  by apply inv_same_status with o.
Qed.

Lemma inv_endOperation s oid :
  ledger_inv s → ledger_inv (endOperation s oid).
Proof.
  intros Hinv.
  destruct (activeOperations s !! oid) as [o|] eqn:Ho;
    [|by rewrite endOperation_not_pending].
  destruct Hinv as [[Hlo Hhi] Hst].
  rewrite (endOperation_pending _ _ _ Ho) by done.
  assert (Hlen : length (take (Z.to_nat (currentIndex s + 1)) (operations s))
                 = Z.to_nat (currentIndex s + 1))
    by (rewrite length_take; lia).
  split.
  - unfold cursor_in_range. simpl. rewrite length_app, Hlen. simpl. lia.
  - intros i oi Hi. simpl in *.
    destruct (decide (i < Z.to_nat (currentIndex s + 1))%nat) as [Hlt|Hge].
    + rewrite lookup_app_l, lookup_take_lt in Hi by lia.
      split; [intros _|lia]. apply (Hst _ _ Hi). lia.
    + rewrite lookup_app_r in Hi by lia. rewrite Hlen in Hi.
      apply list_lookup_singleton_Some in Hi as [Hi0 <-].
      split; [done|lia].
Qed.

Lemma inv_undo s : ledger_inv s → ledger_inv (undo s).1.
Proof.
  intros Hinv.
  destruct (decide (currentIndex s < 0)) as [Hneg|Hpos].
  { by rewrite undo_nothing. }
  destruct (undo_at_cursor s Hinv) as (o & Ho & Hact & ->); [lia|].
  destruct Hinv as [[Hlo Hhi] Hst]. split.
  - unfold cursor_in_range. simpl. rewrite length_insert. lia.
  - intros i oi Hi. simpl in *.
    destruct (decide (Z.to_nat (currentIndex s) = i)) as [<-|Hne].
    + rewrite list_lookup_insert_eq in Hi by lia.
      injection Hi as <-. split; [lia|done].
    + rewrite list_lookup_insert_ne in Hi by done.
      destruct (Hst _ _ Hi) as [H1 H2]. split; intros ?; [apply H1|apply H2]; lia.
Qed.

Lemma inv_redo s : ledger_inv s → ledger_inv (redo s).1.
Proof.
  intros Hinv.
  destruct (decide (Z.of_nat (length (operations s)) - 1 ≤ currentIndex s))
    as [Hend|Hmore].
  { by rewrite redo_nothing. }
  destruct (redo_after_cursor s Hinv) as (o & Ho & Hund & ->); [lia|].
  destruct Hinv as [[Hlo Hhi] Hst]. split.
  - unfold cursor_in_range. simpl. rewrite length_insert. lia.
  - intros i oi Hi. simpl in *.
    destruct (decide (Z.to_nat (currentIndex s + 1) = i)) as [<-|Hne].
    + rewrite list_lookup_insert_eq in Hi by lia.
      injection Hi as <-. split; [done|lia].
    + rewrite list_lookup_insert_ne in Hi by done.
      destruct (Hst _ _ Hi) as [H1 H2]. split; intros ?; [apply H1|apply H2]; lia.
Qed.

Lemma inv_exec s c : ledger_inv s → ledger_inv (exec s c).
Proof.
  intros Hinv. destruct c; simpl.
  - by apply inv_startOperation.
  - by apply inv_addPoints.
  - by apply inv_endOperation.
  - by apply inv_undo.
  - by apply inv_redo.
  - apply inv_new.
Qed.

Lemma inv_run cs s : ledger_inv s → ledger_inv (run cs s).
Proof.
  revert s. induction cs as [|c cs IH]; intros s Hinv; [done|].
  simpl. apply IH. by apply inv_exec.
Qed.

Lemma inv_reachable s : reachable s → ledger_inv s.
Proof. intros [cs ->]. apply inv_run, inv_new. Qed.

(** C1: in every state reached from the empty ledger by any sequence of
    Open, Extend, Finalize, Undo, Redo and Clear calls, every entry of the
    history at an index up to the cursor is active and every entry beyond
    the cursor is undone; the cursor lies between -1 and the last index,
    and at -1 no entry is active (the history is empty or all undone). *)
Theorem cursor_status_invariant (cs : list command) :
  let s := run cs new in
  cursor_invariant s ∧
  cursor_in_range s ∧
  (currentIndex s = -1 → ∀ o, o ∈ operations s → status o = undone).
Proof.
  intros s. destruct (inv_run cs new inv_new) as [Hr Hst].
  fold s in Hr, Hst. split; [done|]. split; [done|].
  intros Hc o Ho. apply list_elem_of_lookup in Ho as [i Hi].
  apply (Hst _ _ Hi). lia.
Qed.

(** *** Undo followed by Redo *)

(** C5: in every reachable state in which Undo returns an operation, a Redo
    that follows at once returns that operation with the same id and
    content and with status active again, and it restores the cursor to its
    value before the Undo; the whole ledger is as it was before the Undo,
    with the returned operation at the cursor. *)
Theorem undo_redo_round_trip (s s1 : t) (o : operation) :
  reachable s →
  undo s = (s1, Normal (Some o)) →
  status o = undone ∧
  redo s1 = (s, Normal (Some (set_status active o))) ∧
  currentIndex (redo s1).1 = currentIndex s ∧
  js_index (operations s) (currentIndex s) = Some (set_status active o).
Proof.
  intros Hinv%inv_reachable Hu.
  destruct (decide (currentIndex s < 0)) as [Hneg|Hpos].
  { by rewrite undo_nothing in Hu. }
  destruct (undo_at_cursor s Hinv) as (o0 & Ho0 & Hact & Hu'); [lia|].
  rewrite Hu' in Hu. injection Hu as <- <-.
  assert (Hlt : (Z.to_nat (currentIndex s) < length (operations s))%nat)
    by (by eapply lookup_lt_Some).
  assert (Hback : set_status active (set_status undone o0) = o0)
    by (by rewrite set_status_twice, <- Hact, set_status_same).
  assert (Hredo :
    redo (Make (<[Z.to_nat (currentIndex s) := set_status undone o0]> (operations s))
               (currentIndex s - 1) (activeOperations s))
    = (s, Normal (Some (set_status active (set_status undone o0))))).
  { pose proof (inv_undo s Hinv) as Hinv1. rewrite Hu' in Hinv1. simpl in Hinv1.
    destruct (redo_after_cursor _ Hinv1) as (o1 & Ho1 & Hund & ->).
    { simpl. rewrite length_insert. lia. }
    simpl in *.
    replace (Z.to_nat (currentIndex s - 1 + 1)) with (Z.to_nat (currentIndex s))
      in * by lia.
    rewrite list_lookup_insert_eq in Ho1 by done. injection Ho1 as <-.
    rewrite list_insert_insert_eq, Hback, list_insert_id by done.
    replace (currentIndex s - 1 + 1) with (currentIndex s) by lia.
    by destruct s. }
  split; [done|]. split; [done|]. rewrite Hredo. split; [done|].
  rewrite Hback. rewrite <- (Z2Nat.id (currentIndex s)) at 1 by lia.
  by rewrite js_index_nat.
Qed.

(** *** Finalize after Undo *)

Lemma redo_all_active s :
  currentIndex s = Z.of_nat (length (operations s)) - 1 →
  redo s = (s, Normal None).
Proof. intros Hc. apply redo_nothing. lia. Qed.

(** C4: in every reachable state, after an Undo that returned an operation,
    opening a new operation and finalizing it leaves in the history the
    entries up to the cursor followed by the new operation: every entry
    that lay beyond the cursor (the undone ones) is gone, the new operation
    sits at the cursor, the last index, no entry is undone, and Redo
    returns none and changes nothing. *)
Theorem finalize_after_undo_drops_redo_tail
    (s s1 : t) (u : operation) (d : start_data) (now_id now_ts : N) :
  reachable s →
  undo s = (s1, Normal (Some u)) →
  let opened := startOperation s1 d now_id now_ts in
  let s3 := endOperation opened.1 (operationId opened.2) in
  operations s3 =
    take (Z.to_nat (currentIndex s1 + 1)) (operations s1)
      ++ [set_status active (fresh_operation d now_id now_ts)] ∧
  currentIndex s3 = currentIndex s1 + 1 ∧
  currentIndex s3 = Z.of_nat (length (operations s3)) - 1 ∧
  (∀ o, o ∈ operations s3 → status o = active) ∧
  (u ∉ operations s3) ∧
  redo s3 = (s3, Normal None).
Proof.
  intros Hinv%inv_reachable Hu.
  pose proof (inv_undo s Hinv) as Hinv1. rewrite Hu in Hinv1. simpl in Hinv1.
  assert (Hund : status u = undone).
  { destruct (decide (currentIndex s < 0)) as [Hneg|Hpos].
    { by rewrite undo_nothing in Hu. }
    destruct (undo_at_cursor s Hinv) as (o0 & _ & _ & Hu'); [lia|].
    rewrite Hu' in Hu. by injection Hu as <- <-. }
  cbv zeta. simpl.
  change (make_id (sd_userId d) now_id)
    with (id (fresh_operation d now_id now_ts)).
  set (o := fresh_operation d now_id now_ts).
  set (s2 := Make (operations s1) (currentIndex s1)
                  (<[id o := o]> (activeOperations s1))).
  destruct Hinv1 as [[Hlo Hhi] Hst].
  assert (Hend : endOperation s2 (id o) =
    Make (take (Z.to_nat (currentIndex s1 + 1)) (operations s1) ++ [set_status active o])
         (currentIndex s1 + 1) (delete (id o) (activeOperations s2))).
  { apply (endOperation_pending s2 (id o) o); [|done]. simpl. apply lookup_insert_eq. }
  rewrite Hend. simpl.
  assert (Hall : ∀ o', o' ∈ take (Z.to_nat (currentIndex s1 + 1)) (operations s1)
                         ++ [set_status active o] → status o' = active).
  { intros o' [Hin| ->%list_elem_of_singleton]%elem_of_app; [|done].
    apply list_elem_of_lookup in Hin as [i Hi].
    pose proof (lookup_lt_Some _ _ _ Hi) as Hlt. rewrite length_take in Hlt.
    rewrite lookup_take_lt in Hi by lia. apply (Hst _ _ Hi). lia. }
  split; [done|]. split; [done|].
  assert (Hcur : currentIndex s1 + 1 =
    Z.of_nat (length (take (Z.to_nat (currentIndex s1 + 1)) (operations s1)
                        ++ [set_status active o])) - 1).
  { rewrite length_app, length_take. simpl. lia. }
  split; [done|]. split; [done|]. split.
  - intros Hin. apply Hall in Hin. congruence.
  - by apply redo_all_active.
Qed.

(** *** Extend on an id that is not live *)


(** *** Open/Finalize histories with distinct ids *)

Lemma opened_as_app oid pre post :
  opened_as oid (pre ++ post) =
    match opened_as oid pre with
    | Some o => Some o
    | None => opened_as oid post
    end.
Proof.
  induction pre as [|[d a b|f] pre IH]; simpl; [done| |done].
  by destruct (decide (returned_id d a b = oid)).
Qed.

(** What the ledger shows of an operation as Open created it, once it is
    finalized. *)
Lemma view_of_fresh_operation d a b :
  view_of (set_status active (fresh_operation d a b))
    = expected_view (returned_id d a b) d b.
Proof. reflexivity. Qed.

Lemma getActiveOperations_all_active s :
  Forall (λ o, status o = active) (operations s) →
  getActiveOperations s = view_of <$> operations s.
Proof.
  intros Hall. unfold getActiveOperations. f_equal.
  induction Hall as [|o l Ho Hl IH]; [done|].
  by rewrite filter_cons_True, IH.
Qed.

Lemma run_open_finalize post : ∀ pre s opened pend,
  well_paired opened pend post →
  (∀ oid, oid ∈ opened ↔ is_Some (opened_as oid pre)) →
  (∀ oid, oid ∈ pend → oid ∈ opened ∧ pending_as_opened s pre oid) →
  append_only s →
  getActiveOperations (run (to_command <$> post) s) =
    getActiveOperations s ++ omap (finalized_view (pre ++ post)) post ∧
  v_id <$> omap (finalized_view (pre ++ post)) post = finalize_ids post.
Proof.
  induction post as [|[d a b|oid] post IH];
    intros pre s opened pend Hwp Hopened Hpend [Hall Hcur].
  - simpl. by rewrite app_nil_r.
  - destruct Hwp as [Hfresh Hwp]. simpl.
    set (o := fresh_operation d a b).
    assert (Hnone : opened_as (returned_id d a b) pre = None).
    { apply eq_None_not_Some. by rewrite <- Hopened. }
    replace (pre ++ OpenEv d a b :: post)
      with ((pre ++ [OpenEv d a b]) ++ post) by (by rewrite <- app_assoc).
    destruct (IH (pre ++ [OpenEv d a b]) (startOperation s d a b).1 _ _ Hwp)
      as [Hops Hids].
    + intros oid'. rewrite opened_as_app. simpl.
      destruct (decide (oid' = returned_id d a b)) as [->|Hne].
      * rewrite Hnone, decide_True by done. split; [eauto|set_solver].
      * rewrite decide_False by done.
        rewrite elem_of_union, elem_of_singleton, Hopened.
        destruct (opened_as oid' pre); [naive_solver|].
        split; [by intros [?|[? ?]]|by intros [? ?]].
    + intros oid' Hin. unfold pending_as_opened. rewrite opened_as_app. simpl.
      destruct (decide (oid' = returned_id d a b)) as [->|Hne].
      * rewrite Hnone, decide_True by done.
        split; [set_solver|]. exists d, a, b.
        split; [done|]. split; [done|]. apply lookup_insert_eq.
      * assert (Hin' : oid' ∈ pend) by set_solver.
        destruct (Hpend _ Hin') as [Hop (d' & a' & b' & Hd' & Hid' & Hlk)].
        split; [set_solver|]. exists d', a', b'. rewrite Hd'.
        split; [done|]. split; [done|].
        rewrite lookup_insert_ne; [done|]. intros Heq. by apply Hne.
    + done.
    + split; [exact Hops|exact Hids].
  - destruct Hwp as [Hin Hwp]. simpl.
    destruct (Hpend _ Hin) as [Hop (d & a & b & Hd & Hid & Hlk)].
    rewrite (endOperation_pending _ _ _ Hlk) by lia.
    replace (Z.to_nat (currentIndex s + 1)) with (length (operations s)) by lia.
    rewrite firstn_all.
    rewrite (opened_as_app oid pre), Hd.
    replace (pre ++ FinalizeEv oid :: post)
      with ((pre ++ [FinalizeEv oid]) ++ post) by (by rewrite <- app_assoc).
    destruct (IH (pre ++ [FinalizeEv oid])
                (Make (operations s ++ [set_status active (fresh_operation d a b)])
                      (currentIndex s + 1) (delete oid (activeOperations s)))
                opened (pend ∖ {[oid]}) Hwp) as [Hops Hids].
    + intros oid'. rewrite opened_as_app. simpl.
      rewrite Hopened. by destruct (opened_as oid' pre).
    + intros oid' Hin'. unfold pending_as_opened. simpl.
      rewrite opened_as_app. simpl.
      assert (oid' ∈ pend ∧ oid' ≠ oid) as [Hp Hne] by set_solver.
      destruct (Hpend _ Hp) as [Hop' (d' & a' & b' & Hd' & Hid' & Hlk')].
      split; [done|]. exists d', a', b'. rewrite Hd'.
      split; [done|]. split; [done|]. by rewrite lookup_delete_ne.
    + split; simpl.
      * apply Forall_app. split; [done|]. by apply Forall_singleton.
      * rewrite length_app. simpl. lia.
    + split; [|simpl; f_equal; exact Hids].
      etrans; [exact Hops|].
      rewrite !getActiveOperations_all_active; simpl.
      * rewrite fmap_app, <- app_assoc. simpl.
        by rewrite view_of_fresh_operation, Hid.
      * done.
      * apply Forall_app. split; [done|]. by apply Forall_singleton.
Qed.

(** C2: for every history of Open and Finalize calls on the empty ledger in
    which the ids returned by the Open calls are pairwise distinct and each
    Open is followed, at some point, by exactly one Finalize of the id it
    returned, ActiveOperations afterwards returns exactly the opened
    operations, in the order of the Finalize calls: one record per
    Finalize call, bearing the id finalized and, written out field by
    field, the author, kind, style, origin and creation time given to the
    Open call that returned that id. *)
Theorem active_operations_in_finalize_order (evs : list of_event) :
  well_paired ∅ ∅ evs →
  getActiveOperations (run (to_command <$> evs) new) = finalized_in_order evs ∧
  v_id <$> finalized_in_order evs = finalize_ids evs.
Proof.
  intros Hwp.
  apply (run_open_finalize evs [] new ∅ ∅ Hwp).
  - intros oid. simpl. split; [set_solver|by intros []].
  - set_solver.
  - split; [constructor|done].
Qed.

(** *** Operation ids *)

Lemma no_dash_string_of_uint d : no_dash (NilEmpty.string_of_uint d).
Proof. induction d; simpl; (done || (split; [discriminate|done])). Qed.

Lemma no_dash_decimal n : no_dash (decimal n).
Proof. apply no_dash_string_of_uint. Qed.

Lemma decimal_inj n m : decimal n = decimal m → n = m.
Proof.
  unfold decimal. intros H.
  assert (Hu : N.to_uint n = N.to_uint m).
  { apply (f_equal NilEmpty.uint_of_string) in H.
    rewrite !NilEmpty.usu in H. by injection H. }
  apply (f_equal N.of_uint) in Hu. by rewrite !DecimalN.Unsigned.of_to in Hu.
Qed.

Lemma dash_in_the_middle a b : ¬ no_dash (a +:+ ("-" +:+ b)).
Proof. induction a as [|c a IH]; simpl; intros [? ?]; [done|by apply IH]. Qed.

Lemma split_at_last_dash u1 : ∀ u2 d1 d2,
  no_dash d1 → no_dash d2 →
  u1 +:+ ("-" +:+ d1) = u2 +:+ ("-" +:+ d2) → u1 = u2 ∧ d1 = d2.
Proof.
  induction u1 as [|c u1 IH]; intros [|c' u2] d1 d2 H1 H2 Heq; simpl in Heq.
  - injection Heq as Heq. change (d1 = d2) in Heq. by subst.
  - injection Heq as Hc Heq. change (d1 = u2 +:+ ("-" +:+ d2)) in Heq.
    subst. exfalso. by apply (dash_in_the_middle u2 d2).
  - injection Heq as Hc Heq. change (u1 +:+ ("-" +:+ d1) = d2) in Heq.
    subst. exfalso. by apply (dash_in_the_middle u1 d1).
  - injection Heq as Hc Heq. subst.
    by destruct (IH _ _ _ H1 H2 Heq) as [-> ->].
Qed.

(** Two ids are equal exactly when the same participant opened both at the
    same reading of the clock. *)
Lemma make_id_eq_iff u1 t1 u2 t2 :
  make_id u1 t1 = make_id u2 t2 ↔ u1 = u2 ∧ t1 = t2.
Proof.
  split; [|by intros [-> ->]].
  unfold make_id. simpl. intros Heq. injection Heq as Heq.
  apply split_at_last_dash in Heq as [-> Hd]; try apply no_dash_decimal.
  by apply decimal_inj in Hd as ->.
Qed.

(** Finalize on an id that is in the history and not pending changes
    nothing. *)
Lemma finalize_again_not_pending s oid o :
  o ∈ operations s → id o = oid → activeOperations s !! oid = None →
  endOperation s oid = s.
Proof. intros _ _ Hp. by apply endOperation_not_pending. Qed.

(** *** Finalize twice when ids are distinct *)

Lemma ids_insert_same (l : list operation) i o o' :
  l !! i = Some o → id o' = id o → id <$> <[i := o']> l = id <$> l.
Proof.
  intros Hi Hid. rewrite list_fmap_insert, Hid.
  apply list_insert_id. by rewrite list_lookup_fmap, Hi.
Qed.

Lemma ids_separate_same_ids seen s s' :
  id <$> operations s' = id <$> operations s →
  activeOperations s' = activeOperations s →
  ids_separate seen s → ids_separate seen s'.
Proof. unfold ids_separate. by intros -> ->. Qed.

Lemma ids_undo s : ledger_inv s → id <$> operations (undo s).1 = id <$> operations s
  ∧ activeOperations (undo s).1 = activeOperations s.
Proof.
  intros Hinv. destruct (decide (currentIndex s < 0)) as [Hneg|Hpos].
  { by rewrite undo_nothing. }
  destruct (undo_at_cursor s Hinv) as (o & Ho & _ & ->); [lia|]. simpl.
  split; [|done]. by apply ids_insert_same with o.
Qed.

Lemma ids_redo s : ledger_inv s → id <$> operations (redo s).1 = id <$> operations s
  ∧ activeOperations (redo s).1 = activeOperations s.
Proof.
  intros Hinv.
  destruct (decide (Z.of_nat (length (operations s)) - 1 ≤ currentIndex s))
    as [Hend|Hmore].
  { by rewrite redo_nothing. }
  destruct (redo_after_cursor s Hinv) as (o & Ho & _ & ->); [lia|]. simpl.
  split; [|done]. by apply ids_insert_same with o.
Qed.

Lemma ids_separate_exec seen s c :
  ledger_inv s → ids_separate seen s →
  (∀ k, k ∈ open_ids [c] → k ∉ seen) →
  ids_separate (list_to_set (open_ids [c]) ∪ seen) (exec s c).
Proof.
  intros Hinv [Hh Hp] Hfresh. destruct c as [d a b|oid pts|oid| | |]; simpl.
  - assert (Hnew : make_id (sd_userId d) a ∉ seen)
      by (apply Hfresh; simpl; apply list_elem_of_here).
    split; simpl.
    + eapply Forall_impl; [exact Hh|]. intros k [Hk Hnone]. simpl in *.
      split; [set_solver|]. rewrite lookup_insert_ne; [done|]. by intros <-.
    + apply map_Forall_insert_2; [split; [set_solver|done]|].
      eapply map_Forall_impl; [exact Hp|]. intros k o [Hk Hid]. simpl in *.
      split; [set_solver|done].
  - assert (Hmono : ∀ s', ids_separate seen s' → ids_separate (∅ ∪ seen) s')
      by (intros s'; by rewrite (left_id_L ∅ (∪))).
    apply Hmono. unfold addPoints.
    destruct (activeOperations s !! oid) as [o|] eqn:Ho.
    + destruct (spread pts) as [ps|]; [|done]. split; simpl.
      * eapply Forall_impl; [exact Hh|]. intros k [Hk Hnone]. simpl in *.
        split; [done|]. rewrite lookup_insert_ne; [done|]. intros <-. congruence.
      * apply map_Forall_insert_2; [|done]. apply (Hp _ _ Ho).
    + destruct (find_op oid (operations s)) as [[i o]|] eqn:Hf; [|done].
      destruct (decide (status o = active)); [|done].
      destruct (spread pts) as [ps|]; [|done].
      apply list_find_Some in Hf as (Hi & _ & _).
      apply (ids_separate_same_ids seen s); [|done|done]. simpl.
      by apply ids_insert_same with o.
  - assert (Hmono : ∀ s', ids_separate seen s' → ids_separate (∅ ∪ seen) s')
      by (intros s'; by rewrite (left_id_L ∅ (∪))).
    apply Hmono.
    destruct (activeOperations s !! oid) as [o|] eqn:Ho;
      [|by rewrite endOperation_not_pending].
    rewrite (endOperation_pending _ _ _ Ho) by apply Hinv.
    destruct (Hp _ _ Ho) as [Hseen Hid]. simpl in *.
    split; simpl.
    + rewrite fmap_app. apply Forall_app. split.
      * rewrite fmap_take. apply Forall_take.
        eapply Forall_impl; [exact Hh|]. intros k [Hk Hnone]. simpl in *.
        split; [done|]. rewrite lookup_delete_ne; [done|]. intros <-. congruence.
      * apply Forall_singleton. simpl. rewrite Hid.
        split; [done|]. apply lookup_delete_eq.
    + intros k o' Hk. apply lookup_delete_Some in Hk as [_ Hk]. by apply Hp.
  - rewrite (left_id_L ∅ (∪)).
    destruct (ids_undo s Hinv) as [H1 H2].
    by apply (ids_separate_same_ids seen s).
  - rewrite (left_id_L ∅ (∪)).
    destruct (ids_redo s Hinv) as [H1 H2].
    by apply (ids_separate_same_ids seen s).
  - split; simpl; [constructor|apply map_Forall_empty].
Qed.

Lemma ids_separate_run cs : ∀ seen s,
  ledger_inv s → ids_separate seen s →
  NoDup (open_ids cs) → (∀ k, k ∈ open_ids cs → k ∉ seen) →
  ∃ seen', ids_separate seen' (run cs s).
Proof.
  induction cs as [|c cs IH]; intros seen s Hinv Hsep Hnd Hfresh.
  { by exists seen. }
  simpl. apply (IH (list_to_set (open_ids [c]) ∪ seen)).
  - by apply inv_exec.
  - apply ids_separate_exec; [done|done|].
    intros k Hk. apply Hfresh.
    destruct c; simpl in *; try (by apply elem_of_nil in Hk).
    apply list_elem_of_singleton in Hk as ->. by left.
  - destruct c; simpl in Hnd; try done. by apply NoDup_cons in Hnd as [_ ?].
  - intros k Hk. destruct c; simpl in *;
      rewrite ?(left_id_L ∅ (∪)); try (by apply Hfresh).
    apply NoDup_cons in Hnd as [Hnotin _].
    rewrite (right_id_L ∅ (∪)). apply not_elem_of_union. split.
    + apply not_elem_of_singleton. by intros ->.
    + apply Hfresh. by right.
Qed.

(** If no two Open calls of a history returned the same id, Finalize on
    the id of any entry of the history changes nothing. *)
Lemma finalize_again_distinct_ids cs o :
  NoDup (open_ids cs) → o ∈ operations (run cs new) →
  endOperation (run cs new) (id o) = run cs new.
Proof.
  intros Hnd Ho.
  destruct (ids_separate_run cs ∅ new inv_new) as [seen [Hh _]]; [|done|..].
  - split; simpl; [constructor|apply map_Forall_empty].
  - intros k _. apply not_elem_of_empty.
  - apply endOperation_not_pending.
    rewrite Forall_forall in Hh. apply Hh.
    apply list_elem_of_fmap. by exists o.
Qed.

(** C3: the id of an operation is made of the participant id and the
    clock reading, so two Open calls return the same id exactly when the
    same participant opens twice at the same reading.  On the empty ledger,
    Ann's two Open calls at reading 100 both return [op-sock1-100], and the
    second operation replaces the first in the pending map. *)
Theorem same_participant_same_tick_same_id
    (s : t) (d1 d2 : start_data) (t1 ts1 t2 ts2 : N) :
  let '(s1, r1) := startOperation s d1 t1 ts1 in
  let '(s2, r2) := startOperation s1 d2 t2 ts2 in
  (operationId r1 = operationId r2 ↔ sd_userId d1 = sd_userId d2 ∧ t1 = t2) ∧
  let '(a1, q1) := startOperation new Scenario.ann_brush 100 100 in
  let '(a2, q2) := startOperation a1 Scenario.ann_line 100 100 in
  operationId q1 = "op-sock1-100" ∧
  operationId q2 = "op-sock1-100" ∧
  activeOperations a2 =
    {[ "op-sock1-100" := fresh_operation Scenario.ann_line 100 100 ]}.
Proof.
  simpl. split; [apply make_id_eq_iff|].
  split; [done|]. split; [done|].
  change (make_id "sock1" 100) with "op-sock1-100".
  by rewrite insert_insert_eq, insert_empty.
Qed.

(** C6: in the reachable state [same_tick] the id [op-sock1-100] names an
    entry of the history and, because Ann's second Open returned it again,
    a pending operation too; Finalize on it appends a second entry and
    moves the cursor instead of leaving the ledger unchanged. *)
Theorem finalize_of_reused_id_not_idempotent :
  let s := Scenario.same_tick in
  reachable s ∧
  id <$> operations s = ["op-sock1-100"] ∧
  currentIndex s = 0 ∧
  id <$> operations (endOperation s "op-sock1-100")
    = ["op-sock1-100"; "op-sock1-100"] ∧
  currentIndex (endOperation s "op-sock1-100") = 1 ∧
  endOperation s "op-sock1-100" ≠ s.
Proof.
  split; [by eexists|].
  split; [by vm_compute|]. split; [by vm_compute|].
  split; [by vm_compute|]. split; [by vm_compute|].
  intros Heq. apply (f_equal currentIndex) in Heq. by vm_compute in Heq.
Qed.

(** *** The two scenarios of the specification *)

Example scenario_open_extend_finalize :
  v_points <$> getActiveOperations
    (run [Open Scenario.ann_brush 100 100;
          Extend "op-sock1-100"
            (Elements [Point (JNum 1) (JNum 1); Point (JNum 2) (JNum 2)]);
          Finalize "op-sock1-100"] new)
  = [[Point (JNum 0) (JNum 0); Point (JNum 1) (JNum 1); Point (JNum 2) (JNum 2)]].
Proof. reflexivity. Qed.

Example scenario_undo_undo_redo_finalize :
  let s := run [Open Scenario.ann_brush 1 1; Finalize "op-sock1-1";
                Open Scenario.bob_rect 2 2; Finalize "op-sock2-2";
                Open Scenario.ann_line 3 3; Finalize "op-sock1-3";
                Undo; Undo; Redo;
                Open Scenario.bob_rect 4 4; Finalize "op-sock2-4"] new in
  id <$> operations s = ["op-sock1-1"; "op-sock2-2"; "op-sock2-4"] ∧
  status <$> operations s = [active; active; active] ∧
  currentIndex s = 2.
Proof. by vm_compute. Qed.

(** *** The theorems at the sample histories *)

Lemma two_strokes_reachable : reachable Scenario.two_strokes.
Proof. by eexists. Defined.

Lemma undo_two_strokes :
  undo Scenario.two_strokes
    = (Scenario.one_undone, Normal (Some Scenario.bob_undone)).
Proof. reflexivity. Defined.

Lemma undo_redo_round_trip_witness :
  reachable Scenario.two_strokes ∧
  undo Scenario.two_strokes
    = (Scenario.one_undone, Normal (Some Scenario.bob_undone)) ∧
  redo Scenario.one_undone
    = (Scenario.two_strokes,
       Normal (Some (set_status active Scenario.bob_undone))).
Proof.
  split; [exact two_strokes_reachable|]. split; [exact undo_two_strokes|].
  exact (proj1 (proj2 (undo_redo_round_trip _ _ _
                         two_strokes_reachable undo_two_strokes))).
Defined.

Lemma finalize_after_undo_witness :
  reachable Scenario.two_strokes ∧
  undo Scenario.two_strokes
    = (Scenario.one_undone, Normal (Some Scenario.bob_undone)) ∧
  let opened := startOperation Scenario.one_undone Scenario.ann_line 110 110 in
  let s3 := endOperation opened.1 (operationId opened.2) in
  (Scenario.bob_undone ∉ operations s3) ∧ redo s3 = (s3, Normal None).
Proof.
  split; [exact two_strokes_reachable|]. split; [exact undo_two_strokes|].
  destruct (finalize_after_undo_drops_redo_tail _ _ _ Scenario.ann_line 110 110
              two_strokes_reachable undo_two_strokes)
    as (_ & _ & _ & _ & Hgone & Hredo).
  split; [exact Hgone|exact Hredo].
Defined.


Lemma interleaved_well_paired : well_paired ∅ ∅ Scenario.interleaved.
Proof.
  simpl. repeat split; set_solver.
Defined.

Lemma active_operations_in_finalize_order_witness :
  well_paired ∅ ∅ Scenario.interleaved ∧
  getActiveOperations (run (to_command <$> Scenario.interleaved) new)
    = [ {| v_id := "op-sock2-101"; v_userId := "sock2";
           v_username := JStr "Bob"; v_type := JStr "rectangle";
           v_color := JStr "#00ff00"; v_width := JNum 1;
           v_points := [Point (JNum 3) (JNum 4)]; v_timestamp := 101 |};
        {| v_id := "op-sock1-100"; v_userId := "sock1";
           v_username := JStr "Ann"; v_type := JStr "brush";
           v_color := JStr "#000000"; v_width := JNum 2;
           v_points := [Point (JNum 0) (JNum 0)]; v_timestamp := 100 |};
        {| v_id := "op-sock1-102"; v_userId := "sock1";
           v_username := JStr "Ann"; v_type := JStr "line";
           v_color := JStr "#ff0000"; v_width := JNum 4;
           v_points := [Point (JNum 7) (JNum 9)]; v_timestamp := 103 |} ].
Proof.
  split; [exact interleaved_well_paired|].
  rewrite (proj1 (active_operations_in_finalize_order _ interleaved_well_paired)).
  reflexivity.
Defined.

End LedgerFacts.

(** * Properties of the registry and of the router *)

Module RegistryFacts.
Import RoomManager.

Section JsMapFacts.
Context {K V : Type} `{EqDecision K}.
Implicit Types (k : K) (v : V) (m : list (K * V)).

Lemma get_set_eq k v m : JsMap.get k (JsMap.set k v m) = Some v.
Proof.
  induction m as [|[k' v'] m IH]; simpl.
  - by rewrite decide_True.
  - destruct (decide (k' = k)) as [->|Hne]; simpl.
    + by rewrite decide_True.
    + by rewrite decide_False.
Qed.


End JsMapFacts.

Lemma template_one v :
  template [v] = if printable v then Normal () else Throw.
Proof. unfold template. simpl. by rewrite andb_true_r. Qed.

Lemma template_addUser name uid roomId :
  template [name; JStr uid; roomId]
    = if printable name && printable roomId then Normal () else Throw.
Proof. unfold template. simpl. by rewrite andb_true_r. Qed.

Lemma getRoom_lookup rm roomId :
  rooms (getRoom rm roomId).1 !! roomId = Some (found_or_new rm roomId).
Proof.
  unfold getRoom, found_or_new.
  destruct (rooms rm !! roomId) eqn:Hr; simpl; [done|].
  apply lookup_insert_eq.
Qed.

Lemma getRoom_present rm roomId r :
  rooms rm !! roomId = Some r → getRoom rm roomId = (rm, Normal r).
Proof. intros Hr. unfold getRoom. by rewrite Hr. Qed.

Lemma getRoom_absent rm roomId :
  rooms rm !! roomId = None →
  getRoom rm roomId =
    ({| rooms := <[roomId := new_room]> (rooms rm) |},
     if printable roomId then Normal new_room else Throw).
Proof.
  intros Hr. unfold getRoom. rewrite Hr, template_one.
  by destruct (printable roomId).
Qed.

(** The lookup completes for a room that exists and for an id that
    converts to a string. *)
Lemma getRoom_completes rm roomId :
  is_Some (rooms rm !! roomId) ∨ printable roomId = true →
  (getRoom rm roomId).2 = Normal (found_or_new rm roomId).
Proof.
  intros H. unfold found_or_new.
  destruct (rooms rm !! roomId) as [r|] eqn:Hr.
  - by rewrite (getRoom_present _ _ _ Hr).
  - rewrite (getRoom_absent _ _ Hr). by destruct H as [[? ?]| ->].
Qed.

(** What addUser returns and the room record it installs, once the room
    lookup has completed. *)
Lemma addUser_result rm roomId uid name now :
  is_Some (rooms rm !! roomId) ∨ printable roomId = true →
  (addUser rm roomId uid name now).2 =
    (if printable name && printable roomId
     then Normal {| u_id := uid; u_username := name;
                    u_color := palette_color (colorIndex (found_or_new rm roomId));
                    joinedAt := now |}
     else Throw) ∧
  rooms (addUser rm roomId uid name now).1 !! roomId =
    Some {| drawingState := drawingState (found_or_new rm roomId);
            users := JsMap.set uid
                       {| u_id := uid; u_username := name;
                          u_color :=
                            palette_color (colorIndex (found_or_new rm roomId));
                          joinedAt := now |}
                       (users (found_or_new rm roomId));
            colorIndex := S (colorIndex (found_or_new rm roomId)) |}.
Proof.
  intros H. pose proof (getRoom_completes rm roomId H) as Hg.
  unfold addUser. destruct (getRoom rm roomId) as [rm1 cr]. simpl in Hg.
  subst cr. simpl. rewrite template_addUser, lookup_insert_eq.
  split; [|done]. by destruct (printable name && printable roomId).
Qed.

(** A call that has to create a room whose id does not convert to a
    string throws in [getRoom]: the room is stored, empty, and the call
    goes no further. *)
Lemma addUser_unprintable_new_room rm roomId uid name now :
  rooms rm !! roomId = None → printable roomId = false →
  addUser rm roomId uid name now =
    ({| rooms := <[roomId := new_room]> (rooms rm) |}, Throw).
Proof.
  intros Hr Hp. unfold addUser. by rewrite (getRoom_absent _ _ Hr), Hp.
Qed.

Lemma addUser_other_room rm roomId other sid name now :
  roomId ≠ other →
  rooms (addUser rm roomId sid name now).1 !! other = rooms rm !! other.
Proof.
  intros Hne. unfold addUser, getRoom.
  destruct (rooms rm !! roomId); simpl; [|destruct (template [roomId]); simpl];
    by rewrite !lookup_insert_ne.
Qed.

(** Whatever becomes of the call, the room is in the registry after it. *)
Lemma addUser_installs rm roomId uid name now :
  is_Some (rooms (addUser rm roomId uid name now).1 !! roomId).
Proof.
  unfold addUser. pose proof (getRoom_lookup rm roomId) as Hl.
  destruct (getRoom rm roomId) as [rm1 [r|]]; simpl in *; [|by eexists].
  rewrite lookup_insert_eq. by eexists.
Qed.

Lemma getRoomState_present rm roomId r :
  rooms rm !! roomId = Some r →
  getRoomState rm roomId = (rm, Normal (state_of r)).
Proof. intros Hr. unfold getRoomState. by rewrite (getRoom_present _ _ _ Hr). Qed.



End RegistryFacts.

Module RouterFacts.
Import RoomManager Server RegistryFacts.

Lemma getRoomState_after_addUser rm roomId uid name now :
  ∃ rs, getRoomState (addUser rm roomId uid name now).1 roomId
          = ((addUser rm roomId uid name now).1, Normal rs).
Proof.
  destruct (addUser_installs rm roomId uid name now) as [r Hr].
  eexists. by apply getRoomState_present.
Qed.

(** The leave step completes for a connection that is in no room and for
    one whose room variable converts to a string. *)
Lemma leave_previous_unjoined rm c :
  truthy (currentRoom c) = false → leave_previous rm c = (rm, Normal []).
Proof. intros Ht. unfold leave_previous. by rewrite Ht. Qed.

Lemma leave_previous_printable rm c :
  printable (currentRoom c) = true →
  ∃ acts, leave_previous rm c = (after_leave rm c, Normal acts).
Proof.
  intros Hp. unfold after_leave, leave_previous, removeUser.
  destruct (truthy (currentRoom c)); [|by eexists].
  destruct (rooms rm !! currentRoom c); [|by eexists].
  destruct (decide _); simpl; [rewrite template_one, Hp|]; by eexists.
Qed.

(** What [join-room] leaves behind for a payload whose fields can be read,
    once the leave step has completed: the registry is the one [addUser]
    leaves, the room variable is the room asked for, and the participant
    variable is assigned if [addUser] returned. *)
Lemma on_join_room_result rm c jd now acts :
  (leave_previous rm c).2 = Normal acts →
  (on_join_room rm c (Some jd) now).1 =
    ((joining rm c jd now).1,
     {| socket_id := socket_id c;
        currentRoom := js_default (jd_room jd) (JStr "default");
        currentUser := match (joining rm c jd now).2 with
                       | Normal u => Some u
                       | Throw => currentUser c
                       end |}).
Proof.
  unfold on_join_room, joining, after_leave.
  destruct (leave_previous rm c) as [rm1 [a|]]; simpl; [intros _|done].
  match goal with
  | |- context [addUser ?a ?b ?d ?e ?f] =>
      destruct (getRoomState_after_addUser a b d e f) as [rs Hrs];
      destruct (addUser a b d e f) as [rm2 [u|]]
  end; simpl in *; [|done].
  by rewrite Hrs.
Qed.

(** The handler abandons a join whose leave step throws: the sender keeps
    its room variable and gets the error event. *)
Lemma leave_previous_eq rm c :
  leave_previous rm c = (after_leave rm c, (leave_previous rm c).2).
Proof. unfold after_leave. by destruct (leave_previous rm c). Qed.

Lemma on_join_room_leave_throws rm c jd now :
  (leave_previous rm c).2 = Throw →
  on_join_room rm c (Some jd) now = (after_leave rm c, c, [join_failed]).
Proof.
  unfold on_join_room, after_leave.
  by destruct (leave_previous rm c) as [rm1 [a|]].
Qed.

Lemma on_join_room_joined rm c jd now acts :
  (leave_previous rm c).2 = Normal acts →
  printable (js_or (jd_username jd) (default_username (socket_id c))) = true →
  printable (js_default (jd_room jd) (JStr "default")) = true →
  truthy (js_default (jd_room jd) (JStr "default")) = true →
  ∃ u, joined (on_join_room rm c (Some jd) now).1.1
              (on_join_room rm c (Some jd) now).1.2 u ∧
       (joining rm c jd now).2 = Normal u ∧
       u_color u =
         palette_color
           (colorIndex (found_or_new (after_leave rm c)
                          (js_default (jd_room jd) (JStr "default")))).
Proof.
  intros Hl Hn Hp Ht. rewrite (on_join_room_result _ _ _ _ _ Hl). simpl.
  destruct (addUser_result (after_leave rm c)
              (js_default (jd_room jd) (JStr "default")) (socket_id c)
              (js_or (jd_username jd) (default_username (socket_id c))) now
              (or_intror Hp))
    as [Hu Hr']. rewrite Hn, Hp in Hu. simpl in Hu.
  unfold joining. rewrite Hu. eexists. split; [|split; [done|done]].
  split; [done|]. split; [done|].
  eexists. split; [exact Hr'|]. apply get_set_eq.
Qed.


(** The registry and the name [join-room] works with on a connection that
    is in no room yet. *)
Lemma join_of_new_connection rm sid jd now :
  (on_join_room rm (connect sid) (Some jd) now).1.1
    = (addUser rm (js_default (jd_room jd) (JStr "default")) sid
         (js_or (jd_username jd) (default_username sid)) now).1 ∧
  currentRoom (on_join_room rm (connect sid) (Some jd) now).1.2
    = js_default (jd_room jd) (JStr "default").
Proof.
  by rewrite (on_join_room_result rm (connect sid) jd now [] eq_refl).
Qed.

(** C9: the handler gives the room its default through a destructuring
    default, which applies to an absent ([undefined]) field only, and it
    never shortens a name.  A join intent without a room field joins the
    sender to the room "default".  A join intent whose room is the empty
    string (what the welcome form sends for a room name without a single
    letter, digit, [-] or [_]) does not: the sender is put on the roster
    of the room named by the empty string, its room variable is that
    falsy name, and the room "default" is left as it was.  The name put
    on the roster is the generated "User" followed by the first four
    characters of the connection id when the name sent is blank (falsy),
    and otherwise the name as sent, whatever its length. *)
Theorem join_empty_room_is_not_defaulted
    (rm : RoomManager.t) (sid : string) (name : jsval) (now : N) :
  let absent := on_join_room rm (connect sid)
                  (Some {| jd_username := name; jd_room := JUndef |}) now in
  let blank := on_join_room rm (connect sid)
                 (Some {| jd_username := name; jd_room := JStr "" |}) now in
  (currentRoom absent.1.2 = JStr "default" ∧
   ∃ r u, rooms absent.1.1 !! JStr "default" = Some r ∧
          JsMap.get sid (users r) = Some u) ∧
  (currentRoom blank.1.2 = JStr "" ∧
   truthy (currentRoom blank.1.2) = false ∧
   rooms blank.1.1 !! JStr "default" = rooms rm !! JStr "default" ∧
   ∃ r u, rooms blank.1.1 !! JStr "" = Some r ∧
          JsMap.get sid (users r) = Some u ∧
          (truthy name = false →
             u_username u = JStr ("User" +:+ String.substring 0 4 sid)) ∧
          (truthy name = true → u_username u = name)).
Proof.
  cbv zeta. split.
  - destruct (join_of_new_connection rm sid
                {| jd_username := name; jd_room := JUndef |} now) as [-> ->].
    split; [done|]. simpl.
    destruct (addUser_result rm (JStr "default") sid
                (js_or name (default_username sid)) now (or_intror eq_refl))
      as [_ Hr].
    eexists _, _. split; [exact Hr|]. apply get_set_eq.
  - destruct (join_of_new_connection rm sid
                {| jd_username := name; jd_room := JStr "" |} now) as [-> ->].
    split; [done|]. split; [done|]. simpl.
    split; [by apply addUser_other_room|].
    destruct (addUser_result rm (JStr "") sid
                (js_or name (default_username sid)) now (or_intror eq_refl))
      as [_ Hr].
    eexists _, _. split; [exact Hr|]. split; [apply get_set_eq|].
    unfold js_or. simpl. split; intros ->; done.
Qed.

(** On a fresh connection ["abcdef"] of a server without rooms, a join
    intent with the empty room name and a name of 25 characters leaves
    the sender in the room named by the empty string, no room "default"
    exists, and the name is stored with all its 25 characters. *)
Example join_blank_room_long_name :
  let res := on_join_room RoomManager.new (connect "abcdef")
               (Some Scenario.blank_room_long_name) 0 in
  currentRoom res.1.2 = JStr "" ∧
  rooms res.1.1 !! JStr "default" = None ∧
  (u_username <$> currentUser res.1.2) = Some (JStr "aaaaaaaaaaaaaaaaaaaaaaaaa") ∧
  String.length "aaaaaaaaaaaaaaaaaaaaaaaaa" = 25%nat.
Proof. repeat split; done. Qed.



End RouterFacts.

(** * Further properties of the ledger *)

Module LedgerMore.
Import DrawingState Ledger LedgerFacts.

Lemma view_of_rendered o : view_of o = rendered o.
Proof. reflexivity. Qed.

(** Under the invariant the active entries are those up to the cursor. *)
Lemma filter_active_prefix s :
  ledger_inv s →
  filter (λ o, status o = active) (operations s)
    = take (Z.to_nat (currentIndex s + 1)) (operations s).
Proof.
  intros [[Hlo Hhi] Hst].
  rewrite <- (take_drop (Z.to_nat (currentIndex s + 1)) (operations s)) at 1.
  rewrite filter_app.
  assert (Hact : Forall (λ o, status o = active)
                   (take (Z.to_nat (currentIndex s + 1)) (operations s))).
  { apply Forall_lookup. intros i o Hi.
    pose proof (lookup_lt_Some _ _ _ Hi) as Hlt. rewrite length_take in Hlt.
    rewrite lookup_take_lt in Hi by lia. apply (Hst _ _ Hi). lia. }
  assert (Hund : Forall (λ o, ¬ status o = active)
                   (drop (Z.to_nat (currentIndex s + 1)) (operations s))).
  { apply Forall_lookup. intros i o Hi. rewrite lookup_drop in Hi.
    destruct (Hst _ _ Hi) as [_ Hu]. rewrite Hu by lia. discriminate. }
  assert (Hf1 : ∀ l, Forall (λ o, status o = active) l →
                filter (λ o, status o = active) l = l).
  { intros l Hl. induction Hl as [|o l Ho Hl IH]; [done|].
    by rewrite filter_cons_True, IH. }
  assert (Hf2 : ∀ l, Forall (λ o, ¬ status o = active) l →
                filter (λ o, status o = active) l = []).
  { intros l Hl. induction Hl as [|o l Ho Hl IH]; [done|].
    by rewrite filter_cons_False. }
  by rewrite Hf1, Hf2, app_nil_r.
Qed.

(** X1: in every reachable state with something to undo, Undo acts at its
    first iteration: it returns the entry at the cursor, marked undone,
    rewrites that entry only and moves the cursor down by exactly one; with
    the cursor at -1 it returns none and changes nothing. *)
Theorem undo_acts_at_the_cursor (s : t) :
  reachable s →
  (currentIndex s < 0 → undo s = (s, Normal None)) ∧
  (0 ≤ currentIndex s →
   ∃ o, js_index (operations s) (currentIndex s) = Some o ∧
        status o = active ∧
        undo s =
          (Make (<[Z.to_nat (currentIndex s) := set_status undone o]> (operations s))
                (currentIndex s - 1) (activeOperations s),
           Normal (Some (set_status undone o)))).
Proof.
  intros Hinv%inv_reachable. split; [apply undo_nothing|].
  intros Hc. destruct (undo_at_cursor s Hinv Hc) as (o & Ho & Hact & Hu).
  exists o. split; [|done].
  rewrite <- (Z2Nat.id (currentIndex s)) at 1 by lia. by rewrite js_index_nat.
Qed.

(** X2: in every reachable state with an entry beyond the cursor, Redo acts
    at its first iteration: it returns the entry just after the cursor,
    marked active, rewrites that entry only and moves the cursor up by
    exactly one; with the cursor at the last index it returns none and
    changes nothing. *)
Theorem redo_acts_after_the_cursor (s : t) :
  reachable s →
  (Z.of_nat (length (operations s)) - 1 ≤ currentIndex s →
   redo s = (s, Normal None)) ∧
  (currentIndex s < Z.of_nat (length (operations s)) - 1 →
   ∃ o, js_index (operations s) (currentIndex s + 1) = Some o ∧
        status o = undone ∧
        redo s =
          (Make (<[Z.to_nat (currentIndex s + 1) := set_status active o]> (operations s))
                (currentIndex s + 1) (activeOperations s),
           Normal (Some (set_status active o)))).
Proof.
  intros Hinv%inv_reachable. split; [apply redo_nothing|].
  intros Hc. destruct (redo_after_cursor s Hinv Hc) as (o & Ho & Hund & Hr).
  exists o. split; [|done].
  destruct Hinv as [[Hlo _] _].
  rewrite <- (Z2Nat.id (currentIndex s + 1)) at 1 by lia.
  by rewrite js_index_nat.
Qed.

(** X3: in every reachable state the active operations are the entries of
    the history up to the cursor, in order; their number is the cursor
    plus one and never exceeds the number of entries. *)
Theorem active_operations_are_the_prefix (s : t) :
  reachable s →
  getActiveOperations s
    = rendered <$> take (Z.to_nat (currentIndex s + 1)) (operations s) ∧
  Z.of_nat (getActiveOperationCount s) = currentIndex s + 1 ∧
  (getActiveOperationCount s ≤ getOperationCount s)%nat.
Proof.
  intros Hinv%inv_reachable.
  unfold getActiveOperations, getActiveOperationCount, getOperationCount.
  rewrite (filter_active_prefix s Hinv).
  destruct Hinv as [[Hlo Hhi] _]. rewrite length_take.
  split; [by apply list_fmap_ext; intros; apply view_of_rendered|]. split; lia.
Qed.

Lemma undo_then_redo s :
  ledger_inv s → 0 ≤ currentIndex s → (redo (undo s).1).1 = s.
Proof.
  intros Hinv Hc.
  destruct (undo_at_cursor s Hinv Hc) as (o & Ho & Hact & Hu).
  pose proof (inv_undo s Hinv) as Hinv1. rewrite Hu in *. simpl in *.
  assert (Hlt : (Z.to_nat (currentIndex s) < length (operations s))%nat)
    by (by eapply lookup_lt_Some).
  destruct (redo_after_cursor _ Hinv1) as (o1 & Ho1 & _ & ->).
  { simpl. rewrite length_insert. lia. }
  simpl in *.
  replace (Z.to_nat (currentIndex s - 1 + 1)) with (Z.to_nat (currentIndex s))
    in * by lia.
  rewrite list_lookup_insert_eq in Ho1 by done. injection Ho1 as <-.
  rewrite list_insert_insert_eq, set_status_twice, <- Hact, set_status_same.
  rewrite list_insert_id by done.
  replace (currentIndex s - 1 + 1) with (currentIndex s) by lia.
  by destruct s.
Qed.

(** X4: in every reachable state in which Redo returns an operation, an
    Undo that follows at once returns that operation, marked undone, and
    leaves the whole ledger as it was before the Redo. *)
Theorem redo_undo_round_trip (s s1 : t) (o : operation) :
  reachable s →
  redo s = (s1, Normal (Some o)) →
  status o = active ∧ undo s1 = (s, Normal (Some (set_status undone o))).
Proof.
  intros Hinv%inv_reachable Hr.
  destruct (decide (Z.of_nat (length (operations s)) - 1 ≤ currentIndex s))
    as [Hend|Hmore].
  { by rewrite redo_nothing in Hr. }
  destruct (redo_after_cursor s Hinv) as (o0 & Ho0 & Hund & Hr'); [lia|].
  pose proof (inv_redo s Hinv) as Hinv1.
  rewrite Hr' in Hr, Hinv1. injection Hr as <- <-. simpl in Hinv1.
  split; [done|].
  assert (Hlt : (Z.to_nat (currentIndex s + 1) < length (operations s))%nat)
    by (by eapply lookup_lt_Some).
  destruct Hinv as [[Hlo Hhi] _].
  destruct (undo_at_cursor _ Hinv1) as (o1 & Ho1 & _ & ->); [simpl; lia|].
  simpl in *. rewrite list_lookup_insert_eq in Ho1 by done.
  injection Ho1 as <-.
  rewrite list_insert_insert_eq, set_status_twice, <- Hund, set_status_same.
  rewrite list_insert_id by done.
  replace (currentIndex s + 1 - 1) with (currentIndex s) by lia.
  by destruct s.
Qed.

Lemma run_snoc cs c s : run (cs ++ [c]) s = exec (run cs s) c.
Proof. unfold run. by rewrite foldl_app. Qed.

Lemma replicate_snoc {A} n (x : A) : replicate (S n) x = replicate n x ++ [x].
Proof. induction n as [|n IH]; [done|]. simpl in *. by rewrite <- IH. Qed.

Lemma undos_then_redos n : ∀ s,
  ledger_inv s → Z.of_nat n ≤ currentIndex s + 1 →
  currentIndex (run (replicate n Undo) s) = currentIndex s - Z.of_nat n ∧
  run (replicate n Redo) (run (replicate n Undo) s) = s.
Proof.
  induction n as [|n IH]; intros s Hinv Hn.
  { simpl. split; [lia|done]. }
  destruct (undo_at_cursor s Hinv) as (o & _ & _ & Hu); [lia|].
  destruct (IH (undo s).1) as [Hc Hback].
  { by apply inv_undo. }
  { rewrite Hu. simpl. lia. }
  split.
  - change (run (replicate (S n) Undo) s)
      with (run (replicate n Undo) (undo s).1).
    rewrite Hc, Hu. simpl. lia.
  - rewrite (replicate_snoc n Redo), run_snoc.
    change (run (replicate (S n) Undo) s)
      with (run (replicate n Undo) (undo s).1).
    rewrite Hback. simpl. apply undo_then_redo; [done|lia].
Qed.

(** X5: in every reachable state, n Undo calls, for n up to the number of
    active entries, move the cursor down by n, and n Redo calls after them
    bring the whole ledger back. *)
Theorem undo_n_redo_n_round_trip (s : t) (n : nat) :
  reachable s →
  Z.of_nat n ≤ currentIndex s + 1 →
  currentIndex (run (replicate n Undo) s) = currentIndex s - Z.of_nat n ∧
  run (replicate n Redo) (run (replicate n Undo) s) = s.
Proof. intros Hinv%inv_reachable. by apply undos_then_redos. Qed.

Lemma find_op_appended l o :
  Forall (λ e, id e ≠ id o) l →
  find_op (id o) (l ++ [o]) = Some (length l, o).
Proof.
  intros Hl. unfold find_op. rewrite list_find_app_r.
  - simpl. by rewrite decide_True.
  - by apply list_find_None.
Qed.

(** X6: points that arrive after the Finalize of their operation end up
    where they would have, had they arrived before it.  For a pending
    operation whose id no kept entry of the history bears, and for every
    points argument, Finalize followed by Extend and Extend followed by
    Finalize leave the same ledger, and Extend completes the same way in
    both orders: normally, with the points appended to the operation,
    when the argument can be spread; by throwing, with nothing stored,
    when it cannot (it is not iterable, or it is longer than the engine's
    argument limit). *)
Theorem late_points_commute_with_finalize
    (s : t) (oid : string) (o : operation) (pts : points_arg) :
  activeOperations s !! oid = Some o →
  id o = oid →
  -1 ≤ currentIndex s →
  Forall (λ e, id e ≠ oid)
    (take (Z.to_nat (currentIndex s + 1)) (operations s)) →
  addPoints (endOperation s oid) oid pts
    = (endOperation (addPoints s oid pts).1 oid, (addPoints s oid pts).2) ∧
  (addPoints s oid pts).2 =
    match spread pts with Normal _ => Normal () | Throw => Throw end ∧
  operations (addPoints (endOperation s oid) oid pts).1 =
    take (Z.to_nat (currentIndex s + 1)) (operations s)
      ++ [set_status active
            match spread pts with
            | Normal ps => push_points ps o
            | Throw => o
            end].
Proof.
  intros Ho Hid Hc Hfresh.
  assert (Hlate : ∀ o', id o' = oid →
    addPoints
      (Make (take (Z.to_nat (currentIndex s + 1)) (operations s)
               ++ [set_status active o'])
            (currentIndex s + 1) (delete oid (activeOperations s))) oid pts
    = match spread pts with
      | Normal ps =>
          (Make (take (Z.to_nat (currentIndex s + 1)) (operations s)
                   ++ [push_points ps (set_status active o')])
                (currentIndex s + 1) (delete oid (activeOperations s)),
           Normal ())
      | Throw =>
          (Make (take (Z.to_nat (currentIndex s + 1)) (operations s)
                   ++ [set_status active o'])
                (currentIndex s + 1) (delete oid (activeOperations s)), Throw)
      end).
  { intros o' Hid'. unfold addPoints. simpl. rewrite lookup_delete_eq.
    replace oid with (id (set_status active o')) at 1 by done.
    rewrite find_op_appended by (simpl; by rewrite Hid').
    rewrite decide_True by done.
    destruct (spread pts) as [ps|]; [|done].
    replace (length (take (Z.to_nat (currentIndex s + 1)) (operations s)))
      with (length (take (Z.to_nat (currentIndex s + 1)) (operations s)) + 0)%nat
      by lia.
    by rewrite insert_app_r. }
  assert (Hadd : addPoints s oid pts =
    match spread pts with
    | Normal ps =>
        (Make (operations s) (currentIndex s)
              (<[oid := push_points ps o]> (activeOperations s)), Normal ())
    | Throw => (s, Throw)
    end).
  { unfold addPoints. by rewrite Ho. }
  rewrite (endOperation_pending _ _ _ Ho Hc), (Hlate o Hid), Hadd.
  destruct (spread pts) as [ps|]; simpl.
  - rewrite (endOperation_pending _ oid (push_points ps o)); simpl;
      [|apply lookup_insert_eq|done].
    by rewrite delete_insert_eq.
  - by rewrite (endOperation_pending _ _ _ Ho Hc).
Qed.

(** X7: in every reachable state Undo, Redo and Extend never add, remove or
    reorder entries of the history: the ids of its entries, in order, are
    the same after the call. *)
Theorem history_only_retagged (s : t) (c : command) :
  reachable s →
  (c = Undo ∨ c = Redo ∨ ∃ oid pts, c = Extend oid pts) →
  id <$> operations (exec s c) = id <$> operations s.
Proof.
  intros Hinv%inv_reachable [->|[->|(oid & pts & ->)]]; simpl.
  - apply (ids_undo s Hinv).
  - apply (ids_redo s Hinv).
  - unfold addPoints.
    destruct (activeOperations s !! oid); [by destruct (spread pts)|].
    destruct (find_op oid (operations s)) as [[i o]|] eqn:Hf; [|done].
    destruct (decide (status o = active)); [|done].
    destruct (spread pts) as [ps|]; [|done]. simpl.
    apply list_find_Some in Hf as (Hi & _ & _).
    by apply ids_insert_same with o.
Qed.

(** X8: if no two Open calls of a history returned the same id, then in
    the state it leaves Finalize on the id of any entry of the history
    changes nothing: a finalize delivered twice is harmless. *)
Theorem finalize_twice_with_distinct_ids (cs : list command) (o : operation) :
  NoDup (open_ids cs) → o ∈ operations (run cs new) →
  endOperation (run cs new) (id o) = run cs new.
Proof. apply finalize_again_distinct_ids. Qed.

(** *** The theorems at the sample histories *)

Lemma undo_acts_at_the_cursor_witness :
  reachable Scenario.two_strokes ∧ 0 ≤ currentIndex Scenario.two_strokes ∧
  undo Scenario.two_strokes
    = (Scenario.one_undone, Normal (Some Scenario.bob_undone)).
Proof.
  split; [exact two_strokes_reachable|]. split; [by vm_compute|].
  destruct (proj2 (undo_acts_at_the_cursor _ two_strokes_reachable))
    as (o & Ho & _ & ->); [by vm_compute|].
  vm_compute in Ho. injection Ho as <-. reflexivity.
Defined.

Lemma one_undone_reachable : reachable Scenario.one_undone.
Proof.
  exists [Open Scenario.ann_brush 100 100; Finalize "op-sock1-100";
          Open Scenario.bob_rect 105 105; Finalize "op-sock2-105"; Undo].
  reflexivity.
Defined.

Lemma redo_one_undone :
  redo Scenario.one_undone
    = (Scenario.two_strokes,
       Normal (Some (set_status active Scenario.bob_undone))).
Proof. reflexivity. Defined.

Lemma redo_acts_after_the_cursor_witness :
  reachable Scenario.one_undone ∧
  currentIndex Scenario.one_undone
    < Z.of_nat (length (operations Scenario.one_undone)) - 1 ∧
  redo Scenario.one_undone
    = (Scenario.two_strokes,
       Normal (Some (set_status active Scenario.bob_undone))).
Proof.
  split; [exact one_undone_reachable|]. split; [by vm_compute|].
  destruct (proj2 (redo_acts_after_the_cursor _ one_undone_reachable))
    as (o & Ho & _ & ->); [by vm_compute|].
  vm_compute in Ho. injection Ho as <-. reflexivity.
Defined.

Lemma active_operations_are_the_prefix_witness :
  reachable Scenario.one_undone ∧
  getActiveOperations Scenario.one_undone
    = [ {| v_id := "op-sock1-100"; v_userId := "sock1";
           v_username := JStr "Ann"; v_type := JStr "brush";
           v_color := JStr "#000000"; v_width := JNum 2;
           v_points := [Point (JNum 0) (JNum 0)]; v_timestamp := 100 |} ] ∧
  getActiveOperationCount Scenario.one_undone = 1%nat ∧
  getOperationCount Scenario.one_undone = 2%nat.
Proof.
  split; [exact one_undone_reachable|].
  destruct (active_operations_are_the_prefix _ one_undone_reachable)
    as (-> & _ & _).
  repeat split; reflexivity.
Defined.

Lemma redo_undo_round_trip_witness :
  reachable Scenario.one_undone ∧
  redo Scenario.one_undone
    = (Scenario.two_strokes,
       Normal (Some (set_status active Scenario.bob_undone))) ∧
  undo Scenario.two_strokes
    = (Scenario.one_undone,
       Normal (Some (set_status undone
                       (set_status active Scenario.bob_undone)))).
Proof.
  split; [exact one_undone_reachable|]. split; [exact redo_one_undone|].
  exact (proj2 (redo_undo_round_trip _ _ _ one_undone_reachable redo_one_undone)).
Defined.

Lemma undo_n_redo_n_round_trip_witness :
  reachable Scenario.two_strokes ∧
  Z.of_nat 2 ≤ currentIndex Scenario.two_strokes + 1 ∧
  currentIndex (run [Undo; Undo] Scenario.two_strokes) = -1 ∧
  run [Redo; Redo] (run [Undo; Undo] Scenario.two_strokes)
    = Scenario.two_strokes.
Proof.
  split; [exact two_strokes_reachable|].
  assert (Hn : Z.of_nat 2 ≤ currentIndex Scenario.two_strokes + 1)
    by (by vm_compute).
  split; [exact Hn|].
  destruct (undo_n_redo_n_round_trip _ 2 two_strokes_reachable Hn) as [Hc Hb].
  split; [exact Hc|exact Hb].
Defined.

Lemma late_points_commute_with_finalize_witness :
  let s := (startOperation Scenario.two_strokes Scenario.ann_line 110 110).1 in
  activeOperations s !! "op-sock1-110"
    = Some (fresh_operation Scenario.ann_line 110 110) ∧
  (points <$> operations
     (addPoints (endOperation s "op-sock1-110") "op-sock1-110"
        (Elements [Point (JNum 8) (JNum 8)])).1) !! 2%nat
    = Some [Point (JNum 7) (JNum 9); Point (JNum 8) (JNum 8)] ∧
  addPoints (endOperation s "op-sock1-110") "op-sock1-110"
    (Elements [Point (JNum 8) (JNum 8)])
  = (endOperation
       (addPoints s "op-sock1-110" (Elements [Point (JNum 8) (JNum 8)])).1
       "op-sock1-110", Normal ()) ∧
  addPoints (endOperation s "op-sock1-110") "op-sock1-110"
    (Overlong [Point (JNum 8) (JNum 8)])
  = (endOperation s "op-sock1-110", Throw).
Proof.
  cbv zeta.
  assert (Hfresh : Forall (λ e, id e ≠ "op-sock1-110")
            (take (Z.to_nat
                     (currentIndex
                        (startOperation Scenario.two_strokes Scenario.ann_line
                           110 110).1 + 1))
               (operations
                  (startOperation Scenario.two_strokes Scenario.ann_line
                     110 110).1))).
  { vm_compute. repeat constructor; discriminate. }
  assert (Hc : -1 ≤ currentIndex
            (startOperation Scenario.two_strokes Scenario.ann_line 110 110).1)
    by (by vm_compute).
  assert (Ho : activeOperations
            (startOperation Scenario.two_strokes Scenario.ann_line 110 110).1
            !! "op-sock1-110" = Some (fresh_operation Scenario.ann_line 110 110))
    by reflexivity.
  split; [exact Ho|]. split; [reflexivity|]. split.
  - exact (proj1 (late_points_commute_with_finalize _ "op-sock1-110" _
                    (Elements [Point (JNum 8) (JNum 8)])
                    Ho eq_refl Hc Hfresh)).
  - exact (proj1 (late_points_commute_with_finalize _ "op-sock1-110" _
                    (Overlong [Point (JNum 8) (JNum 8)])
                    Ho eq_refl Hc Hfresh)).
Defined.

Lemma history_only_retagged_witness :
  reachable Scenario.two_strokes ∧
  id <$> operations (exec Scenario.two_strokes Undo)
    = ["op-sock1-100"; "op-sock2-105"].
Proof.
  split; [exact two_strokes_reachable|].
  rewrite (history_only_retagged _ Undo two_strokes_reachable); [reflexivity|].
  by left.
Defined.

Lemma finalize_twice_with_distinct_ids_witness :
  let cs := [Open Scenario.ann_brush 100 100; Finalize "op-sock1-100";
             Open Scenario.bob_rect 105 105; Finalize "op-sock2-105"] in
  NoDup (open_ids cs) ∧
  endOperation (run cs new) "op-sock1-100" = run cs new.
Proof.
  cbv zeta.
  assert (Hnd : NoDup (open_ids
            [Open Scenario.ann_brush 100 100; Finalize "op-sock1-100";
             Open Scenario.bob_rect 105 105; Finalize "op-sock2-105"])).
  { simpl. apply NoDup_cons. split.
    - intros Hin. apply list_elem_of_singleton in Hin. discriminate Hin.
    - apply NoDup_singleton. }
  split; [exact Hnd|].
  apply (finalize_twice_with_distinct_ids _
           (set_status active (fresh_operation Scenario.ann_brush 100 100)) Hnd).
  apply list_elem_of_lookup. by exists 0%nat.
Defined.

End LedgerMore.

(** * Further properties of the registry *)

Module RegistryMore.
Import RoomManager RegistryFacts.

Lemma palette_color_defined n :
  ∃ c, userColors !! (n mod 8)%nat = Some c ∧ palette_color n = JStr c.
Proof.
  unfold palette_color. change (length userColors) with 8%nat.
  destruct (lookup_lt_is_Some_2 userColors (n mod 8)%nat) as [c Hc].
  { change (length userColors) with 8%nat. apply Nat.mod_upper_bound. lia. }
  exists c. by rewrite Hc.
Qed.

Lemma colorIndex_after_addUser rm roomId uid name now :
  is_Some (rooms rm !! roomId) ∨ printable roomId = true →
  colorIndex (found_or_new (addUser rm roomId uid name now).1 roomId)
    = S (colorIndex (found_or_new rm roomId)).
Proof.
  intros H. destruct (addUser_result rm roomId uid name now H) as [_ Hr].
  unfold found_or_new at 1. by rewrite Hr.
Qed.

(** For a room id that does not convert to a string no call returns: the
    first one throws in [getRoom] or in its own log call, the later ones
    in their log calls. *)
Lemma addUser_unprintable_room rm roomId uid name now :
  printable roomId = false → (addUser rm roomId uid name now).2 = Throw.
Proof.
  intros Hp. unfold addUser, getRoom.
  destruct (rooms rm !! roomId); simpl.
  - rewrite template_addUser, Hp. by rewrite andb_false_r.
  - by rewrite template_one, Hp.
Qed.

Lemma addUsers_unprintable_room joiners : ∀ rm roomId,
  printable roomId = false →
  Forall (λ c, c = Throw) (RoomOps.addUsers rm roomId joiners).2.
Proof.
  induction joiners as [|[[uid name] now] rest IH]; intros rm roomId Hp;
    [constructor|].
  simpl. pose proof (addUser_unprintable_room rm roomId uid name now Hp) as Hu.
  destruct (addUser rm roomId uid name now) as [rm1 cu]. simpl in Hu.
  specialize (IH rm1 roomId Hp).
  destruct (RoomOps.addUsers rm1 roomId rest) as [rm2 us]. simpl in *.
  by constructor.
Qed.

Lemma addUsers_returns joiners : ∀ rm roomId k uid name now,
  printable roomId = true →
  joiners !! k = Some (uid, name, now) →
  (RoomOps.addUsers rm roomId joiners).2 !! k =
    Some (if printable name
          then Normal {| u_id := uid; u_username := name;
                         u_color :=
                           palette_color (colorIndex (found_or_new rm roomId) + k);
                         joinedAt := now |}
          else Throw).
Proof.
  induction joiners as [|[[uid0 name0] now0] rest IH];
    intros rm roomId k uid name now Hp Hk; [done|].
  simpl.
  pose proof (colorIndex_after_addUser rm roomId uid0 name0 now0 (or_intror Hp))
    as Hci.
  destruct (addUser_result rm roomId uid0 name0 now0 (or_intror Hp)) as [Hu _].
  destruct (addUser rm roomId uid0 name0 now0) as [rm1 cu]. simpl in *.
  specialize (IH rm1 roomId).
  destruct (RoomOps.addUsers rm1 roomId rest) as [rm2 us]. simpl in *.
  destruct k as [|k]; simpl in *.
  - injection Hk as -> -> ->. rewrite Hu, Hp, andb_true_r, Nat.add_0_r. done.
  - rewrite (IH k uid name now Hp Hk), Hci.
    by replace (S (colorIndex (found_or_new rm roomId)) + k)%nat
      with (colorIndex (found_or_new rm roomId) + S k)%nat by lia.
Qed.

(** X9: presence colors are handed out round-robin.  In a room whose id
    converts to a string, the participants added one after the other get
    the palette colors at the room's color cursor, cursor + 1, ...: the
    k-th call (counting from 0) returns a record with the color at cursor
    + k, or, when the name does not convert to a string, throws with that
    color spent.  In a room that did not exist the k-th color is
    [userColors[k mod 8]], always one of the eight colors. *)
Theorem colors_round_robin
    (rm : t) (roomId : jsval) (joiners : list (string * jsval * N))
    (k : nat) (uid : string) (name : jsval) (now : N) :
  printable roomId = true →
  joiners !! k = Some (uid, name, now) →
  (RoomOps.addUsers rm roomId joiners).2 !! k =
    Some (if printable name
          then Normal {| u_id := uid; u_username := name;
                         u_color :=
                           palette_color (colorIndex (found_or_new rm roomId) + k);
                         joinedAt := now |}
          else Throw) ∧
  (rooms rm !! roomId = None →
   ∃ c, userColors !! (k mod 8)%nat = Some c ∧
        palette_color (colorIndex (found_or_new rm roomId) + k) = JStr c).
Proof.
  intros Hp Hk. split; [by apply addUsers_returns|].
  intros Hnone. unfold found_or_new. rewrite Hnone. simpl.
  apply palette_color_defined.
Qed.

(** X10: the room goes with its last participant.  When removeUser takes
    the last participant off a roster, the room leaves the registry (the
    call then returns, or throws in its log call when the room id does not
    convert to a string), and a later getRoom under the same id stores a
    new room: empty ledger, empty roster, color cursor 0, whatever the
    history was. *)
Theorem last_leave_deletes_room
    (rm : t) (roomId : jsval) (r : room) (uid : string) :
  rooms rm !! roomId = Some r →
  JsMap.size (JsMap.delete uid (users r)) = 0%nat →
  let rm' := (removeUser rm roomId uid).1 in
  rooms rm' = delete roomId (rooms rm) ∧
  (removeUser rm roomId uid).2
    = (if printable roomId then Normal () else Throw) ∧
  RoomOps.getUserCount rm' roomId = 0%nat ∧
  rooms (getRoom rm' roomId).1 !! roomId = Some new_room ∧
  (printable roomId = true →
   (getRoom rm' roomId).2 = Normal new_room ∧
   (getRoomState rm' roomId).2
     = Normal {| rs_operations := []; rs_users := [] |}).
Proof.
  intros Hr Hsize. cbv zeta.
  assert (Hrm : removeUser rm roomId uid =
            ({| rooms := delete roomId (rooms rm) |},
             if printable roomId then Normal () else Throw)).
  { unfold removeUser. rewrite Hr, template_one. by rewrite decide_True. }
  rewrite Hrm. simpl.
  assert (Hgone : rooms {| rooms := delete roomId (rooms rm) |} !! roomId = None)
    by apply lookup_delete_eq.
  split; [done|]. split; [done|].
  split; [by unfold RoomOps.getUserCount; rewrite Hgone|].
  rewrite getRoom_lookup. unfold found_or_new. rewrite Hgone.
  split; [done|]. intros Hp.
  unfold getRoomState. rewrite (getRoom_absent _ _ Hgone), Hp. done.
Qed.

(** X11: joining a room that does not exist and leaving it again leaves
    the registry exactly as it was, also when one of the two calls, or
    both, throw in their log calls. *)
Theorem join_then_leave_restores_registry
    (rm : t) (roomId : jsval) (uid : string) (name : jsval) (now : N) :
  rooms rm !! roomId = None →
  (removeUser (addUser rm roomId uid name now).1 roomId uid).1 = rm.
Proof.
  intros Hnone. unfold addUser. rewrite (getRoom_absent _ _ Hnone).
  destruct (printable roomId); simpl;
    unfold removeUser; simpl; rewrite lookup_insert_eq; simpl.
  - destruct (decide (uid = uid)); [|done]. simpl.
    rewrite !delete_insert_eq, delete_id by done. by destruct rm.
  - rewrite delete_insert_eq, delete_id by done. by destruct rm.
Qed.

(** X12: calls on a room that does not exist.  The calls forwarded to a
    ledger, removeUser and getUserCount leave the registry as it is and
    report nothing; getRoomState and startOperation, which go through
    getRoom, create the room: afterwards the registry holds one more room,
    with no participant; startOperation has thrown, and so has
    getRoomState if the room id does not convert to a string. *)
Theorem calls_on_a_missing_room
    (rm : t) (roomId operationId : jsval) (uid : string)
    (pts : points_arg) (d : option draw_start_data) (t1 t2 : N) :
  rooms rm !! roomId = None →
  RoomOps.addPoints rm roomId operationId pts = (rm, Normal ()) ∧
  RoomOps.endOperation rm roomId operationId = (rm, Normal ()) ∧
  RoomOps.undo rm roomId = (rm, Normal None) ∧
  RoomOps.redo rm roomId = (rm, Normal None) ∧
  RoomOps.clearCanvas rm roomId = rm ∧
  removeUser rm roomId uid = (rm, Normal ()) ∧
  RoomOps.getUserCount rm roomId = 0%nat ∧
  getRoomState rm roomId
    = ({| rooms := <[roomId := new_room]> (rooms rm) |},
       if printable roomId
       then Normal {| rs_operations := []; rs_users := [] |}
       else Throw) ∧
  startOperation rm roomId uid d t1 t2
    = ({| rooms := <[roomId := new_room]> (rooms rm) |}, Throw) ∧
  RoomOps.getRoomCount (getRoomState rm roomId).1 = S (RoomOps.getRoomCount rm).
Proof.
  intros Hnone.
  unfold RoomOps.addPoints, RoomOps.endOperation, RoomOps.undo, RoomOps.redo,
    RoomOps.clearCanvas, removeUser, RoomOps.getUserCount, getRoomState,
    startOperation, RoomOps.getRoomCount.
  rewrite (getRoom_absent _ _ Hnone), Hnone. simpl.
  repeat (split; [done|]).
  split; [by destruct (printable roomId)|].
  split; [by destruct (printable roomId)|].
  destruct (printable roomId); simpl; by rewrite map_size_insert_None.
Qed.

(** X13: rooms do not interfere.  No call made for one room changes the
    record (ledger, roster, color cursor) of a room with another id, or
    creates or deletes it, whether the call returns or throws. *)
Theorem other_rooms_untouched
    (rm : t) (roomId other operationId : jsval) (uid : string) (name : jsval)
    (pts : points_arg) (d : option draw_start_data) (now t1 t2 : N) :
  roomId ≠ other →
  rooms (addUser rm roomId uid name now).1 !! other = rooms rm !! other ∧
  rooms (removeUser rm roomId uid).1 !! other = rooms rm !! other ∧
  rooms (getRoomState rm roomId).1 !! other = rooms rm !! other ∧
  rooms (startOperation rm roomId uid d t1 t2).1 !! other = rooms rm !! other ∧
  rooms (RoomOps.addPoints rm roomId operationId pts).1 !! other
    = rooms rm !! other ∧
  rooms (RoomOps.endOperation rm roomId operationId).1 !! other
    = rooms rm !! other ∧
  rooms (RoomOps.undo rm roomId).1 !! other = rooms rm !! other ∧
  rooms (RoomOps.redo rm roomId).1 !! other = rooms rm !! other ∧
  rooms (RoomOps.clearCanvas rm roomId) !! other = rooms rm !! other.
Proof.
  intros Hne.
  assert (Hg : rooms (getRoom rm roomId).1 !! other = rooms rm !! other).
  { unfold getRoom. destruct (rooms rm !! roomId); simpl; [done|].
    by rewrite lookup_insert_ne. }
  repeat split.
  - by apply addUser_other_room.
  - unfold removeUser. destruct (rooms rm !! roomId) as [r|]; [|done].
    destruct (decide _); simpl;
      [by rewrite lookup_delete_ne|by rewrite lookup_insert_ne].
  - unfold getRoomState. by destruct (getRoom rm roomId) as [rm1 [r|]].
  - unfold startOperation. destruct (getRoom rm roomId) as [rm1 [r|]];
      simpl in *; [|done].
    destruct (JsMap.get uid (users r)), d; simpl; try done.
    by rewrite lookup_insert_ne.
  - unfold RoomOps.addPoints. destruct (rooms rm !! roomId) as [r|]; [|done].
    destruct operationId; try done.
    destruct (DrawingState.addPoints _ _ _). simpl. by rewrite lookup_insert_ne.
  - unfold RoomOps.endOperation. destruct (rooms rm !! roomId) as [r|]; [|done].
    destruct operationId; try done. simpl. by rewrite lookup_insert_ne.
  - unfold RoomOps.undo. destruct (rooms rm !! roomId) as [r|]; [|done].
    destruct (DrawingState.undo _). simpl. by rewrite lookup_insert_ne.
  - unfold RoomOps.redo. destruct (rooms rm !! roomId) as [r|]; [|done].
    destruct (DrawingState.redo _). simpl. by rewrite lookup_insert_ne.
  - unfold RoomOps.clearCanvas. destruct (rooms rm !! roomId) as [r|]; [|done].
    simpl. by rewrite lookup_insert_ne.
Qed.

(** *** The theorems at sample registries *)

Lemma colors_round_robin_witness :
  printable (JStr "studio") = true ∧
  Play.nine_joiners !! 8%nat = Some ("s8", JStr "i", 8%N) ∧
  rooms RoomManager.new !! JStr "studio" = None ∧
  (RoomOps.addUsers RoomManager.new (JStr "studio") Play.nine_joiners).2
    !! 8%nat
    = Some (Normal {| u_id := "s8"; u_username := JStr "i";
                      u_color := JStr "#3b82f6"; joinedAt := 8 |}).
Proof.
  split; [reflexivity|]. split; [reflexivity|]. split; [reflexivity|].
  exact (proj1 (colors_round_robin RoomManager.new (JStr "studio")
                  Play.nine_joiners 8 "s8" (JStr "i") 8 eq_refl eq_refl)).
Defined.

Lemma ann_room :
  ∃ r, rooms Scenario.ann_joins.1.1 !! JStr "studio" = Some r ∧
       JsMap.size (JsMap.delete "sock1" (users r)) = 0%nat.
Proof. eexists. split; reflexivity. Defined.

Lemma last_leave_deletes_room_witness :
  ∃ r, rooms Scenario.ann_joins.1.1 !! JStr "studio" = Some r ∧
       JsMap.size (JsMap.delete "sock1" (users r)) = 0%nat ∧
       rooms (getRoom (removeUser Scenario.ann_joins.1.1 (JStr "studio")
                         "sock1").1 (JStr "studio")).1 !! JStr "studio"
         = Some new_room.
Proof.
  destruct ann_room as (r & Hr & Hz). exists r.
  split; [exact Hr|]. split; [exact Hz|].
  exact (proj1 (proj2 (proj2 (proj2
           (last_leave_deletes_room _ _ _ _ Hr Hz))))).
Defined.

Lemma join_then_leave_restores_registry_witness :
  rooms RoomManager.new !! JStr "studio" = None ∧
  (removeUser (addUser RoomManager.new (JStr "studio") "sock1" (JStr "Ann") 50).1
     (JStr "studio") "sock1").1 = RoomManager.new.
Proof.
  split; [reflexivity|].
  exact (join_then_leave_restores_registry RoomManager.new (JStr "studio")
           "sock1" (JStr "Ann") 50 eq_refl).
Defined.

Lemma calls_on_a_missing_room_witness :
  rooms RoomManager.new !! JStr "nowhere" = None ∧
  RoomOps.getRoomCount (getRoomState RoomManager.new (JStr "nowhere")).1 = 1%nat ∧
  RoomOps.undo RoomManager.new (JStr "nowhere") = (RoomManager.new, Normal None).
Proof.
  split; [reflexivity|].
  destruct (calls_on_a_missing_room RoomManager.new (JStr "nowhere") JUndef
              "sock1" NotIterable None 0 0 eq_refl)
    as (_ & _ & Hundo & _ & _ & _ & _ & _ & _ & Hcount).
  split; [exact Hcount|exact Hundo].
Defined.

Lemma other_rooms_untouched_witness :
  JStr "lobby" ≠ JStr "studio" ∧
  rooms (RoomOps.clearCanvas Scenario.ann_joins.1.1 (JStr "lobby"))
    !! JStr "studio" = rooms Scenario.ann_joins.1.1 !! JStr "studio" ∧
  rooms (addUser Scenario.ann_joins.1.1 (JStr "lobby") "sock2" (JStr "Bob") 60).1
    !! JStr "studio" = rooms Scenario.ann_joins.1.1 !! JStr "studio".
Proof.
  assert (Hne : JStr "lobby" ≠ JStr "studio") by discriminate.
  split; [exact Hne|].
  destruct (other_rooms_untouched Scenario.ann_joins.1.1 (JStr "lobby")
              (JStr "studio") JUndef "sock2" (JStr "Bob") NotIterable None
              60 0 0 Hne)
    as (Hadd & _ & _ & _ & _ & _ & _ & _ & Hclear).
  split; [exact Hclear|exact Hadd].
Defined.

End RegistryMore.

(** * Further properties of the router *)

Module RouterMore.
Import RoomManager Server Router RegistryFacts RouterFacts.

Lemma with_ledger_same rm roomId r :
  rooms rm !! roomId = Some r →
  RoomOps.with_ledger rm roomId r (drawingState r) = rm.
Proof.
  intros Hr. unfold RoomOps.with_ledger. destruct rm as [rs]. simpl in *.
  f_equal. apply insert_id. by destruct r.
Qed.

Lemma found_or_new_present rm roomId r :
  rooms rm !! roomId = Some r → found_or_new rm roomId = r.
Proof. intros Hr. unfold found_or_new. by rewrite Hr. Qed.

(** What [getRoomState] returns is read off the registry it leaves. *)
Lemma getRoomState_reports rm roomId rm2 rs :
  getRoomState rm roomId = (rm2, Normal rs) →
  rs = state_of (found_or_new rm2 roomId).
Proof.
  unfold getRoomState. intros Hg.
  pose proof (getRoom_lookup rm roomId) as Hl.
  destruct (rooms rm !! roomId) as [r|] eqn:Hr.
  - rewrite (getRoom_present _ _ _ Hr) in Hg. injection Hg as <- <-.
    by rewrite (found_or_new_present _ _ _ Hr).
  - rewrite (getRoom_absent _ _ Hr) in Hg, Hl. simpl in Hl.
    destruct (printable roomId); [|done]. injection Hg as <- <-.
    unfold found_or_new. simpl. by rewrite lookup_insert_eq.
Qed.

Lemma resync_agrees_nil c rm : resync_agrees c (rm, []).
Proof. intros tg ops Hin. by inversion Hin. Qed.

Lemma resync_if_changed_agrees c res :
  resync_agrees c (resync_if_changed c res).
Proof.
  destruct res as [rm1 [[o|]|]]; simpl; try apply resync_agrees_nil.
  destruct (getRoomState rm1 (currentRoom c)) as [rm2 [rs|]] eqn:Hg;
    [|apply resync_agrees_nil].
  intros tg ops Hin. apply list_elem_of_singleton in Hin. injection Hin as -> ->.
  split; [done|]. simpl. by rewrite (getRoomState_reports _ _ _ _ Hg).
Qed.

(** X14: a resync always tells the truth.  Whatever [draw-end], [undo],
    [redo] and [clear-canvas] are given, every
    operations-updated event they emit is addressed to everyone in the
    sender's room and lists exactly the active operations of that room in
    the registry the handler leaves; [clear-canvas]'s literal empty list
    included. *)
Theorem resync_carries_the_active_operations
    (rm : RoomManager.t) (c : conn) (de : option draw_end_data) :
  resync_agrees c (on_draw_end rm c de) ∧
  resync_agrees c (on_undo rm c) ∧
  resync_agrees c (on_redo rm c) ∧
  resync_agrees c (on_clear_canvas rm c).
Proof.
  split; [|split; [|split]].
  - unfold on_draw_end. destruct (negb _); [apply resync_agrees_nil|].
    destruct de as [d|]; [|apply resync_agrees_nil].
    destruct (RoomOps.endOperation rm (currentRoom c) (de_operationId d))
      as [rm1 [[]|]]; [|apply resync_agrees_nil].
    destruct (getRoomState rm1 (currentRoom c)) as [rm2 [rs|]] eqn:Hg.
    + intros tg ops Hin. simpl in Hin.
      apply elem_of_cons in Hin as [Hin|Hin]; [discriminate Hin|].
      apply list_elem_of_singleton in Hin. injection Hin as -> ->.
      split; [done|]. simpl. by rewrite (getRoomState_reports _ _ _ _ Hg).
    + intros tg ops Hin. simpl in Hin.
      apply list_elem_of_singleton in Hin. discriminate Hin.
  - unfold on_undo. destruct (negb _); [apply resync_agrees_nil|].
    apply resync_if_changed_agrees.
  - unfold on_redo. destruct (negb _); [apply resync_agrees_nil|].
    apply resync_if_changed_agrees.
  - unfold on_clear_canvas. destruct (negb _); [apply resync_agrees_nil|].
    intros tg ops Hin. simpl in Hin.
    apply elem_of_cons in Hin as [Hin|Hin]; [discriminate Hin|].
    apply list_elem_of_singleton in Hin. injection Hin as -> ->.
    split; [done|]. simpl. unfold RoomOps.clearCanvas, found_or_new.
    destruct (rooms rm !! currentRoom c) as [r|] eqn:Hr.
    + simpl. by rewrite lookup_insert_eq.
    + by rewrite Hr.
Qed.

Lemma falsy_printable v : truthy v = false → printable v = true.
Proof. by destruct v. Qed.

(** X15: a room whose name is falsy is a dead end.  A join intent whose
    room, after the default, is the empty string, null, 0 or false puts the
    sender on the roster of that room (provided the handler gets past its
    leave step), but the sender's room variable is then falsy: every later
    drawing, undo, redo, clear and presence event of the connection is
    dropped without effect, and neither a disconnect nor the leave step of
    a later join takes the sender off that roster.  The participant
    variable is assigned unless the name does not convert to a string. *)
Theorem falsy_room_is_a_dead_end
    (rm : RoomManager.t) (c : conn) (jd : join_data) (now t1 t2 : N)
    (ds : option draw_start_data) (dm : option draw_move_data)
    (de : option draw_end_data) (cd : option cursor_data)
    (acts : list action) :
  (leave_previous rm c).2 = Normal acts →
  truthy (js_default (jd_room jd) (JStr "default")) = false →
  let rm' := (on_join_room rm c (Some jd) now).1.1 in
  let c' := (on_join_room rm c (Some jd) now).1.2 in
  (∃ r u, rooms rm' !! currentRoom c' = Some r ∧
          JsMap.get (socket_id c') (users r) = Some u ∧
          currentUser c' =
            if printable (js_or (jd_username jd) (default_username (socket_id c)))
            then Some u else currentUser c) ∧
  on_draw_start rm' c' ds t1 t2 = (rm', []) ∧
  on_draw_move rm' c' dm = (rm', []) ∧
  on_draw_end rm' c' de = (rm', []) ∧
  on_undo rm' c' = (rm', []) ∧
  on_redo rm' c' = (rm', []) ∧
  on_clear_canvas rm' c' = (rm', []) ∧
  on_cursor_move c' cd = [] ∧
  on_disconnect rm' c' = (rm', []) ∧
  leave_previous rm' c' = (rm', Normal []).
Proof.
  intros Hl Hf. cbv zeta. rewrite (on_join_room_result _ _ _ _ _ Hl).
  cbn [fst snd].
  destruct (addUser_result (after_leave rm c)
              (js_default (jd_room jd) (JStr "default")) (socket_id c)
              (js_or (jd_username jd) (default_username (socket_id c))) now
              (or_intror (falsy_printable _ Hf)))
    as [Hu Hr]. rewrite (falsy_printable _ Hf), andb_true_r in Hu.
  split.
  { eexists _, _. cbn [currentRoom socket_id currentUser].
    split; [exact Hr|]. split; [apply get_set_eq|].
    unfold joining. rewrite Hu. by destruct (printable _). }
  unfold on_draw_start, on_draw_move, on_draw_end, on_undo, on_redo,
    on_clear_canvas, on_cursor_move, on_disconnect, leave_previous.
  cbn [currentRoom socket_id currentUser]. rewrite Hf. simpl.
  repeat split; try done.
  - by destruct (joining rm c jd now).2, (currentUser c).
  - by destruct (joining rm c jd now).2, (currentUser c).
Qed.

Lemma view_of_set_status st o : view_of (set_status st o) = view_of o.
Proof. reflexivity. Qed.

(** X16: what [undo] broadcasts.  In a room whose ledger satisfies the
    cursor invariant, an [undo] event with nothing to undo emits nothing
    and leaves the registry as it is; otherwise it sends everyone in the
    room one resync that lists the entries of the history before the
    cursor: the active operations without the last one. *)
Theorem undo_handler_resync
    (rm : RoomManager.t) (c : conn) (r : room) :
  truthy (currentRoom c) = true →
  rooms rm !! currentRoom c = Some r →
  Ledger.ledger_inv (drawingState r) →
  (DrawingState.currentIndex (drawingState r) < 0 →
   on_undo rm c = (rm, [])) ∧
  (0 ≤ DrawingState.currentIndex (drawingState r) →
   (on_undo rm c).2 =
     [Send (ToAll (currentRoom c))
        (operations_updated
           (Ledger.rendered <$>
              take (Z.to_nat (DrawingState.currentIndex (drawingState r)))
                (DrawingState.operations (drawingState r))))]).
Proof.
  intros Ht Hr Hinv. unfold on_undo, RoomOps.undo. rewrite Ht, Hr. simpl.
  split.
  - intros Hneg. rewrite (LedgerFacts.undo_nothing _ Hneg). simpl.
    by rewrite with_ledger_same.
  - intros Hpos.
    pose proof (LedgerFacts.inv_undo _ Hinv) as Hinv1.
    pose proof (LedgerMore.filter_active_prefix _ Hinv1) as Hpre.
    destruct (LedgerFacts.undo_at_cursor _ Hinv Hpos) as (o & Ho & _ & Hu).
    rewrite Hu in *. simpl in *.
    erewrite getRoomState_present; [|apply lookup_insert_eq]. simpl.
    unfold DrawingState.getActiveOperations. simpl. rewrite Hpre.
    replace (Z.to_nat (DrawingState.currentIndex (drawingState r) - 1 + 1))
      with (Z.to_nat (DrawingState.currentIndex (drawingState r))) by lia.
    by rewrite take_insert_ge.
Qed.

(** X17: what [redo] broadcasts.  In a room whose ledger satisfies the
    cursor invariant, a [redo] event with nothing beyond the cursor emits
    nothing and leaves the registry as it is; otherwise it sends everyone
    in the room one resync that lists the entries of the history up to the
    one after the cursor: the active operations and the restored one. *)
Theorem redo_handler_resync
    (rm : RoomManager.t) (c : conn) (r : room) :
  truthy (currentRoom c) = true →
  rooms rm !! currentRoom c = Some r →
  Ledger.ledger_inv (drawingState r) →
  (Z.of_nat (length (DrawingState.operations (drawingState r))) - 1
     ≤ DrawingState.currentIndex (drawingState r) →
   on_redo rm c = (rm, [])) ∧
  (DrawingState.currentIndex (drawingState r)
     < Z.of_nat (length (DrawingState.operations (drawingState r))) - 1 →
   (on_redo rm c).2 =
     [Send (ToAll (currentRoom c))
        (operations_updated
           (Ledger.rendered <$>
              take (Z.to_nat (DrawingState.currentIndex (drawingState r) + 2))
                (DrawingState.operations (drawingState r))))]).
Proof.
  intros Ht Hr Hinv. unfold on_redo, RoomOps.redo. rewrite Ht, Hr. simpl.
  split.
  - intros Hend. rewrite (LedgerFacts.redo_nothing _ Hend). simpl.
    by rewrite with_ledger_same.
  - intros Hmore.
    pose proof (LedgerFacts.inv_redo _ Hinv) as Hinv1.
    pose proof (LedgerMore.filter_active_prefix _ Hinv1) as Hpre.
    destruct (LedgerFacts.redo_after_cursor _ Hinv Hmore) as (o & Ho & _ & Hu).
    rewrite Hu in *. simpl in *.
    erewrite getRoomState_present; [|apply lookup_insert_eq]. simpl.
    unfold DrawingState.getActiveOperations. simpl. rewrite Hpre.
    replace (Z.to_nat (DrawingState.currentIndex (drawingState r) + 1 + 1))
      with (Z.to_nat (DrawingState.currentIndex (drawingState r) + 2)) by lia.
    do 3 f_equal.
    rewrite <- (list_insert_id _ _ _ Ho) at 2.
    assert (Hlt : (Z.to_nat (DrawingState.currentIndex (drawingState r) + 1)
                   < Z.to_nat (DrawingState.currentIndex (drawingState r) + 2))%nat).
    { destruct Hinv as [[Hlo _] _]. lia. }
    rewrite !take_insert_lt, !list_fmap_insert by done.
    by rewrite view_of_set_status.
Qed.

(** X18: points for an operation the ledger does not know.  For a sender
    in an existing room, a [draw-move] whose operation id is neither
    pending nor in the history, or is no string at all, leaves the
    registry as it is; the id and the points are sent on to the others as
    received when the id converts to a string, and nothing is sent when
    it does not (the ledger's log call throws).  A [draw-move] for a
    pending operation whose points cannot be spread (they are not
    iterable, or too many) is dropped: nothing is stored and nothing is
    sent. *)
Theorem draw_move_relays_unknown_ids
    (rm : RoomManager.t) (c : conn) (r : room) (d : draw_move_data) :
  truthy (currentRoom c) = true →
  rooms rm !! currentRoom c = Some r →
  ((∀ oid, dm_operationId d = JStr oid →
      DrawingState.activeOperations (drawingState r) !! oid = None ∧
      DrawingState.find_op oid (DrawingState.operations (drawingState r)) = None) →
   on_draw_move rm c (Some d) =
     (rm, if printable (dm_operationId d)
          then [Send (ToOthers (currentRoom c))
                  (remote_draw_move (socket_id c) (dm_operationId d)
                     (dm_points d))]
          else [])) ∧
  ((∃ oid, dm_operationId d = JStr oid ∧
           is_Some (DrawingState.activeOperations (drawingState r) !! oid)) →
   spread (dm_points d) = Throw →
   on_draw_move rm c (Some d) = (rm, [])).
Proof.
  intros Ht Hr. unfold on_draw_move, RoomOps.addPoints. rewrite Ht, Hr. simpl.
  split.
  - intros Hunknown.
    destruct (dm_operationId d) as [| | | |oid|ref prints] eqn:Hid;
      try done.
    + destruct (Hunknown oid eq_refl) as [Hp Hf].
      unfold DrawingState.addPoints. rewrite Hp, Hf.
      by rewrite with_ledger_same.
    + rewrite template_one. simpl. by destruct prints.
  - intros (oid & Hid & [o Ho]) Hpts. rewrite Hid.
    unfold DrawingState.addPoints. rewrite Ho, Hpts.
    by rewrite with_ledger_same.
Qed.

(** X19: rejoining alone empties the room.  When the only participant of
    a room sends a join intent for that same room, the handler first
    removes it, which deletes the room, and then adds it to a new room of
    that name: the history and the pending operations are gone, the color
    cursor restarts and the participant gets the first palette color.
    When the name of the room does not convert to a string the handler
    stops after the deletion: the room is gone and the sender keeps its
    room variable. *)
Theorem rejoining_alone_resets_the_room
    (rm : RoomManager.t) (c : conn) (r : room) (u : user)
    (jd : join_data) (now : N) :
  truthy (currentRoom c) = true →
  rooms rm !! currentRoom c = Some r →
  users r = [(socket_id c, u)] →
  js_default (jd_room jd) (JStr "default") = currentRoom c →
  (printable (currentRoom c) = true →
   rooms (on_join_room rm c (Some jd) now).1.1 !! currentRoom c =
     Some {| drawingState := DrawingState.new;
             users :=
               [(socket_id c,
                 {| u_id := socket_id c;
                    u_username :=
                      js_or (jd_username jd) (default_username (socket_id c));
                    u_color := palette_color 0;
                    joinedAt := now |})];
             colorIndex := 1 |}) ∧
  (printable (currentRoom c) = false →
   on_join_room rm c (Some jd) now =
     ({| rooms := delete (currentRoom c) (rooms rm) |}, c, [join_failed])).
Proof.
  intros Ht Hr Hus Hroom.
  assert (Hleave : leave_previous rm c =
            ({| rooms := delete (currentRoom c) (rooms rm) |},
             if printable (currentRoom c)
             then Normal [SocketLeave (currentRoom c)] else Throw)).
  { unfold leave_previous, removeUser. rewrite Ht, Hr, Hus. simpl.
    destruct (decide (socket_id c = socket_id c)); [|done]. simpl.
    rewrite template_one. by destruct (printable (currentRoom c)). }
  split; intros Hp; rewrite Hp in Hleave.
  - rewrite (on_join_room_result _ _ _ _ [SocketLeave (currentRoom c)])
      by (by rewrite Hleave).
    cbn [fst]. unfold joining, after_leave. rewrite Hroom, Hleave. simpl.
    assert (Hgone : rooms {| rooms := delete (currentRoom c) (rooms rm) |}
                      !! currentRoom c = None) by apply lookup_delete_eq.
    destruct (addUser_result {| rooms := delete (currentRoom c) (rooms rm) |}
                (currentRoom c) (socket_id c)
                (js_or (jd_username jd) (default_username (socket_id c))) now
                (or_intror Hp))
      as [_ Hres].
    rewrite Hres. unfold found_or_new. rewrite Hgone. reflexivity.
  - rewrite on_join_room_leave_throws by (by rewrite Hleave).
    unfold after_leave. by rewrite Hleave.
Qed.

(** The join handler on a name that does not convert to a string, once it
    is past its leave step and [getRoom]. *)
Lemma join_with_unprintable_name rm c jd now acts :
  (leave_previous rm c).2 = Normal acts →
  printable (jd_username jd) = false →
  (is_Some (rooms (after_leave rm c)
              !! js_default (jd_room jd) (JStr "default")) ∨
   printable (js_default (jd_room jd) (JStr "default")) = true) →
  on_join_room rm c (Some jd) now =
    ((addUser (after_leave rm c) (js_default (jd_room jd) (JStr "default"))
        (socket_id c) (jd_username jd) now).1,
     {| socket_id := socket_id c;
        currentRoom := js_default (jd_room jd) (JStr "default");
        currentUser := currentUser c |},
     acts ++ [SocketJoin (js_default (jd_room jd) (JStr "default")); join_failed]).
Proof.
  intros Hl2 Hn Hroom.
  pose proof (leave_previous_eq rm c) as Hl. rewrite Hl2 in Hl.
  assert (Hname : js_or (jd_username jd) (default_username (socket_id c))
                  = jd_username jd).
  { unfold js_or. by destruct (jd_username jd). }
  destruct (addUser_result (after_leave rm c)
              (js_default (jd_room jd) (JStr "default")) (socket_id c)
              (jd_username jd) now Hroom) as [Hu _].
  rewrite Hn in Hu. simpl in Hu.
  unfold on_join_room. rewrite Hl, Hname.
  destruct (addUser (after_leave rm c)
              (js_default (jd_room jd) (JStr "default")) (socket_id c)
              (jd_username jd) now) as [rm2 cu]. simpl in *. by subst cu.
Qed.

(** X25: a name that does not convert to a string leaves the sender half
    joined.  When the handler gets past its leave step and [getRoom], the
    sender is put on the roster of the room, with the next palette color,
    and the room variable is set; then the log call of [addUser] throws:
    the participant variable keeps its old value, the sender gets the
    error event instead of the room's state, and nobody is told of the
    new participant.  On a connection that had not joined before, a later
    disconnect does nothing: the record stays on the roster. *)
Theorem unprintable_name_half_joins
    (rm : RoomManager.t) (c : conn) (jd : join_data) (now : N)
    (acts : list action) :
  (leave_previous rm c).2 = Normal acts →
  printable (jd_username jd) = false →
  (is_Some (rooms (after_leave rm c)
              !! js_default (jd_room jd) (JStr "default")) ∨
   printable (js_default (jd_room jd) (JStr "default")) = true) →
  let room := js_default (jd_room jd) (JStr "default") in
  let r0 := found_or_new (after_leave rm c) room in
  let rm' := (on_join_room rm c (Some jd) now).1.1 in
  let c' := (on_join_room rm c (Some jd) now).1.2 in
  (on_join_room rm c (Some jd) now).2 = acts ++ [SocketJoin room; join_failed] ∧
  currentRoom c' = room ∧
  currentUser c' = currentUser c ∧
  rooms rm' !! room =
    Some {| drawingState := drawingState r0;
            users := JsMap.set (socket_id c)
                       {| u_id := socket_id c; u_username := jd_username jd;
                          u_color := palette_color (colorIndex r0);
                          joinedAt := now |} (users r0);
            colorIndex := S (colorIndex r0) |} ∧
  (currentUser c = None → on_disconnect rm' c' = (rm', [])).
Proof.
  intros Hl Hn Hroom. cbv zeta.
  rewrite (join_with_unprintable_name rm c jd now acts Hl Hn Hroom).
  cbn [fst snd currentRoom currentUser].
  destruct (addUser_result (after_leave rm c)
              (js_default (jd_room jd) (JStr "default")) (socket_id c)
              (jd_username jd) now Hroom) as [_ Hr].
  split; [done|]. split; [done|]. split; [done|]. split; [exact Hr|].
  intros Hnone. unfold on_disconnect. simpl. by rewrite Hnone.
Qed.

(** X26: a room whose name does not convert to a string is created and
    left empty.  When such a room does not exist, the join handler (once
    past its leave step) sets the room variable and calls [addUser], whose
    [getRoom] stores the new room and throws in its log call: the room is
    in the registry without any participant, and the participant variable
    keeps its old value.  The next join intent of that connection,
    whatever it asks for, is refused: its leave step deletes the empty
    room and throws in the log call of [removeUser]. *)
Theorem unprintable_room_is_left_empty
    (rm : RoomManager.t) (c : conn) (jd jd' : join_data) (now now' : N)
    (acts : list action) :
  (leave_previous rm c).2 = Normal acts →
  printable (js_default (jd_room jd) (JStr "default")) = false →
  rooms (after_leave rm c) !! js_default (jd_room jd) (JStr "default") = None →
  let room := js_default (jd_room jd) (JStr "default") in
  let rm' := {| rooms := <[room := new_room]> (rooms (after_leave rm c)) |} in
  let c' := {| socket_id := socket_id c; currentRoom := room;
               currentUser := currentUser c |} in
  on_join_room rm c (Some jd) now
    = (rm', c', acts ++ [SocketJoin room; join_failed]) ∧
  RoomOps.getUserCount rm' room = 0%nat ∧
  on_join_room rm' c' (Some jd') now' = (after_leave rm c, c', [join_failed]).
Proof.
  intros Hl2 Hp Hnone. cbv zeta.
  pose proof (leave_previous_eq rm c) as Hl. rewrite Hl2 in Hl.
  assert (Ht : truthy (js_default (jd_room jd) (JStr "default")) = true)
    by (by destruct (js_default (jd_room jd) (JStr "default"))).
  split; [|split].
  - unfold on_join_room. rewrite Hl.
    by rewrite (addUser_unprintable_new_room _ _ _ _ _ Hnone Hp).
  - unfold RoomOps.getUserCount. simpl. by rewrite lookup_insert_eq.
  - assert (Hleave : leave_previous
              {| rooms := <[js_default (jd_room jd) (JStr "default") := new_room]>
                            (rooms (after_leave rm c)) |}
              {| socket_id := socket_id c;
                 currentRoom := js_default (jd_room jd) (JStr "default");
                 currentUser := currentUser c |}
            = (after_leave rm c, Throw)).
    { unfold leave_previous, removeUser. simpl.
      rewrite Ht, lookup_insert_eq. simpl.
      rewrite template_one, Hp, delete_insert_eq, delete_id by done.
      by destruct (after_leave rm c). }
    rewrite on_join_room_leave_throws by (by rewrite Hleave).
    unfold after_leave at 1. by rewrite Hleave.
Qed.

(** *** The theorems at the sample session *)

Lemma falsy_room_is_a_dead_end_witness :
  let joined := on_join_room RoomManager.new (connect "abcdef")
                  (Some Scenario.blank_room_long_name) 0 in
  (leave_previous RoomManager.new (connect "abcdef")).2 = Normal [] ∧
  truthy (js_default (jd_room Scenario.blank_room_long_name) (JStr "default"))
    = false ∧
  on_draw_start joined.1.1 joined.1.2 (Some Scenario.black_brush) 1 1
    = (joined.1.1, []) ∧
  on_disconnect joined.1.1 joined.1.2 = (joined.1.1, []) ∧
  RoomOps.getUserCount joined.1.1 (JStr "") = 1%nat.
Proof.
  cbv zeta.
  destruct (falsy_room_is_a_dead_end RoomManager.new (connect "abcdef")
              Scenario.blank_room_long_name 0 1 1
              (Some Scenario.black_brush) None None None [] eq_refl eq_refl)
    as (_ & Hds & _ & _ & _ & _ & _ & _ & Hdis & _).
  split; [reflexivity|]. split; [reflexivity|].
  split; [exact Hds|]. split; [exact Hdis|reflexivity].
Defined.

Lemma studio_room_ledger :
  ∃ r, rooms (registry Play.studio) !! JStr "studio" = Some r ∧
       DrawingState.currentIndex (drawingState r) = 0 ∧
       length (DrawingState.operations (drawingState r)) = 1%nat ∧
       Ledger.ledger_inv (drawingState r).
Proof.
  eexists. split; [reflexivity|]. split; [reflexivity|]. split; [reflexivity|].
  apply LedgerFacts.inv_reachable.
  exists [Ledger.Open
            {| sd_userId := "sock1"; sd_username := JStr "Ann";
               sd_x := JNum 10; sd_y := JNum 20; sd_color := JStr "#000000";
               sd_width := JNum 3; sd_tool := JStr "brush" |} 70 70;
          Ledger.Finalize "op-sock1-70"].
  reflexivity.
Defined.

Lemma undo_handler_resync_witness :
  ∃ r, rooms (registry Play.studio) !! JStr "studio" = Some r ∧
       Ledger.ledger_inv (drawingState r) ∧
       0 ≤ DrawingState.currentIndex (drawingState r) ∧
       (on_undo (registry Play.studio) Play.ann_conn).2
         = [Send (ToAll (JStr "studio")) (operations_updated [])].
Proof.
  destruct studio_room_ledger as (r & Hr & Hc & _ & Hinv). exists r.
  split; [exact Hr|]. split; [exact Hinv|].
  assert (Hpos : 0 ≤ DrawingState.currentIndex (drawingState r))
    by (rewrite Hc; done).
  split; [exact Hpos|].
  rewrite (proj2 (undo_handler_resync (registry Play.studio) Play.ann_conn r
                    eq_refl Hr Hinv) Hpos).
  rewrite Hc. reflexivity.
Defined.

Lemma studio_undone_ledger :
  ∃ r, rooms (on_undo (registry Play.studio) Play.ann_conn).1 !! JStr "studio"
         = Some r ∧
       DrawingState.currentIndex (drawingState r) = -1 ∧
       length (DrawingState.operations (drawingState r)) = 1%nat ∧
       Ledger.ledger_inv (drawingState r).
Proof.
  eexists. split; [reflexivity|]. split; [reflexivity|]. split; [reflexivity|].
  apply LedgerFacts.inv_reachable.
  exists [Ledger.Open
            {| sd_userId := "sock1"; sd_username := JStr "Ann";
               sd_x := JNum 10; sd_y := JNum 20; sd_color := JStr "#000000";
               sd_width := JNum 3; sd_tool := JStr "brush" |} 70 70;
          Ledger.Finalize "op-sock1-70"; Ledger.Undo].
  reflexivity.
Defined.

Lemma redo_handler_resync_witness :
  (∃ r, rooms (registry Play.studio) !! JStr "studio" = Some r ∧
        Ledger.ledger_inv (drawingState r) ∧
        Z.of_nat (length (DrawingState.operations (drawingState r))) - 1
          ≤ DrawingState.currentIndex (drawingState r) ∧
        on_redo (registry Play.studio) Play.ann_conn
          = (registry Play.studio, [])) ∧
  (∃ r, rooms (on_undo (registry Play.studio) Play.ann_conn).1 !! JStr "studio"
          = Some r ∧
        Ledger.ledger_inv (drawingState r) ∧
        DrawingState.currentIndex (drawingState r)
          < Z.of_nat (length (DrawingState.operations (drawingState r))) - 1 ∧
        length (on_redo (on_undo (registry Play.studio) Play.ann_conn).1
                  Play.ann_conn).2 = 1%nat).
Proof.
  split.
  - destruct studio_room_ledger as (r & Hr & Hc & Hlen & Hinv). exists r.
    split; [exact Hr|]. split; [exact Hinv|].
    assert (Hend : Z.of_nat (length (DrawingState.operations (drawingState r))) - 1
                   ≤ DrawingState.currentIndex (drawingState r))
      by (rewrite Hc, Hlen; done).
    split; [exact Hend|].
    exact (proj1 (redo_handler_resync (registry Play.studio) Play.ann_conn r
                    eq_refl Hr Hinv) Hend).
  - destruct studio_undone_ledger as (r & Hr & Hc & Hlen & Hinv). exists r.
    split; [exact Hr|]. split; [exact Hinv|].
    assert (Hmore : DrawingState.currentIndex (drawingState r)
              < Z.of_nat (length (DrawingState.operations (drawingState r))) - 1)
      by (rewrite Hc, Hlen; done).
    split; [exact Hmore|].
    rewrite (proj2 (redo_handler_resync _ Play.ann_conn r eq_refl Hr Hinv) Hmore).
    reflexivity.
Defined.

Lemma draw_move_relays_unknown_ids_witness :
  let d := {| dm_operationId := JStr "op-sock9-1";
              dm_points := Elements [Point (JNum 1) (JNum 2)] |} in
  let d' := {| dm_operationId := Scenario.odd_id;
               dm_points := Elements [Point (JNum 1) (JNum 2)] |} in
  ∃ r, rooms (registry Play.studio) !! JStr "studio" = Some r ∧
       on_draw_move (registry Play.studio) Play.ann_conn (Some d)
         = (registry Play.studio,
            [Send (ToOthers (JStr "studio"))
               (remote_draw_move "sock1" (JStr "op-sock9-1")
                  (Elements [Point (JNum 1) (JNum 2)]))]) ∧
       on_draw_move (registry Play.studio) Play.ann_conn (Some d')
         = (registry Play.studio, []).
Proof.
  cbv zeta. destruct studio_room_ledger as (r & Hr & _). exists r.
  split; [exact Hr|]. split.
  - apply (proj1 (draw_move_relays_unknown_ids (registry Play.studio)
                    Play.ann_conn r
                    {| dm_operationId := JStr "op-sock9-1";
                       dm_points := Elements [Point (JNum 1) (JNum 2)] |}
                    eq_refl Hr)).
    intros oid Hoid. injection Hoid as <-.
    assert (Hr' : rooms (registry Play.studio) !! JStr "studio" = Some r)
      by exact Hr.
    vm_compute in Hr'. injection Hr' as <-. split; reflexivity.
  - apply (proj1 (draw_move_relays_unknown_ids (registry Play.studio)
                    Play.ann_conn r
                    {| dm_operationId := Scenario.odd_id;
                       dm_points := Elements [Point (JNum 1) (JNum 2)] |}
                    eq_refl Hr)).
    intros oid Hoid. discriminate Hoid.
Defined.

Lemma rejoining_alone_resets_the_room_witness :
  let jd := {| jd_username := JStr "Ann"; jd_room := JStr "studio" |} in
  ∃ r, rooms (registry Play.studio) !! JStr "studio" = Some r ∧
       length (DrawingState.operations (drawingState r)) = 1%nat ∧
       users r = [("sock1", Scenario.ann_user)] ∧
       ∃ r', rooms (on_join_room (registry Play.studio) Play.ann_conn
                      (Some jd) 90).1.1 !! JStr "studio" = Some r' ∧
             drawingState r' = DrawingState.new ∧ colorIndex r' = 1%nat.
Proof.
  cbv zeta. eexists. split; [reflexivity|]. split; [reflexivity|].
  split; [reflexivity|]. eexists. split.
  - exact (proj1 (rejoining_alone_resets_the_room (registry Play.studio)
                    Play.ann_conn _ Scenario.ann_user
                    {| jd_username := JStr "Ann"; jd_room := JStr "studio" |} 90
                    eq_refl eq_refl eq_refl eq_refl) eq_refl).
  - split; reflexivity.
Defined.

Lemma unprintable_name_half_joins_witness :
  let jd := {| jd_username := Scenario.odd_name; jd_room := JStr "studio" |} in
  let res := on_join_room RoomManager.new (connect "sock9") (Some jd) 5 in
  (leave_previous RoomManager.new (connect "sock9")).2 = Normal [] ∧
  printable (jd_username jd) = false ∧
  printable (js_default (jd_room jd) (JStr "default")) = true ∧
  res.2 = [SocketJoin (JStr "studio"); join_failed] ∧
  currentRoom res.1.2 = JStr "studio" ∧
  currentUser res.1.2 = None ∧
  RoomOps.getUserCount res.1.1 (JStr "studio") = 1%nat ∧
  on_disconnect res.1.1 res.1.2 = (res.1.1, []).
Proof.
  cbv zeta.
  destruct (unprintable_name_half_joins RoomManager.new (connect "sock9")
              {| jd_username := Scenario.odd_name; jd_room := JStr "studio" |}
              5 [] eq_refl eq_refl (or_intror eq_refl))
    as (Hacts & Hroom & Huser & _ & Hdis).
  split; [reflexivity|]. split; [reflexivity|]. split; [reflexivity|].
  split; [exact Hacts|]. split; [exact Hroom|].
  split; [exact Huser|]. split; [reflexivity|]. exact (Hdis eq_refl).
Defined.

Lemma unprintable_room_is_left_empty_witness :
  let jd := {| jd_username := JStr "Ann"; jd_room := Scenario.odd_room |} in
  let jd' := {| jd_username := JStr "Ann"; jd_room := JStr "studio" |} in
  let res := on_join_room RoomManager.new (connect "sock9") (Some jd) 5 in
  (leave_previous RoomManager.new (connect "sock9")).2 = Normal [] ∧
  printable (js_default (jd_room jd) (JStr "default")) = false ∧
  rooms (after_leave RoomManager.new (connect "sock9"))
    !! js_default (jd_room jd) (JStr "default") = None ∧
  rooms res.1.1 !! Scenario.odd_room = Some new_room ∧
  currentRoom res.1.2 = Scenario.odd_room ∧
  currentUser res.1.2 = None ∧
  on_join_room res.1.1 res.1.2 (Some jd') 6
    = (RoomManager.new, res.1.2, [join_failed]).
Proof.
  cbv zeta.
  destruct (unprintable_room_is_left_empty RoomManager.new (connect "sock9")
              {| jd_username := JStr "Ann"; jd_room := Scenario.odd_room |}
              {| jd_username := JStr "Ann"; jd_room := JStr "studio" |}
              5 6 [] eq_refl eq_refl eq_refl)
    as (Hjoin & _ & Hagain).
  rewrite Hjoin. split; [reflexivity|]. split; [reflexivity|].
  split; [reflexivity|]. split; [reflexivity|].
  split; [reflexivity|]. split; [reflexivity|]. exact Hagain.
Defined.

End RouterMore.

(** * Invariants of the running server *)

Module WorldFacts.
Import RoomManager Server Router RegistryFacts RouterFacts RouterMore.

Section JsMapMore.
Context {K V : Type} `{EqDecision K}.
Implicit Types (k : K) (v : V) (m : list (K * V)).

Lemma get_set_ne k k' v m :
  k ≠ k' → JsMap.get k' (JsMap.set k v m) = JsMap.get k' m.
Proof.
  intros Hne. induction m as [|[k0 v0] m IH]; simpl.
  - by rewrite decide_False.
  - destruct (decide (k0 = k)) as [->|Hk]; simpl.
    + by rewrite !decide_False.
    + by rewrite IH.
Qed.

Lemma get_delete_ne k k' m :
  k ≠ k' → JsMap.get k' (JsMap.delete k m) = JsMap.get k' m.
Proof.
  intros Hne. induction m as [|[k0 v0] m IH]; simpl; [done|].
  destruct (decide (k0 = k)) as [->|Hk]; simpl.
  - by rewrite decide_False.
  - by rewrite IH.
Qed.

Lemma get_None_keys k m : JsMap.get k m = None ↔ k ∉ m.*1.
Proof.
  induction m as [|[k0 v0] m IH]; simpl.
  - split; [intros _; apply not_elem_of_nil|done].
  - rewrite not_elem_of_cons. destruct (decide (k0 = k)) as [->|Hk].
    + split; [done|]. by intros [? _].
    + rewrite IH. split; [by intros ?; split|by intros [_ ?]].
Qed.

Lemma keys_delete k k' m : k' ∈ (JsMap.delete k m).*1 → k' ∈ m.*1.
Proof.
  induction m as [|[k0 v0] m IH]; simpl; [done|].
  destruct (decide (k0 = k)); simpl.
  - by right.
  - intros [->|Hin]%elem_of_cons; [by left|right; auto].
Qed.

Lemma NoDup_delete k m : NoDup m.*1 → NoDup (JsMap.delete k m).*1.
Proof.
  induction m as [|[k0 v0] m IH]; simpl; [done|].
  intros [Hnotin Hnd]%NoDup_cons. destruct (decide (k0 = k)); simpl; [done|].
  apply NoDup_cons. split; [|auto]. intros Hin. by apply Hnotin, keys_delete with k.
Qed.

Lemma get_delete_eq k m : NoDup m.*1 → JsMap.get k (JsMap.delete k m) = None.
Proof.
  induction m as [|[k0 v0] m IH]; simpl; [done|].
  intros [Hnotin Hnd]%NoDup_cons. destruct (decide (k0 = k)) as [->|Hk]; simpl.
  - by apply get_None_keys.
  - rewrite decide_False by done. auto.
Qed.

Lemma keys_set k k' v m : k' ∈ (JsMap.set k v m).*1 → k' = k ∨ k' ∈ m.*1.
Proof.
  induction m as [|[k0 v0] m IH]; simpl.
  - intros ->%list_elem_of_singleton. by left.
  - destruct (decide (k0 = k)) as [->|Hk]; simpl.
    + intros [->|Hin]%elem_of_cons; [by left|right; by right].
    + intros [->|Hin]%elem_of_cons; [right; by left|].
      destruct (IH Hin); [by left|right; by right].
Qed.

Lemma NoDup_set k v m : NoDup m.*1 → NoDup (JsMap.set k v m).*1.
Proof.
  induction m as [|[k0 v0] m IH]; simpl.
  - intros _. apply NoDup_singleton.
  - intros [Hnotin Hnd]%NoDup_cons.
    destruct (decide (k0 = k)) as [->|Hk]; simpl.
    + by apply NoDup_cons.
    + apply NoDup_cons. split; [|auto].
      intros [->|Hin]%keys_set; done.
Qed.

Lemma set_nonempty k v m : JsMap.set k v m ≠ [].
Proof. destruct m as [|[k0 v0] m]; simpl; [done|]. by destruct (decide _). Qed.

End JsMapMore.

Lemma others_kept_refl sid rm : others_kept sid rm rm.
Proof. by intros sid' room u Hne. Qed.

Lemma others_kept_trans sid rm1 rm2 rm3 :
  others_kept sid rm1 rm2 → others_kept sid rm2 rm3 → others_kept sid rm1 rm3.
Proof.
  intros H12 H23 sid' room u Hne. by rewrite (H12 _ _ _ Hne), (H23 _ _ _ Hne).
Qed.

Lemma others_kept_removeUser sid rm roomId :
  others_kept sid rm (removeUser rm roomId sid).1.
Proof.
  intros sid' room u Hne. unfold removeUser.
  destruct (rooms rm !! roomId) as [r|] eqn:Hr; [|done].
  destruct (decide (room = roomId)) as [->|Hroom].
  - destruct (decide _) as [Hz|Hnz]; simpl.
    + rewrite lookup_delete_eq. split; [|by intros (? & ? & _)].
      intros (r0 & Hr0 & Hget). rewrite Hr in Hr0. injection Hr0 as <-.
      rewrite <- (get_delete_ne sid sid') in Hget by done.
      destruct (JsMap.delete sid (users r)); [done|]. discriminate Hz.
    + rewrite lookup_insert_eq. split.
      * intros (r0 & Hr0 & Hget). rewrite Hr in Hr0. injection Hr0 as <-.
        eexists. split; [done|]. simpl. by rewrite get_delete_ne.
      * intros (r' & Hr' & Hget). injection Hr' as <-. simpl in Hget.
        rewrite get_delete_ne in Hget by done. by exists r.
  - destruct (decide _); simpl;
      [by rewrite lookup_delete_ne|by rewrite lookup_insert_ne].
Qed.

Lemma others_kept_addUser sid rm roomId name now :
  is_Some (rooms rm !! roomId) ∨ printable roomId = true →
  others_kept sid rm (addUser rm roomId sid name now).1.
Proof.
  intros H sid' room u Hne.
  destruct (addUser_result rm roomId sid name now H) as [_ Hres].
  destruct (decide (room = roomId)) as [->|Hroom].
  - rewrite Hres. unfold found_or_new.
    destruct (rooms rm !! roomId) as [r|] eqn:Hr; simpl.
    + split.
      * intros (r0 & Hr0 & Hget). injection Hr0 as <-.
        eexists. split; [done|]. simpl. by rewrite get_set_ne.
      * intros (r' & Hr' & Hget). injection Hr' as <-. simpl in Hget.
        rewrite get_set_ne in Hget by done. by exists r.
    + split; [by intros (? & ? & _)|].
      intros (r' & Hr' & Hget). injection Hr' as <-. simpl in Hget.
      by rewrite decide_False in Hget.
  - by rewrite addUser_other_room.
Qed.

Lemma rooms_wf_removeUser rm roomId sid :
  rooms_wf rm → rooms_wf (removeUser rm roomId sid).1.
Proof.
  intros Hwf room r'. unfold removeUser.
  destruct (rooms rm !! roomId) as [r|] eqn:Hr; [|apply Hwf].
  destruct (Hwf _ _ Hr) as (_ & Hnd & Hinv).
  destruct (decide _) as [Hz|Hnz]; simpl.
  - intros Hl. apply lookup_delete_Some in Hl as [_ Hl]. by apply (Hwf room).
  - intros Hl.
    apply lookup_insert_Some in Hl as [[-> <-]|[_ Hl]]; [|by apply (Hwf room)].
    simpl. split; [|split; [by apply NoDup_delete|done]].
    intros Hnil. apply Hnz. by rewrite Hnil.
Qed.

Lemma rooms_wf_addUser rm roomId sid name now :
  is_Some (rooms rm !! roomId) ∨ printable roomId = true →
  rooms_wf rm → rooms_wf (addUser rm roomId sid name now).1.
Proof.
  intros H Hwf room r'.
  destruct (addUser_result rm roomId sid name now H) as [_ Hres].
  destruct (decide (room = roomId)) as [->|Hroom].
  - rewrite Hres. intros Hl. injection Hl as <-. simpl.
    split; [apply set_nonempty|]. unfold found_or_new.
    destruct (rooms rm !! roomId) as [r|] eqn:Hr; simpl.
    + destruct (Hwf _ _ Hr) as (_ & Hnd & Hinv). split; [by apply NoDup_set|done].
    + split; [apply NoDup_singleton|apply LedgerFacts.inv_new].
  - rewrite addUser_other_room by done. apply Hwf.
Qed.

(** The registry the leave step leaves, whether it completes or not. *)
Lemma after_leave_eq rm c :
  after_leave rm c =
    if truthy (currentRoom c)
    then (removeUser rm (currentRoom c) (socket_id c)).1 else rm.
Proof.
  unfold after_leave, leave_previous. destruct (truthy (currentRoom c)); [|done].
  by destruct (removeUser rm (currentRoom c) (socket_id c)) as [rm1 [[]|]].
Qed.

(** Once the sender has left its room, it is on the roster of no room with
    a truthy name. *)
Lemma leave_clears w sid c room r u :
  world_inv w → conns w !! sid = Some c →
  truthy room = true →
  rooms (after_leave (registry w) c) !! room = Some r →
  JsMap.get sid (users r) = Some u → False.
Proof.
  intros (Hwf & (Hid & Hjoined & Hroster) & _) Hc Ht Hr Hget.
  pose proof (Hid _ _ Hc) as Hsid.
  assert (Hold : ∀ r0, rooms (registry w) !! room = Some r0 →
                       JsMap.get sid (users r0) = Some u → currentRoom c = room).
  { intros r0 Hr0 Hg0. destruct (Hroster _ _ _ _ Hr0 Ht Hg0) as (c0 & Hc0 & <-).
    rewrite Hc in Hc0. by injection Hc0 as <-. }
  rewrite after_leave_eq in Hr. destruct (truthy (currentRoom c)) eqn:Htc.
  - unfold removeUser in Hr. rewrite Hsid in Hr.
    destruct (rooms (registry w) !! currentRoom c) as [rA|] eqn:HrA.
    + destruct (decide (room = currentRoom c)) as [->|Hne].
      * destruct (Hwf _ _ HrA) as (_ & Hnd & _).
        destruct (decide _); simpl in Hr.
        -- by rewrite lookup_delete_eq in Hr.
        -- rewrite lookup_insert_eq in Hr. injection Hr as <-. simpl in Hget.
           by rewrite get_delete_eq in Hget.
      * assert (Hr0 : rooms (registry w) !! room = Some r).
        { destruct (decide _); simpl in Hr;
            [by rewrite lookup_delete_ne in Hr|by rewrite lookup_insert_ne in Hr]. }
        by rewrite (Hold _ Hr0 Hget) in Hne.
    + simpl in Hr. pose proof (Hold _ Hr Hget) as <-. by rewrite HrA in Hr.
  - pose proof (Hold _ Hr Hget) as <-. by rewrite Htc in Ht.
Qed.

Lemma rooms_wf_after_leave rm c : rooms_wf rm → rooms_wf (after_leave rm c).
Proof.
  intros Hwf. rewrite after_leave_eq. destruct (truthy _); [|done].
  by apply rooms_wf_removeUser.
Qed.

Lemma others_kept_after_leave rm c :
  others_kept (socket_id c) rm (after_leave rm c).
Proof.
  rewrite after_leave_eq. destruct (truthy _); [|apply others_kept_refl].
  apply others_kept_removeUser.
Qed.

(** The sender moves: its connection record is replaced. *)
Lemma world_inv_moved w sid c rm' c' :
  world_inv w → conns w !! sid = Some c →
  rooms_wf rm' → others_kept sid (registry w) rm' →
  socket_id c' = sid →
  printable (currentRoom c') = true →
  (truthy (currentRoom c') = true → ∃ u, joined rm' c' u) →
  (∀ room r u, truthy room = true → rooms rm' !! room = Some r →
     JsMap.get sid (users r) = Some u → room = currentRoom c') →
  world_inv {| registry := rm'; conns := <[sid := c']> (conns w) |}.
Proof.
  intros (Hwf & (Hid & Hjoined & Hroster) & Hleg) Hc Hwf' Hkept Hsid' Hp' Hj' Honly.
  split; [done|]. split; [split; [|split]|]; simpl.
  - intros sid0 c0 Hl.
    apply lookup_insert_Some in Hl as [[<- <-]|[_ Hl]]; [done|by apply Hid].
  - intros sid0 c0 Hl Ht.
    apply lookup_insert_Some in Hl as [[<- <-]|[Hne Hl]]; [by apply Hj'|].
    destruct (Hjoined _ _ Hl Ht) as (u & _ & Hu & r & Hr & Hget).
    pose proof (Hid _ _ Hl) as Hsid0.
    destruct (proj1 (Hkept (socket_id c0) (currentRoom c0) u
                       ltac:(by rewrite Hsid0)))
      as (r' & Hr' & Hget'); [by exists r|].
    exists u. split; [done|]. split; [done|]. by exists r'.
  - intros room r sid0 u Hr Ht Hget.
    destruct (decide (sid0 = sid)) as [->|Hne].
    + exists c'. split; [apply lookup_insert_eq|].
      symmetry. by apply (Honly room r u).
    + destruct (proj2 (Hkept sid0 room u Hne)) as (r0 & Hr0 & Hget0);
        [by exists r|].
      destruct (Hroster _ _ _ _ Hr0 Ht Hget0) as (c0 & Hc0 & Hroom).
      exists c0. split; [|done]. by rewrite lookup_insert_ne.
  - intros sid0 c0 Hl. simpl in Hl.
    apply lookup_insert_Some in Hl as [[<- <-]|[_ Hl]]; [done|by apply (Hleg sid0)].
Qed.

(** The sender goes away: its connection record is dropped. *)
Lemma world_inv_gone w sid c rm' :
  world_inv w → conns w !! sid = Some c →
  rooms_wf rm' → others_kept sid (registry w) rm' →
  (∀ room r u, truthy room = true → rooms rm' !! room = Some r →
     JsMap.get sid (users r) = Some u → False) →
  world_inv {| registry := rm'; conns := delete sid (conns w) |}.
Proof.
  intros (Hwf & (Hid & Hjoined & Hroster) & Hleg) Hc Hwf' Hkept Hnone.
  split; [done|]. split; [split; [|split]|]; simpl.
  - intros sid0 c0 Hl. apply lookup_delete_Some in Hl as [_ Hl]. by apply Hid.
  - intros sid0 c0 Hl Ht. apply lookup_delete_Some in Hl as [Hne Hl].
    destruct (Hjoined _ _ Hl Ht) as (u & _ & Hu & r & Hr & Hget).
    pose proof (Hid _ _ Hl) as Hsid0.
    destruct (proj1 (Hkept (socket_id c0) (currentRoom c0) u
                       ltac:(by rewrite Hsid0)))
      as (r' & Hr' & Hget'); [by exists r|].
    exists u. split; [done|]. split; [done|]. by exists r'.
  - intros room r sid0 u Hr Ht Hget.
    destruct (decide (sid0 = sid)) as [->|Hne].
    + destruct (Hnone _ _ _ Ht Hr Hget).
    + destruct (proj2 (Hkept sid0 room u Hne)) as (r0 & Hr0 & Hget0);
        [by exists r|].
      destruct (Hroster _ _ _ _ Hr0 Ht Hget0) as (c0 & Hc0 & Hroom).
      exists c0. split; [|done]. by rewrite lookup_delete_ne.
  - intros sid0 c0 Hl. simpl in Hl. apply lookup_delete_Some in Hl as [_ Hl].
    by apply (Hleg sid0).
Qed.

(** A handler that only changes the ledger of the sender's room. *)
Lemma world_inv_with_ledger rm cs room r ds' :
  world_inv {| registry := rm; conns := cs |} →
  rooms rm !! room = Some r →
  (Ledger.ledger_inv (drawingState r) → Ledger.ledger_inv ds') →
  world_inv {| registry := RoomOps.with_ledger rm room r ds'; conns := cs |}.
Proof.
  intros (Hwf & (Hid & Hjoined & Hroster) & Hleg) Hr Hds. simpl in *.
  assert (Hus : ∀ room0 r0, rooms (RoomOps.with_ledger rm room r ds') !! room0
                  = Some r0 →
                ∃ r1, rooms rm !! room0 = Some r1 ∧ users r0 = users r1 ∧
                      (Ledger.ledger_inv (drawingState r1) →
                       Ledger.ledger_inv (drawingState r0))).
  { intros room0 r0 Hl. simpl in Hl.
    apply lookup_insert_Some in Hl as [[<- <-]|[_ Hl]]; [by exists r|by exists r0]. }
  split; [|split; [split; [done|split]|done]]; simpl.
  - intros room0 r0 Hl. destruct (Hus _ _ Hl) as (r1 & Hr1 & -> & Hi).
    destruct (Hwf _ _ Hr1) as (? & ? & ?). auto.
  - intros sid c Hc Ht.
    destruct (Hjoined _ _ Hc Ht) as (u & _ & Hu & r0 & Hr0 & Hget).
    exists u. split; [done|]. split; [done|].
    destruct (decide (currentRoom c = room)) as [Heq|Hne].
    + rewrite Heq in *. rewrite Hr in Hr0. injection Hr0 as <-.
      eexists. split; [apply lookup_insert_eq|done].
    + exists r0. split; [|done]. simpl. by rewrite lookup_insert_ne.
  - intros room0 r0 sid u Hl Ht Hget.
    destruct (Hus _ _ Hl) as (r1 & Hr1 & Heq & _). rewrite Heq in Hget.
    by apply (Hroster _ _ _ _ Hr1 Ht Hget).
Qed.

(** The handlers other than join and disconnect keep the connection and
    at most replace the ledger of the sender's room, provided that room
    exists when the sender's room variable is truthy. *)
Lemma handle_drawing rm c i :
  (truthy (currentRoom c) = true → ∃ r, rooms rm !! currentRoom c = Some r) →
  match i with
  | Connected _ | JoinRoom _ _ _ | Disconnected _ => True
  | _ =>
      (handle rm c i).1.2 = Some c ∧
      ((handle rm c i).1.1 = rm ∨
       ∃ r ds', rooms rm !! currentRoom c = Some r ∧
                (Ledger.ledger_inv (drawingState r) → Ledger.ledger_inv ds') ∧
                (handle rm c i).1.1 = RoomOps.with_ledger rm (currentRoom c) r ds')
  end.
Proof.
  intros Hex.
  assert (Hgrs : ∀ r ds',
            getRoomState (RoomOps.with_ledger rm (currentRoom c) r ds') (currentRoom c)
            = (RoomOps.with_ledger rm (currentRoom c) r ds',
               Normal {| rs_operations := DrawingState.getActiveOperations ds';
                         rs_users := JsMap.values (users r) |})).
  { intros r ds'.
    by rewrite (getRoomState_present _ _ _
                  (lookup_insert_eq (rooms rm) (currentRoom c) _)). }
  destruct i as [sid|sid data now|sid data t1 t2|sid data|sid data|sid|sid|sid data|sid|sid];
    try done; simpl.
  - (* draw-start *)
    unfold on_draw_start. destruct (truthy (currentRoom c)) eqn:Ht; simpl;
      [|by split; [|left]].
    destruct (Hex eq_refl) as [r Hr].
    unfold startOperation. rewrite (getRoom_present _ _ _ Hr).
    destruct (JsMap.get (socket_id c) (users r)) as [u|]; [|by split; [|left]].
    destruct data as [d|]; [|by split; [|left]]. simpl.
    destruct (currentUser c); simpl; (split; [done|]); right;
      eexists r, _; (split; [done|]); (split; [|reflexivity]);
      apply LedgerFacts.inv_startOperation.
  - (* draw-move *)
    unfold on_draw_move. destruct (truthy (currentRoom c)) eqn:Ht; simpl;
      [|by split; [|left]].
    destruct (Hex eq_refl) as [r Hr].
    destruct data as [d|]; [|by split; [|left]].
    unfold RoomOps.addPoints. rewrite Hr.
    destruct (dm_operationId d) as [| | | |oid|ref prints];
      try (destruct (template _) as [[]|]; by split; [|left]).
    pose proof (LedgerFacts.inv_addPoints (drawingState r) oid (dm_points d)) as Hi.
    destruct (DrawingState.addPoints (drawingState r) oid (dm_points d))
      as [ds' [[]|]]; simpl in *; (split; [done|]); right; by exists r, ds'.
  - (* draw-end *)
    unfold on_draw_end. destruct (truthy (currentRoom c)) eqn:Ht; simpl;
      [|by split; [|left]].
    destruct (Hex eq_refl) as [r Hr].
    destruct data as [d|]; [|by split; [|left]].
    unfold RoomOps.endOperation. rewrite Hr.
    destruct (de_operationId d) as [| | | |oid|ref prints];
      try (destruct (template _) as [[]|];
           rewrite ?(getRoomState_present _ _ _ Hr); by split; [|left]).
    rewrite Hgrs. simpl. split; [done|]. right.
    eexists r, _. split; [done|]. split; [|reflexivity].
    apply LedgerFacts.inv_endOperation.
  - (* undo *)
    unfold on_undo. destruct (truthy (currentRoom c)) eqn:Ht; simpl;
      [|by split; [|left]].
    destruct (Hex eq_refl) as [r Hr].
    unfold RoomOps.undo. rewrite Hr.
    pose proof (LedgerFacts.inv_undo (drawingState r)) as Hi.
    destruct (DrawingState.undo (drawingState r)) as [ds' [[o|]|]]; simpl in *;
      rewrite ?Hgrs; simpl; (split; [done|]); right; by exists r, ds'.
  - (* redo *)
    unfold on_redo. destruct (truthy (currentRoom c)) eqn:Ht; simpl;
      [|by split; [|left]].
    destruct (Hex eq_refl) as [r Hr].
    unfold RoomOps.redo. rewrite Hr.
    pose proof (LedgerFacts.inv_redo (drawingState r)) as Hi.
    destruct (DrawingState.redo (drawingState r)) as [ds' [[o|]|]]; simpl in *;
      rewrite ?Hgrs; simpl; (split; [done|]); right; by exists r, ds'.
  - (* cursor-move *) by split; [|left].
  - (* clear-canvas *)
    unfold on_clear_canvas. destruct (truthy (currentRoom c)) eqn:Ht; simpl;
      [|by split; [|left]].
    destruct (Hex eq_refl) as [r Hr].
    unfold RoomOps.clearCanvas. rewrite Hr. split; [done|]. right.
    eexists r, _. split; [done|]. split; [|reflexivity].
    intros _. apply LedgerFacts.inv_new.
Qed.

Lemma printable_js_or v w :
  printable v = true → printable w = true → printable (js_or v w) = true.
Proof. intros Hv Hw. unfold js_or. by destruct (truthy v). Qed.

Lemma printable_js_default v w :
  printable v = true → printable w = true → printable (js_default v w) = true.
Proof. intros Hv Hw. by destruct v. Qed.

(** The registry [disconnect] leaves, whether [removeUser] completes or
    not. *)
Lemma on_disconnect_registry rm c :
  (on_disconnect rm c).1 =
    match currentUser c with
    | Some _ => after_leave rm c
    | None => rm
    end.
Proof.
  unfold on_disconnect. rewrite after_leave_eq.
  destruct (currentUser c); [|done].
  destruct (truthy (currentRoom c)); [|done].
  by destruct (removeUser rm (currentRoom c) (socket_id c)) as [rm1 [[]|]].
Qed.

Lemma world_inv_step w i :
  join_prints i → world_inv w → world_inv (step w i).1.
Proof.
  intros Hpr Hinv. pose proof Hinv as (Hwf & (Hid & Hjoined & Hroster) & Hleg).
  unfold step. destruct (conns w !! sender i) as [c|] eqn:Hc.
  - pose proof (Hid _ _ Hc) as Hsid.
    assert (Hex : truthy (currentRoom c) = true →
                  ∃ r, rooms (registry w) !! currentRoom c = Some r).
    { intros Ht. destruct (Hjoined _ _ Hc Ht) as (u & _ & _ & r & Hr & _).
      by exists r. }
    assert (Hdraw : ∀ rm',
              (rm' = registry w ∨
               ∃ r ds', rooms (registry w) !! currentRoom c = Some r ∧
                 (Ledger.ledger_inv (drawingState r) → Ledger.ledger_inv ds') ∧
                 rm' = RoomOps.with_ledger (registry w) (currentRoom c) r ds') →
              world_inv
                {| registry := rm'; conns := <[sender i := c]> (conns w) |}).
    { intros rm' Hrm. rewrite insert_id by done.
      destruct Hrm as [->|(r & ds' & Hr & Hds & ->)]; [by destruct w|].
      apply world_inv_with_ledger; [by destruct w|done|done]. }
    pose proof (handle_drawing (registry w) c i Hex) as Hh.
    destruct i as [sid|sid data now|sid data t1 t2|sid data|sid data|sid|sid
                   |sid data|sid|sid];
      try (destruct (handle (registry w) c _) as [[rm' oc] out] eqn:Hhandle;
           simpl in Hh; destruct Hh as [Hoc Hrm]; subst oc; simpl;
           by apply (Hdraw rm')).
    + (* connection of a live id *) done.
    + (* join-room *)
      simpl in *. destruct data as [jd|].
      * destruct Hpr as [Hpn Hproom].
        assert (Hn : printable (js_or (jd_username jd)
                                  (default_username (socket_id c))) = true)
          by (by apply printable_js_or).
        assert (Hp : printable (js_default (jd_room jd) (JStr "default")) = true)
          by (by apply printable_js_default).
        destruct (leave_previous_printable (registry w) c (Hleg _ _ Hc))
          as [acts Hleave].
        assert (Hleave2 : (leave_previous (registry w) c).2 = Normal acts)
          by (by rewrite Hleave).
        pose proof (on_join_room_result (registry w) c jd now acts Hleave2)
          as Hres.
        destruct (addUser_result (after_leave (registry w) c)
                    (js_default (jd_room jd) (JStr "default")) (socket_id c)
                    (js_or (jd_username jd) (default_username (socket_id c)))
                    now (or_intror Hp)) as [Hu _].
        rewrite Hn, Hp in Hu. simpl in Hu.
        destruct (on_join_room (registry w) c (Some jd) now) as [[rm' c'] out].
        simpl in Hres. injection Hres as -> ->. simpl. subst sid.
        apply (world_inv_moved w (socket_id c) c); try done.
        -- apply rooms_wf_addUser; [by right|]. by apply rooms_wf_after_leave.
        -- eapply others_kept_trans; [|apply others_kept_addUser; by right].
           apply others_kept_after_leave.
        -- simpl. intros Ht.
           destruct (on_join_room_joined (registry w) c jd now acts
                       Hleave2 Hn Hp Ht) as (u & Hj & _).
           rewrite (on_join_room_result _ _ _ _ _ Hleave2) in Hj. simpl in Hj.
           by exists u.
        -- simpl. intros room r u Ht Hr Hget.
           destruct (decide (js_default (jd_room jd) (JStr "default") = room))
             as [<-|Hne]; [done|].
           unfold joining in Hr. rewrite addUser_other_room in Hr by done.
           destruct (leave_clears w (socket_id c) c room r u Hinv Hc Ht Hr Hget).
      * simpl. rewrite insert_id by done. by destruct w.
    + (* disconnect *)
      simpl in *. subst sid.
      pose proof (on_disconnect_registry (registry w) c) as Hreg.
      destruct (on_disconnect (registry w) c) as [rm1 out]. simpl in *.
      assert (Hgone : world_inv
                {| registry := after_leave (registry w) c;
                   conns := delete (socket_id c) (conns w) |}).
      { apply (world_inv_gone w (socket_id c) c); try done.
        - by apply rooms_wf_after_leave.
        - apply others_kept_after_leave.
        - intros room r u Ht Hr Hget.
          apply (leave_clears w (socket_id c) c room r u Hinv Hc Ht Hr Hget). }
      subst rm1. destruct (currentUser c) eqn:Hcu; [done|].
      rewrite after_leave_eq in Hgone.
      destruct (truthy (currentRoom c)) eqn:Ht; [|done].
      destruct (Hjoined _ _ Hc Ht) as (u & _ & Hu & _). congruence.
  - destruct i; try done. simpl in *.
    split; [done|]. split; [split; [|split]|]; simpl.
    + intros sid0 c0 Hl.
      apply lookup_insert_Some in Hl as [[<- <-]|[_ Hl]]; [done|by apply Hid].
    + intros sid0 c0 Hl Ht.
      apply lookup_insert_Some in Hl as [[<- <-]|[_ Hl]];
        [done|by apply (Hjoined sid0)].
    + intros room r sid0 u Hr Ht Hget.
      destruct (Hroster _ _ _ _ Hr Ht Hget) as (c0 & Hc0 & Hroom).
      exists c0. split; [|done]. rewrite lookup_insert_ne; [done|].
      intros ->. by rewrite Hc in Hc0.
    + intros sid0 c0 Hl. simpl in Hl.
      apply lookup_insert_Some in Hl as [[<- <-]|[_ Hl]];
        [done|by apply (Hleg sid0)].
Qed.

Lemma world_inv_boot : world_inv boot.
Proof.
  split; [by intros room r Hl|]. split; [split; [|split]|]; simpl.
  - by intros sid c Hl.
  - by intros sid c Hl.
  - by intros room r sid u Hl.
  - by intros sid c Hl.
Qed.

Lemma world_inv_serve ins : ∀ w,
  Forall join_prints ins → world_inv w → world_inv (serve ins w).
Proof.
  induction ins as [|i ins IH]; intros w Hall Hinv; [done|].
  apply Forall_cons in Hall as [Hi Hall].
  simpl. apply IH; [done|]. by apply world_inv_step.
Qed.

Lemma world_inv_reachable w : reachable_legibly w → world_inv w.
Proof. intros (ins & Hall & ->). by apply world_inv_serve, world_inv_boot. Qed.

(** X20: in every state the server reaches through connections and events
    whose join intents carry a name and a room that convert to strings, a
    connection whose room variable is truthy has joined that room: the
    room exists and its roster holds, under the connection's socket id,
    the very participant record the connection keeps. *)
Theorem live_connections_are_on_their_roster
    (w : world) (sid : string) (c : conn) :
  reachable_legibly w →
  conns w !! sid = Some c →
  truthy (currentRoom c) = true →
  socket_id c = sid ∧ ∃ u, joined (registry w) c u.
Proof.
  intros (_ & (Hid & Hjoined & _) & _)%world_inv_reachable Hc Ht.
  split; [by apply Hid|by apply (Hjoined sid)].
Qed.

(** X21: in every state the server reaches through connections and events
    whose join intents carry a name and a room that convert to strings,
    every room of the registry has at least one participant, no
    participant id twice on its roster, and a ledger that satisfies the
    cursor invariant. *)
Theorem no_room_without_participant
    (w : world) (room : jsval) (r : RoomManager.room) :
  reachable_legibly w →
  rooms (registry w) !! room = Some r →
  (0 < RoomOps.getUserCount (registry w) room)%nat ∧
  NoDup (users r).*1 ∧
  Ledger.ledger_inv (drawingState r).
Proof.
  intros (Hwf & _)%world_inv_reachable Hr.
  destruct (Hwf _ _ Hr) as (Hne & Hnd & Hinv).
  split; [|done]. unfold RoomOps.getUserCount, JsMap.size. rewrite Hr.
  destruct (users r); [done|simpl; lia].
Qed.

(** X22: in every state the server reaches through connections and events
    whose join intents carry a name and a room that convert to strings,
    whoever is on the roster of a room with a truthy name is a live
    connection whose room variable is that room and whose participant
    record is the one on the roster; so no socket id is on the rosters of
    two rooms with truthy names. *)
Theorem rosters_hold_live_connections
    (w : world) (room room' : jsval) (r r' : RoomManager.room)
    (sid : string) (u u' : user) :
  reachable_legibly w →
  rooms (registry w) !! room = Some r →
  truthy room = true →
  JsMap.get sid (users r) = Some u →
  (∃ c, conns w !! sid = Some c ∧ currentRoom c = room ∧
        currentUser c = Some u) ∧
  (rooms (registry w) !! room' = Some r' → truthy room' = true →
   JsMap.get sid (users r') = Some u' → room' = room).
Proof.
  intros (_ & (Hid & Hjoined & Hroster) & _)%world_inv_reachable Hr Ht Hget.
  destruct (Hroster _ _ _ _ Hr Ht Hget) as (c & Hc & Hroom).
  split.
  - exists c. split; [done|]. split; [done|].
    destruct (Hjoined _ _ Hc) as (u0 & _ & Hu0 & r0 & Hr0 & Hget0);
      [by rewrite Hroom|].
    rewrite Hroom, Hr in Hr0. injection Hr0 as <-.
    rewrite (Hid _ _ Hc), Hget in Hget0. by injection Hget0 as <-.
  - intros Hr' Ht' Hget'.
    destruct (Hroster _ _ _ _ Hr' Ht' Hget') as (c' & Hc' & Hroom').
    rewrite Hc in Hc'. injection Hc' as <-. by rewrite <- Hroom, <- Hroom'.
Qed.




(** *** What holds whatever the server is sent *)

Lemma registry_ok_insert rm room r :
  registry_ok rm →
  NoDup (users r).*1 → Ledger.ledger_inv (drawingState r) →
  registry_ok {| rooms := <[room := r]> (rooms rm) |}.
Proof.
  intros Hok Hnd Hinv room0 r0 Hl. simpl in Hl.
  apply lookup_insert_Some in Hl as [[_ <-]|[_ Hl]]; [done|by apply (Hok room0)].
Qed.

Lemma registry_ok_delete rm room :
  registry_ok rm → registry_ok {| rooms := delete room (rooms rm) |}.
Proof.
  intros Hok room0 r0 Hl. simpl in Hl.
  apply lookup_delete_Some in Hl as [_ Hl]. by apply (Hok room0).
Qed.

Lemma registry_ok_with_ledger rm room r ds :
  registry_ok rm → rooms rm !! room = Some r →
  (Ledger.ledger_inv (drawingState r) → Ledger.ledger_inv ds) →
  registry_ok (RoomOps.with_ledger rm room r ds).
Proof.
  intros Hok Hr Hds. destruct (Hok _ _ Hr) as [Hnd Hinv].
  apply registry_ok_insert; simpl; auto.
Qed.

Lemma registry_ok_getRoom rm roomId :
  registry_ok rm →
  registry_ok (getRoom rm roomId).1 ∧
  ∀ r, (getRoom rm roomId).2 = Normal r →
       rooms (getRoom rm roomId).1 !! roomId = Some r.
Proof.
  intros Hok. unfold getRoom.
  destruct (rooms rm !! roomId) as [r|] eqn:Hr; simpl.
  - split; [done|]. by intros r0 [= <-].
  - split.
    + apply registry_ok_insert; [done|constructor|apply LedgerFacts.inv_new].
    + intros r0 Hret. rewrite lookup_insert_eq.
      destruct (template [roomId]); simpl in Hret; [|done]. by injection Hret as <-.
Qed.

Lemma registry_ok_addUser rm roomId uid name now :
  registry_ok rm → registry_ok (addUser rm roomId uid name now).1.
Proof.
  intros Hok. unfold addUser.
  destruct (registry_ok_getRoom rm roomId Hok) as [Hok1 Hin].
  destruct (getRoom rm roomId) as [rm1 [r|]]; simpl in *; [|done].
  destruct (Hok1 _ _ (Hin r eq_refl)) as [Hnd Hinv].
  apply registry_ok_insert; simpl; [done|by apply NoDup_set|done].
Qed.

Lemma registry_ok_removeUser rm roomId uid :
  registry_ok rm → registry_ok (removeUser rm roomId uid).1.
Proof.
  intros Hok. unfold removeUser.
  destruct (rooms rm !! roomId) as [r|] eqn:Hr; [|done].
  destruct (Hok _ _ Hr) as [Hnd Hinv].
  destruct (decide _); simpl.
  - by apply registry_ok_delete.
  - apply registry_ok_insert; simpl; [done|by apply NoDup_delete|done].
Qed.

Lemma registry_ok_getRoomState rm roomId :
  registry_ok rm → registry_ok (getRoomState rm roomId).1.
Proof.
  intros Hok. unfold getRoomState.
  destruct (registry_ok_getRoom rm roomId Hok) as [Hok1 _].
  by destruct (getRoom rm roomId) as [rm1 [r|]].
Qed.

Lemma registry_ok_startOperation rm roomId uid data t1 t2 :
  registry_ok rm → registry_ok (startOperation rm roomId uid data t1 t2).1.
Proof.
  intros Hok. unfold startOperation.
  destruct (registry_ok_getRoom rm roomId Hok) as [Hok1 Hin].
  destruct (getRoom rm roomId) as [rm1 [r|]]; simpl in *; [|done].
  destruct (Hok1 _ _ (Hin r eq_refl)) as [Hnd Hinv].
  destruct (JsMap.get uid (users r)), data; simpl; try done.
  apply registry_ok_insert; simpl; [done|done|].
  by apply LedgerFacts.inv_startOperation.
Qed.

Lemma registry_ok_addPoints rm roomId operationId pts :
  registry_ok rm → registry_ok (RoomOps.addPoints rm roomId operationId pts).1.
Proof.
  intros Hok. unfold RoomOps.addPoints.
  destruct (rooms rm !! roomId) as [r|] eqn:Hr; [|done].
  destruct operationId as [| | | |oid|ref prints]; try done.
  pose proof (LedgerFacts.inv_addPoints (drawingState r) oid pts) as Hi.
  destruct (DrawingState.addPoints (drawingState r) oid pts) as [ds cp].
  simpl in *. by apply registry_ok_with_ledger.
Qed.

Lemma registry_ok_endOperation rm roomId operationId :
  registry_ok rm → registry_ok (RoomOps.endOperation rm roomId operationId).1.
Proof.
  intros Hok. unfold RoomOps.endOperation.
  destruct (rooms rm !! roomId) as [r|] eqn:Hr; [|done].
  destruct operationId as [| | | |oid|ref prints]; try done. simpl.
  apply registry_ok_with_ledger; [done|done|].
  apply LedgerFacts.inv_endOperation.
Qed.

Lemma registry_ok_undo rm roomId :
  registry_ok rm → registry_ok (RoomOps.undo rm roomId).1.
Proof.
  intros Hok. unfold RoomOps.undo.
  destruct (rooms rm !! roomId) as [r|] eqn:Hr; [|done].
  pose proof (LedgerFacts.inv_undo (drawingState r)) as Hi.
  destruct (DrawingState.undo (drawingState r)) as [ds cp].
  simpl in *. by apply registry_ok_with_ledger.
Qed.

Lemma registry_ok_redo rm roomId :
  registry_ok rm → registry_ok (RoomOps.redo rm roomId).1.
Proof.
  intros Hok. unfold RoomOps.redo.
  destruct (rooms rm !! roomId) as [r|] eqn:Hr; [|done].
  pose proof (LedgerFacts.inv_redo (drawingState r)) as Hi.
  destruct (DrawingState.redo (drawingState r)) as [ds cp].
  simpl in *. by apply registry_ok_with_ledger.
Qed.

Lemma registry_ok_clearCanvas rm roomId :
  registry_ok rm → registry_ok (RoomOps.clearCanvas rm roomId).
Proof.
  intros Hok. unfold RoomOps.clearCanvas.
  destruct (rooms rm !! roomId) as [r|] eqn:Hr; [|done].
  apply registry_ok_with_ledger; [done|done|].
  intros _. apply LedgerFacts.inv_new.
Qed.

Lemma registry_ok_resync c res :
  registry_ok res.1 → registry_ok (resync_if_changed c res).1.
Proof.
  destruct res as [rm1 [[o|]|]]; simpl; try done. intros Hok.
  pose proof (registry_ok_getRoomState rm1 (currentRoom c) Hok) as Hok2.
  by destruct (getRoomState rm1 (currentRoom c)) as [rm2 [rs|]].
Qed.

Lemma registry_ok_handle rm c i :
  registry_ok rm → registry_ok (handle rm c i).1.1.
Proof.
  intros Hok.
  destruct i as [sid|sid data now|sid data t1 t2|sid data|sid data|sid|sid
                 |sid data|sid|sid]; simpl; try done.
  - (* join-room *)
    unfold on_join_room. destruct data as [jd|]; [|done].
    assert (Hok1 : registry_ok (leave_previous rm c).1).
    { fold (after_leave rm c). rewrite after_leave_eq.
      destruct (truthy _); [|done].
      by apply registry_ok_removeUser. }
    destruct (leave_previous rm c) as [rm1 [acts|]]; simpl in *; [|done].
    pose proof (registry_ok_addUser rm1
                  (js_default (jd_room jd) (JStr "default")) (socket_id c)
                  (js_or (jd_username jd) (default_username (socket_id c)))
                  now Hok1) as Hok2.
    destruct (addUser rm1 _ _ _ _) as [rm2 [u|]]; simpl in *; [|done].
    pose proof (registry_ok_getRoomState rm2
                  (js_default (jd_room jd) (JStr "default")) Hok2) as Hok3.
    by destruct (getRoomState rm2 _) as [rm3 [rs|]].
  - (* draw-start *)
    unfold on_draw_start. destruct (negb _); [done|].
    pose proof (registry_ok_startOperation rm (currentRoom c) (socket_id c)
                  data t1 t2 Hok) as Hok1.
    destruct (startOperation rm _ _ _ _ _) as [rm1 [op|]]; simpl in *; [|done].
    by destruct (currentUser c), data.
  - (* draw-move *)
    unfold on_draw_move. destruct (negb _); [done|].
    destruct data as [d|]; [|done].
    pose proof (registry_ok_addPoints rm (currentRoom c) (dm_operationId d)
                  (dm_points d) Hok) as Hok1.
    by destruct (RoomOps.addPoints rm _ _ _) as [rm1 [[]|]].
  - (* draw-end *)
    unfold on_draw_end. destruct (negb _); [done|].
    destruct data as [d|]; [|done].
    pose proof (registry_ok_endOperation rm (currentRoom c) (de_operationId d)
                  Hok) as Hok1.
    destruct (RoomOps.endOperation rm _ _) as [rm1 [[]|]]; simpl in *; [|done].
    pose proof (registry_ok_getRoomState rm1 (currentRoom c) Hok1) as Hok2.
    by destruct (getRoomState rm1 _) as [rm2 [rs|]].
  - (* undo *)
    unfold on_undo. destruct (negb _); [done|].
    pose proof (registry_ok_resync c (RoomOps.undo rm (currentRoom c))
                  (registry_ok_undo rm (currentRoom c) Hok)) as Hok1.
    by destruct (resync_if_changed c _).
  - (* redo *)
    unfold on_redo. destruct (negb _); [done|].
    pose proof (registry_ok_resync c (RoomOps.redo rm (currentRoom c))
                  (registry_ok_redo rm (currentRoom c) Hok)) as Hok1.
    by destruct (resync_if_changed c _).
  - (* clear-canvas *)
    unfold on_clear_canvas. destruct (negb _); [done|]. simpl.
    by apply registry_ok_clearCanvas.
  - (* disconnect *)
    pose proof (on_disconnect_registry rm c) as Hreg.
    destruct (on_disconnect rm c) as [rm1 out]. simpl in *. subst rm1.
    destruct (currentUser c); [|done].
    rewrite after_leave_eq. destruct (truthy _); [|done].
    by apply registry_ok_removeUser.
Qed.

Lemma registry_ok_step w i :
  registry_ok (registry w) → registry_ok (registry (step w i).1).
Proof.
  intros Hok. unfold step.
  destruct (conns w !! sender i) as [c|]; [|by destruct i].
  pose proof (registry_ok_handle (registry w) c i Hok) as Hh.
  destruct i; try done;
    by destruct (handle (registry w) c _) as [[rm1 oc] out].
Qed.

Lemma registry_ok_serve ins : ∀ w,
  registry_ok (registry w) → registry_ok (registry (serve ins w)).
Proof.
  induction ins as [|i ins IH]; intros w Hok; [done|].
  simpl. apply IH. by apply registry_ok_step.
Qed.

(** X28: whatever the server is sent.  In every state the server reaches
    from start-up, through any connections and any events, payloads with
    objects that do not convert to strings and point batches that cannot
    be spread included, every room of the registry has a ledger that
    satisfies the cursor invariant (the entries up to the cursor are
    active, those beyond it undone, the cursor lies between -1 and the
    last index) and a roster without a participant id twice. *)
Theorem rooms_stay_sound_whatever_is_sent
    (w : world) (room : jsval) (r : RoomManager.room) :
  Router.reachable w →
  rooms (registry w) !! room = Some r →
  Ledger.cursor_invariant (drawingState r) ∧
  Ledger.cursor_in_range (drawingState r) ∧
  NoDup (users r).*1.
Proof.
  intros [ins ->] Hr.
  assert (Hok : registry_ok (registry (serve ins boot))).
  { apply registry_ok_serve. by intros room0 r0 Hl. }
  destruct (Hok _ _ Hr) as [Hnd [Hrange Hinv]]. done.
Qed.


(** *** The theorems at the sample session *)

Lemma studio_reachable : reachable_legibly Play.studio.
Proof.
  exists Play.ann_session. split; [|reflexivity].
  repeat constructor.
Defined.

Lemma studio_conn : conns Play.studio !! "sock1" = Some Play.ann_conn.
Proof. reflexivity. Defined.

Lemma live_connections_are_on_their_roster_witness :
  reachable_legibly Play.studio ∧
  conns Play.studio !! "sock1" = Some Play.ann_conn ∧
  truthy (currentRoom Play.ann_conn) = true ∧
  ∃ u, joined (registry Play.studio) Play.ann_conn u.
Proof.
  split; [exact studio_reachable|]. split; [exact studio_conn|].
  split; [reflexivity|].
  exact (proj2 (live_connections_are_on_their_roster _ _ _
                  studio_reachable studio_conn eq_refl)).
Defined.

Lemma studio_room :
  ∃ r, rooms (registry Play.studio) !! JStr "studio" = Some r ∧
       JsMap.get "sock1" (users r) = Some Scenario.ann_user.
Proof. eexists. split; reflexivity. Defined.

Lemma no_room_without_participant_witness :
  reachable_legibly Play.studio ∧
  ∃ r, rooms (registry Play.studio) !! JStr "studio" = Some r ∧
       (0 < RoomOps.getUserCount (registry Play.studio) (JStr "studio"))%nat.
Proof.
  split; [exact studio_reachable|].
  destruct studio_room as (r & Hr & _). exists r. split; [exact Hr|].
  exact (proj1 (no_room_without_participant _ _ _ studio_reachable Hr)).
Defined.

Lemma rosters_hold_live_connections_witness :
  reachable_legibly Play.studio ∧
  ∃ r, rooms (registry Play.studio) !! JStr "studio" = Some r ∧
       JsMap.get "sock1" (users r) = Some Scenario.ann_user ∧
       ∃ c, conns Play.studio !! "sock1" = Some c ∧
            currentRoom c = JStr "studio" ∧
            currentUser c = Some Scenario.ann_user.
Proof.
  split; [exact studio_reachable|].
  destruct studio_room as (r & Hr & Hget). exists r.
  split; [exact Hr|]. split; [exact Hget|].
  exact (proj1 (rosters_hold_live_connections _ _ (JStr "studio") r r _ _
                  Scenario.ann_user studio_reachable Hr eq_refl Hget)).
Defined.

Lemma haunted_reachable : Router.reachable Play.haunted.
Proof.
  exists (Play.ann_session ++
          [Connected "sock9"; JoinRoom "sock9" (Some Play.odd_visit) 95;
           Disconnected "sock9"]).
  reflexivity.
Defined.

Lemma rooms_stay_sound_whatever_is_sent_witness :
  Router.reachable Play.haunted ∧
  ∃ r, rooms (registry Play.haunted) !! JStr "studio" = Some r ∧
       (users r).*1 = ["sock1"; "sock9"] ∧
       conns Play.haunted !! "sock9" = None ∧
       NoDup (users r).*1 ∧
       Ledger.cursor_in_range (drawingState r).
Proof.
  split; [exact haunted_reachable|].
  assert (Hr : ∃ r, rooms (registry Play.haunted) !! JStr "studio" = Some r ∧
                    (users r).*1 = ["sock1"; "sock9"])
    by (eexists; split; reflexivity).
  destruct Hr as (r & Hr & Hus). exists r.
  split; [exact Hr|]. split; [exact Hus|]. split; [reflexivity|].
  destruct (rooms_stay_sound_whatever_is_sent _ _ _ haunted_reachable Hr)
    as (_ & Hrange & Hnd).
  split; [exact Hnd|exact Hrange].
Defined.


End WorldFacts.

(** * Properties of the client side *)

Module ClientFacts.
Import Client.

Lemma spaced_sent_at ins : ∀ st, spaced (lastCursorSend st) (sent_at st ins).
Proof.
  induction ins as [|[x y now|up] ins IH]; intros st; simpl; [done| |].
  - unfold sendCursorMove. destruct (negb (isConnected st)); [apply IH|].
    destruct (now - lastCursorSend st >=? cursorThrottle) eqn:Hge; [|apply IH].
    apply Z.geb_le in Hge. unfold cursorThrottle in Hge. simpl.
    split; [lia|]. apply (IH {| isConnected := isConnected st;
                                lastCursorSend := now |}).
  - apply (IH {| isConnected := up; lastCursorSend := lastCursorSend st |}).
Qed.

(** X23: presence events are throttled.  Whatever the pointer does,
    whatever the clock reads and however the connection goes up and down,
    each cursor event the socket manager emits comes at a reading at least
    33 ms after the reading of the one before (after 0 for the first), and
    none is emitted while the manager is not connected. *)
Theorem cursor_events_are_throttled (st : cursor_state) (ins : list cursor_input) :
  spaced (lastCursorSend st) (sent_at st ins) ∧
  ∀ x y now, isConnected st = false →
    sendCursorMove st x y now = (st, None).
Proof.
  split; [apply spaced_sent_at|].
  intros x y now Hoff. unfold sendCursorMove. by rewrite Hoff.
Qed.

Lemma length_strip_room s : (length (strip_room s) ≤ length s)%nat.
Proof. apply length_filter. Qed.

(** X24: what the welcome form lets through.  The form refuses to join
    exactly when the name is empty once trimmed; otherwise the name it
    passes on is the trimmed name cut to 20 code units, never empty, and
    the room it passes on has at most 30 code units, all of them letters,
    digits, [-] or [_]; a room field that is empty once trimmed becomes
    "default", while a room whose first 30 code units are all outside that
    set is passed on as the empty string. *)
Theorem handleJoin_sanitizes (name room : list N) :
  (handleJoin name room = None ↔ trim name = []) ∧
  ∀ n r, handleJoin name room = Some (n, r) →
    n = take 20 (trim name) ∧
    (1 ≤ length n ≤ 20)%nat ∧
    (length r ≤ 30)%nat ∧
    Forall (λ u, room_char u = true) r ∧
    (trim room = [] → r = default_room) ∧
    (trim room ≠ [] →
     Forall (λ u, room_char u = false) (take 30 (trim room)) → r = []).
Proof.
  unfold handleJoin. cbv zeta.
  destruct (decide (trim name = [])) as [Hname|Hname].
  { split; [done|]. by intros n r H. }
  split; [split; [done|by intros ?]|].
  intros n r Heq. injection Heq as <- <-.
  split; [done|]. split.
  { rewrite length_take. destruct (trim name) as [|u l]; [done|].
    rewrite length_cons. lia. }
  split.
  { etrans; [apply length_strip_room|]. rewrite length_take. lia. }
  split.
  { unfold strip_room. apply Forall_forall. intros u Hu.
    by apply list_elem_of_filter in Hu as [? _]. }
  split.
  - intros Hroom. by rewrite decide_True.
  - intros Hroom Hnone. rewrite decide_False by done.
    unfold strip_room. induction Hnone as [|u l Hu Hl IH]; [done|].
    rewrite filter_cons_False; [done|]. by rewrite Hu.
Qed.

Lemma handleJoin_sanitizes_witness :
  (* " Ann " and "!!!", then "Ann" and " " *)
  handleJoin [32; 65; 110; 110; 32]%N [33; 33; 33]%N
    = Some ([65; 110; 110]%N, []) ∧
  handleJoin [65; 110; 110]%N [32]%N = Some ([65; 110; 110]%N, default_room) ∧
  (1 ≤ length [65; 110; 110]%N ≤ 20)%nat ∧
  Forall (λ u, room_char u = true) default_room.
Proof.
  assert (H1 : handleJoin [32; 65; 110; 110; 32]%N [33; 33; 33]%N
               = Some ([65; 110; 110]%N, [])) by reflexivity.
  assert (H2 : handleJoin [65; 110; 110]%N [32]%N
               = Some ([65; 110; 110]%N, default_room)) by reflexivity.
  destruct (proj2 (handleJoin_sanitizes _ _) _ _ H1) as (_ & Hlen & _).
  destruct (proj2 (handleJoin_sanitizes _ _) _ _ H2) as (_ & _ & _ & Hall & _).
  split; [exact H1|]. split; [exact H2|]. split; [exact Hlen|exact Hall].
Defined.

Lemma cursor_events_are_throttled_witness :
  let st := {| isConnected := true; lastCursorSend := 0 |} in
  let ins := [PointerAt (JNum 1) (JNum 1) 100; PointerAt (JNum 2) (JNum 1) 110;
              PointerAt (JNum 3) (JNum 1) 140; Online false;
              PointerAt (JNum 4) (JNum 1) 200; Online true;
              PointerAt (JNum 5) (JNum 1) 210] in
  sent_at st ins = [100; 140; 210] ∧ spaced 0 [100; 140; 210].
Proof.
  cbv zeta. split; [reflexivity|].
  exact (proj1 (cursor_events_are_throttled
                  {| isConnected := true; lastCursorSend := 0 |}
                  [PointerAt (JNum 1) (JNum 1) 100; PointerAt (JNum 2) (JNum 1) 110;
                   PointerAt (JNum 3) (JNum 1) 140; Online false;
                   PointerAt (JNum 4) (JNum 1) 200; Online true;
                   PointerAt (JNum 5) (JNum 1) 210])).
Defined.

End ClientFacts.
